(** * Scraper: queue orchestrator, resilient API client, credential leases

    A shallow embedding of the JavaScript sources

      - [common/utils.js]          (makeApiRequest and the Blacklight queue calls),
      - [common/credentialsAPI.js] (CredentialsAPIClient),
      - [scrapers/linkedin.js], [scrapers/techfetch.js], [scrapers/glassdoor.js]
        (the credential retry loops around the browser automation),
      - [server.js]                (runBlacklightQueue, POST /scrape-queue,
                                    autoCheckQueue, POST /scrape, scrapeJobs),
      - [common/messages.js]       (withRetry),
      - [scrapers/monster.js]      (the search request and the paging loop),

    as state-passing functions over an explicit event trace.  Every [await]
    on the outside world (fetch, setTimeout, the browser automation) is an
    event; the outside world is an oracle that answers from the history of
    events so far, so a theorem quantified over the oracle holds for every
    backend and every scraper behaviour. *)

From Stdlib Require Import Ascii.
From stdpp Require Import gmap strings list pretty.

Open Scope string_scope.
Open Scope Z_scope.

(** ** JavaScript values that cross the boundary *)

(** A thrown [Error]; the code only ever reads [error.message]. *)
Record Error := mkError { message : string }.

(** The settled state of a promise: fulfilled with a value or rejected. *)
Inductive Outcome (A : Type) :=
| Returned (a : A)
| Thrown (e : Error).
Arguments Returned {A} a.
Arguments Thrown {A} e.

Inductive Method := GET | POST.

(** Objects of the backend contract (Complete API.md), with the fields the
    code reads.  A field the code dereferences and that the backend may
    leave out is an [option]. *)
Record SessionInfo := mkSessionInfo {
  si_session_id : string;
  si_role_name : string;
  si_location : string;
  si_platforms_completed : Z;
  si_platforms_total : Z
}.

(** The [session] field of the current-session answer: left out, null,
    or a value whose fields can be read. *)
Inductive SessionField :=
| SessionAbsent
| SessionNull
| SessionObject (info : SessionInfo).

Record Role := mkRole {
  role_name : string;
  role_aliases : list string;
  role_candidate_count : Z
}.

Record PlatformInfo := mkPlatformInfo {
  pi_name : string;
  pi_display_name : string
}.

Record QueueItem := mkQueueItem {
  qi_session_id : string;
  qi_role : Role;
  qi_location : string;
  qi_platforms : list PlatformInfo
}.

Record Progress := mkProgress {
  pr_completed : Z;
  pr_total_platforms : Z
}.

Record Completion := mkCompletion {
  co_has_summary : bool;     (* completionResponse.summary is an object *)
  co_has_jobs : bool;        (* completionResponse.jobs is an object *)
  co_matching_triggered : bool
}.

Record Credential := mkCredential {
  cred_id : Z;
  cred_name : string;
  cred_secret : string       (* email/password or cookie payload, opaque here *)
}.

(** What [response.json()] yields. *)
Inductive Body :=
| BodyInvalid                                   (* no or malformed JSON: json() rejects *)
| BodyNull                                      (* the JSON value null *)
| BodySessionCheck (has_active_session : bool) (session : SessionField)
| BodyQueueItem (q : QueueItem)
| BodySubmit (progress : option Progress)
| BodyCompletion (c : Completion)
| BodyCredential (c : Credential)
| BodyStatus (msg : option string).             (* {message?, status?, error?} *)

Record Response := mkResponse {
  status : Z;
  statusText : string;
  body : Body
}.

(** [response.ok] *)
Definition ok (r : Response) : bool := (200 <=? status r) && (status r <=? 299).

Inductive FetchResult :=
| Responded (r : Response)
| NetworkError (e : Error).

Section Scraper.

(** Scraped job records and their wire format are opaque to the
    orchestration; [formatJobForBlacklight] is the stateless transform of
    utils.js (it may throw a TypeError on an ill-typed record). *)
Context {Job FormattedJob : Type}.
Variable formatJobForBlacklight : Job -> string -> Outcome FormattedJob.

(** JSON request bodies, before [JSON.stringify]. *)
Inductive ReqBody :=
| NoBody
| JobsBody (session_id platform : string) (jobs : list FormattedJob)
           (failed : option (option string))   (* status:'failed' with error_message *)
| CompleteBody (session_id : string)
| SuccessBody (msg : option string)
| FailureBody (error_message : string) (cooldown_minutes : Z).

Record Request := mkRequest {
  url : string;
  method : Method;
  api_key : string;        (* header X-Scraper-API-Key *)
  req_body : ReqBody
}.

(** The browser automation behind a scraper, one call per attempt. *)
Inductive CollabResult :=
| Scraped (jobs : list Job)
| ScrapeFailed (e : Error) (loginSuccess : bool). (* flag value when thrown *)

Record CollabCall := mkCollabCall {
  cc_platform : string;
  cc_jobTitle : string;
  cc_location : string;
  cc_credential : option Body
}.

Inductive Event :=
| EvFetch (req : Request) (res : FetchResult)
| EvSleep (ms : Z)
| EvSetup (platform : string) (res : Outcome unit)
| EvCollab (call : CollabCall) (res : CollabResult).

(** The outside world: it answers each call from the events so far. *)
Record Env := mkEnv {
  env_fetch : list Event -> Request -> FetchResult;
  env_setup : list Event -> string -> Outcome unit;
  env_collab : list Event -> CollabCall -> CollabResult
}.

Variable env : Env.

(** ** Module-level mutable state *)

(** [activeCredentials] entry [{id, data}]. *)
Record ActiveCredential := mkActive {
  ac_id : option Z;       (* credential.id, undefined on an ill-shaped body *)
  ac_data : Body
}.

Record CredentialsAPIClient := mkClient {
  apiBaseUrl : string;
  clientApiKey : string;
  activeCredentials : gmap string ActiveCredential
}.

Record State := mkState {
  trace : list Event;
  apiClient : option CredentialsAPIClient;   (* the singleton of credentialsAPI.js *)
  isProcessingQueue : bool                   (* re-entrancy guard of server.js *)
}.

(** ** Async functions: state passing with exceptions *)

Definition M (A : Type) : Type := State -> Outcome A * State.

Definition ret {A} (a : A) : M A := fun s => (Returned a, s).

Definition bind {A B} (m : M A) (k : A -> M B) : M B :=
  fun s => match m s with
           | (Returned a, s') => k a s'
           | (Thrown e, s') => (Thrown e, s')
           end.

Definition throw {A} (e : Error) : M A := fun s => (Thrown e, s).

(** Settle a promise without propagating its rejection (the shape of
    [try { await m } catch (error) { ... }]). *)
Definition settle {A} (m : M A) : M (Outcome A) :=
  fun s => let '(o, s') := m s in (Returned o, s').

Definition lift_outcome {A} (o : Outcome A) : M A := fun s => (o, s).

#[global] Instance M_ret : MRet M := @ret.
#[global] Instance M_bind : MBind M := fun A B k m => bind m k.

Definition emit (e : Event) : M unit :=
  fun s => (Returned tt, mkState (trace s ++ [e]) (apiClient s) (isProcessingQueue s)).

(** [await fetch(url, options)] *)
Definition fetch (req : Request) : M Response :=
  fun s =>
    let res := env_fetch env (trace s) req in
    match emit (EvFetch req res) s with
    | (_, s') => match res with
                 | Responded r => (Returned r, s')
                 | NetworkError e => (Thrown e, s')
                 end
    end.

(** [await new Promise(resolve => setTimeout(resolve, delay))] *)
Definition sleep (ms : Z) : M unit := emit (EvSleep ms).

(** [await response.json()] *)
Definition json (r : Response) : M Body :=
  match body r with
  | BodyInvalid => throw (mkError "Unexpected end of JSON input")
  | b => ret b
  end.

(** ** common/utils.js: the resilient API client *)

Definition RETRY_DELAYS : list Z := [1000; 2000; 5000; 10000; 30000].

(** [RETRY_DELAYS[attempt] || 30000] *)
Definition retry_delay (attempt : nat) : Z :=
  match RETRY_DELAYS !! attempt with
  | Some d => if d =? 0 then 30000 else d
  | None => 30000
  end.

(** [for (let attempt = 0; attempt < retries; attempt++)], with
    [fuel = retries - attempt] iterations left. *)
Fixpoint makeApiRequest_from (fuel attempt retries : nat) (req : Request)
  : M Response :=
  match fuel with
  | O => throw (mkError "Max retries exceeded")
  | S fuel' =>
      r ← settle (fetch req);
      match r with
      | Returned response =>
          if status response =? 429 then
            sleep (retry_delay attempt);;
            makeApiRequest_from fuel' (S attempt) retries req
          else if 500 <=? status response then
            sleep (retry_delay attempt);;
            makeApiRequest_from fuel' (S attempt) retries req
          else ret response
      | Thrown error =>
          if Nat.eqb attempt (retries - 1) then throw error
          else
            sleep (retry_delay attempt);;
            makeApiRequest_from fuel' (S attempt) retries req
      end
  end.

Definition makeApiRequest_retries (retries : nat) (req : Request) : M Response :=
  makeApiRequest_from retries 0 retries req.

(** [makeApiRequest(url, options)] with the default [retries = 5], the only
    way the repository calls it. *)
Definition makeApiRequest (req : Request) : M Response :=
  makeApiRequest_retries 5 req.

Definition status_line (r : Response) : string :=
  pretty (status r) +:+ " " +:+ statusText r.

Definition checkActiveSession (apiUrl apiKey : string) : M Body :=
  response ← makeApiRequest
    (mkRequest (apiUrl +:+ "/api/scraper/queue/current-session") GET apiKey NoBody);
  if ok response then json response
  else throw (mkError ("Failed to check active session: " +:+ status_line response)).

Definition getNextRoleLocation (apiUrl apiKey : string) : M Body :=
  response ← makeApiRequest
    (mkRequest (apiUrl +:+ "/api/scraper/queue/next-role-location") GET apiKey NoBody);
  if status response =? 204 then ret BodyNull
  else if status response =? 409 then
    throw (mkError "Scraper already has an active session")
  else if ok response then json response
  else throw (mkError ("Failed to get next role+location: " +:+ status_line response)).

Definition submitJobs (apiUrl apiKey sessionId platform : string)
    (jobs : list FormattedJob) (status_arg : string) (errorMessage : option string)
  : M Body :=
  let failed := if String.eqb status_arg "failed" then Some errorMessage else None in
  response ← makeApiRequest
    (mkRequest (apiUrl +:+ "/api/scraper/queue/jobs") POST apiKey
               (JobsBody sessionId platform jobs failed));
  if (status response =? 202) || ok response then json response
  else throw (mkError ("Failed to submit jobs: " +:+ status_line response)).

Definition completeSession (apiUrl apiKey sessionId : string) : M Body :=
  response ← makeApiRequest
    (mkRequest (apiUrl +:+ "/api/scraper/queue/complete") POST apiKey
               (CompleteBody sessionId));
  if ok response then json response
  else throw (mkError ("Failed to complete session: " +:+ status_line response)).

(** ** common/credentialsAPI.js: the credential lease client *)

(** [getCredentialsAPIClient()] *)
Definition getCredentialsAPIClient : M CredentialsAPIClient :=
  fun s => match apiClient s with
           | Some client => (Returned client, s)
           | None => (Thrown (mkError
               "Credentials API client not initialized. Call initializeCredentialsAPI() first."), s)
           end.

(** [this.activeCredentials.set / delete] on the singleton. *)
Definition update_active
    (f : gmap string ActiveCredential -> gmap string ActiveCredential) : M unit :=
  fun s =>
    (Returned tt,
     mkState (trace s)
             (match apiClient s with
              | Some this => Some (mkClient (apiBaseUrl this) (clientApiKey this)
                                            (f (activeCredentials this)))
              | None => None
              end)
             (isProcessingQueue s)).

(** JavaScript truthiness of a string. *)
Definition truthy (x : string) : bool := negb (String.eqb x "").

(** [error.message || response.statusText] on a parsed error body. *)
Definition api_error_text (error : Body) (r : Response) : M string :=
  match error with
  | BodyNull => throw (mkError "Cannot read properties of null (reading 'message')")
  | BodyStatus (Some m) => ret (if truthy m then m else statusText r)
  | _ => ret (statusText r)
  end.

(** [if (!response.ok) { const error = await response.json(); throw ... }] *)
Definition throw_api_error {A} (response : Response) : M A :=
  error ← json response;
  text ← api_error_text error response;
  throw (mkError ("API Error: " +:+ text)).

(** [credential.id] *)
Definition credential_id (credential : Body) : M (option Z) :=
  match credential with
  | BodyNull => throw (mkError "Cannot read properties of null (reading 'id')")
  | BodyCredential c => ret (Some (cred_id c))
  | _ => ret None
  end.

(** [`${credential.id}`] *)
Definition id_text (id : option Z) : string :=
  match id with
  | Some z => pretty z
  | None => "undefined"
  end.

Definition getCredential (platform : string) (sessionId : option string) : M Body :=
  this ← getCredentialsAPIClient;
  let query := match sessionId with
               | Some sid => if truthy sid then "?session_id=" +:+ sid else ""
               | None => ""
               end in
  response ← fetch (mkRequest
    (apiBaseUrl this +:+ "/api/scraper-credentials/queue/" +:+ platform +:+ "/next" +:+ query)
    GET (clientApiKey this) NoBody);
  if status response =? 204 then ret BodyNull
  else if negb (ok response) then throw_api_error response
  else
    credential ← json response;
    id ← credential_id credential;
    update_active (fun active => <[platform := mkActive id credential]> active);;
    ret credential.

(** The shared tail of reportSuccess, reportFailure and releaseCredential:
    the POST inside [try], whose [catch] only logs. *)
Definition report (platform suffix : string) (payload : ReqBody) : M unit :=
  this ← getCredentialsAPIClient;
  match activeCredentials this !! platform with
  | None => ret tt
  | Some credential =>
      settle (
        response ← fetch (mkRequest
          (apiBaseUrl this +:+ "/api/scraper-credentials/queue/"
             +:+ id_text (ac_id credential) +:+ suffix)
          POST (clientApiKey this) payload);
        if negb (ok response) then throw_api_error response
        else
          result ← json response;
          match result with
          | BodyNull =>
              throw (mkError "Cannot read properties of null (reading 'status')")
          | _ => update_active (fun active => delete platform active)
          end);;
      ret tt
  end.

Definition reportSuccess (platform : string) (msg : option string) : M unit :=
  report platform "/success"
         (SuccessBody (match msg with
                       | Some m => if truthy m then Some m else None
                       | None => None
                       end)).

Definition reportFailure (platform errorMessage : string) (cooldownMinutes : Z) : M unit :=
  report platform "/failure" (FailureBody errorMessage cooldownMinutes).

Definition releaseCredential (platform : string) : M unit :=
  report platform "/release" NoBody.

(** ** scrapers: the credential retry loops *)

(** [s.includes(needle)] *)
Fixpoint includes (s needle : string) : bool :=
  String.prefix needle s ||
  match s with
  | EmptyString => false
  | String _ s' => includes s' needle
  end.

(** The browser automation of one attempt. *)
Definition collab (call : CollabCall) : M CollabResult :=
  fun s =>
    let res := env_collab env (trace s) call in
    let '(_, s') := emit (EvCollab call res) s in
    (Returned res, s').

(** Browser start-up that runs outside any [try]. *)
Definition setup (platform : string) : M unit :=
  fun s =>
    let res := env_setup env (trace s) platform in
    let '(_, s') := emit (EvSetup platform res) s in
    (res, s').

(** scrapeMonster and scrapeDice take no credential and ignore the session. *)
Definition scrape_plain (platform jobTitle location : string) : M (list Job) :=
  r ← collab (mkCollabCall platform jobTitle location None);
  match r with
  | Scraped jobs => ret jobs
  | ScrapeFailed error _ => throw error
  end.

Definition scrapeMonster (jobTitle location : string) (sessionId : option string) :=
  scrape_plain "monster" jobTitle location.

Definition scrapeDice (jobTitle location : string) (sessionId : option string) :=
  scrape_plain "dice" jobTitle location.

Definition maxAttempts : nat := 3.
Definition maxCredentialRetries : nat := 10.
Definition credentialRetryDelay : Z := 60000.

(** [for (let credRetry = 0; credRetry < maxCredentialRetries; credRetry++)],
    with [fuel = maxCredentialRetries - credRetry]; the value is the local
    [credential] after the loop ([null] when none was obtained). *)
Fixpoint poll_credential (platform : string) (sessionId : option string)
    (fuel credRetry : nat) : M Body :=
  match fuel with
  | O => ret BodyNull
  | S fuel' =>
      credential ← getCredential platform sessionId;
      match credential with
      | BodyNull =>
          (if Nat.ltb credRetry (maxCredentialRetries - 1)
           then sleep credentialRetryDelay else ret tt);;
          poll_credential platform sessionId fuel' (S credRetry)
      | _ => ret credential
      end
  end.

(** Cooldowns sent with reportFailure. *)
Inductive ErrorClass := CredentialInvalid | RateLimited | OtherError.

Definition classify_linkedin (msg : string) : ErrorClass :=
  if includes msg "Login failed" || includes msg "credentials"
     || includes msg "waitForSelector" then CredentialInvalid
  else if includes msg "rate limit" || includes msg "challenge" then RateLimited
  else OtherError.

Definition classify_techfetch (msg : string) : ErrorClass :=
  if includes msg "Login" || includes msg "credentials" then CredentialInvalid
  else if includes msg "rate limit" then RateLimited
  else OtherError.

Definition classify_glassdoor (msg : string) : ErrorClass :=
  if includes msg "cookie" || includes msg "login" || includes msg "auth"
  then CredentialInvalid
  else if includes msg "rate limit" || includes msg "blocked" then RateLimited
  else OtherError.

(** The [catch] block of scrapeLinkedIn. *)
Definition linkedin_on_error (loginSuccess : bool) (error : Error) : M unit :=
  if negb loginSuccess then
    match classify_linkedin (message error) with
    | CredentialInvalid =>
        reportFailure "linkedin" ("Login failed: " +:+ message error) 0
    | RateLimited =>
        reportFailure "linkedin" ("Rate limited or challenge: " +:+ message error) 60
    | OtherError =>
        reportFailure "linkedin" ("Credential error: " +:+ message error) 0
    end
  else reportFailure "linkedin" ("Scraping error: " +:+ message error) 30.

(** [while (attemptCount < maxAttempts)] of scrapeLinkedIn, with
    [fuel = maxAttempts - attemptCount].  [loginSuccess] is assigned
    immediately before reportSuccess, which never throws, so it is [false]
    whenever the [try] block throws.  The [finally] block closes the
    browser inside its own [try]/[catch] and belongs to the automation. *)
Fixpoint linkedin_attempts (fuel : nat) (lastError : option Error)
    (jobTitle location : string) (sessionId : option string) : M (list Job) :=
  match fuel with
  | O => throw (match lastError with
                | Some e => e
                | None => mkError "All LinkedIn credential attempts failed"
                end)
  | S fuel' =>
      credential ← poll_credential "linkedin" sessionId maxCredentialRetries 0;
      match credential with
      | BodyNull =>
          throw (match lastError with
                 | Some e => e
                 | None => mkError "No LinkedIn credentials available from API"
                 end)
      | _ =>
          r ← collab (mkCollabCall "linkedin" jobTitle location (Some credential));
          match r with
          | Scraped normalizedPosts =>
              reportSuccess "linkedin"
                (Some ("Scraped " +:+ pretty (length normalizedPosts)
                         +:+ " posts successfully"));;
              ret normalizedPosts
          | ScrapeFailed error _ =>
              linkedin_on_error false error;;
              linkedin_attempts fuel' (Some error) jobTitle location sessionId
          end
      end
  end.

Definition scrapeLinkedIn (jobTitle location : string) (sessionId : option string)
  : M (list Job) :=
  getCredentialsAPIClient;;
  linkedin_attempts maxAttempts None jobTitle location sessionId.

(** The [catch] block of scrapeTechFetch. *)
Definition techfetch_on_error (loginSuccess : bool) (error : Error) : M unit :=
  if negb loginSuccess then
    match classify_techfetch (message error) with
    | CredentialInvalid =>
        reportFailure "techfetch" ("Login failed: " +:+ message error) 0
    | RateLimited =>
        reportFailure "techfetch" ("Rate limited: " +:+ message error) 60
    | OtherError =>
        reportFailure "techfetch" ("Credential error: " +:+ message error) 0
    end
  else reportFailure "techfetch" ("Scraping error: " +:+ message error) 30.

Fixpoint techfetch_attempts (fuel : nat) (lastError : option Error)
    (jobTitle location : string) (sessionId : option string) : M (list Job) :=
  match fuel with
  | O => throw (match lastError with
                | Some e => e
                | None => mkError "All TechFetch credential attempts failed"
                end)
  | S fuel' =>
      credential ← poll_credential "techfetch" sessionId maxCredentialRetries 0;
      match credential with
      | BodyNull =>
          throw (match lastError with
                 | Some e => e
                 | None => mkError "No TechFetch credentials available from API"
                 end)
      | _ =>
          r ← collab (mkCollabCall "techfetch" jobTitle location (Some credential));
          match r with
          | Scraped normalizedJobs =>
              reportSuccess "techfetch"
                (Some ("Scraped " +:+ pretty (length normalizedJobs)
                         +:+ " jobs successfully"));;
              ret normalizedJobs
          | ScrapeFailed error loginSuccess =>
              techfetch_on_error loginSuccess error;;
              techfetch_attempts fuel' (Some error) jobTitle location sessionId
          end
      end
  end.

Definition scrapeTechFetch (jobTitle location : string) (sessionId : option string)
  : M (list Job) :=
  getCredentialsAPIClient;;
  techfetch_attempts maxAttempts None jobTitle location sessionId.

(** The [catch] block of scrapeGlassdoor, before its [throw error]. *)
Definition glassdoor_on_error (loginSuccess : bool) (error : Error) : M unit :=
  if negb loginSuccess then
    match classify_glassdoor (message error) with
    | CredentialInvalid =>
        reportFailure "glassdoor" ("Authentication failed: " +:+ message error) 0
    | RateLimited =>
        reportFailure "glassdoor" ("Rate limited or blocked: " +:+ message error) 60
    | OtherError =>
        reportFailure "glassdoor" ("Scraping error: " +:+ message error) 30
    end
  else ret tt.

Definition scrapeGlassdoor (jobTitle location : string) (sessionId : option string)
  : M (list Job) :=
  getCredentialsAPIClient;;
  credential ← getCredential "glassdoor" sessionId;
  match credential with
  | BodyNull => throw (mkError "No Glassdoor credentials available from API")
  | _ =>
      setup "glassdoor";;
      r ← collab (mkCollabCall "glassdoor" jobTitle location (Some credential));
      match r with
      | Scraped jobDetails =>
          reportSuccess "glassdoor"
            (Some ("Scraped " +:+ pretty (length jobDetails) +:+ " jobs successfully"));;
          ret jobDetails
      | ScrapeFailed error loginSuccess =>
          glassdoor_on_error loginSuccess error;;
          throw error
      end
  end.

(** ** server.js: the queue orchestrator *)

Definition lower_ascii (c : Ascii.ascii) : Ascii.ascii :=
  let n := Ascii.nat_of_ascii c in
  if (Nat.leb 65 n && Nat.leb n 90)%bool then Ascii.ascii_of_nat (n + 32) else c.

(** [s.toLowerCase()] on ASCII text. *)
Fixpoint toLowerCase (s : string) : string :=
  match s with
  | EmptyString => EmptyString
  | String c s' => String (lower_ascii c) (toLowerCase s')
  end.

(** [credentials.blacklight] of config/credentials.json. *)
Record BlacklightConfig := mkConfig {
  cfg_apiUrl : string;
  cfg_apiKey : string
}.

Variable blacklight : option BlacklightConfig.

(** [!credentials.blacklight || !...apiUrl || !...apiKey], negated. *)
Definition blacklight_configured : bool :=
  match blacklight with
  | Some cfg => truthy (cfg_apiUrl cfg) && truthy (cfg_apiKey cfg)
  | None => false
  end.

(** What the loop body gets from the two lower-case names that
    [SCRAPERS] inherits from [Object.prototype]: a truthy value whose
    call, or whose result, makes the [try] block throw a TypeError. *)
Definition inherited_constructor (jobTitle location : string) (sessionId : option string)
  : M (list Job) :=
  throw (mkError "jobs.map is not a function").

Definition inherited_proto (jobTitle location : string) (sessionId : option string)
  : M (list Job) :=
  throw (mkError "scraper is not a function").

(** [SCRAPERS[platformName]]: the five own keys of the table, then the
    inherited ones. *)
Definition SCRAPERS (platformName : string)
  : option (string -> string -> option string -> M (list Job)) :=
  if String.eqb platformName "monster" then Some scrapeMonster
  else if String.eqb platformName "dice" then Some scrapeDice
  else if String.eqb platformName "techfetch" then Some scrapeTechFetch
  else if String.eqb platformName "linkedin" then Some scrapeLinkedIn
  else if String.eqb platformName "glassdoor" then Some scrapeGlassdoor
  else if String.eqb platformName "constructor" then Some inherited_constructor
  else if String.eqb platformName "__proto__" then Some inherited_proto
  else None.

Record PlatformOutcome := mkOutcome {
  po_success : bool;
  po_jobs_found : option nat;
  po_jobs_submitted : option nat;
  po_error : option string
}.

Record Results := mkResults {
  res_session_id : string;
  res_role : string;
  res_location : string;
  res_platforms : gmap string PlatformOutcome;
  total_platforms : nat;
  successful : nat;
  failed : nat;
  completion : option Body;
  completion_error : option string
}.

(** What [runBlacklightQueue] resolves to. *)
Inductive RunResult :=
| ResultError (error : string)        (* { error } *)
| ResultMessage (msg : string)        (* { message } *)
| ResultSession (results : Results).

(** [results.platforms[platformName] = {success:false, error}; results.summary.failed++] *)
Definition record_failure (results : Results) (platformName err : string) : Results :=
  mkResults (res_session_id results) (res_role results) (res_location results)
            (<[platformName := mkOutcome false None None (Some err)]> (res_platforms results))
            (total_platforms results) (successful results) (S (failed results))
            (completion results) (completion_error results).

(** [results.platforms[platformName] = {success:true, ...}; results.summary.successful++] *)
Definition record_success (results : Results) (platformName : string)
    (jobs_found jobs_submitted : nat) : Results :=
  mkResults (res_session_id results) (res_role results) (res_location results)
            (<[platformName := mkOutcome true (Some jobs_found) (Some jobs_submitted) None]>
               (res_platforms results))
            (total_platforms results) (S (successful results)) (failed results)
            (completion results) (completion_error results).

(** [jobs.map(job => formatJobForBlacklight(job, platformName))] *)
Fixpoint format_all (jobs : list Job) (platformName : string)
  : Outcome (list FormattedJob) :=
  match jobs with
  | [] => Returned []
  | job :: jobs' =>
      match formatJobForBlacklight job platformName with
      | Thrown e => Thrown e
      | Returned f =>
          match format_all jobs' platformName with
          | Thrown e => Thrown e
          | Returned fs => Returned (f :: fs)
          end
      end
  end.

(** [submitResponse.progress.completed] in the progress log line. *)
Definition read_progress (submitResponse : Body) : M unit :=
  match submitResponse with
  | BodySubmit (Some _) => ret tt
  | BodyNull => throw (mkError "Cannot read properties of null (reading 'progress')")
  | _ => throw (mkError "Cannot read properties of undefined (reading 'completed')")
  end.

(** The dereferences in the completion log lines. *)
Definition read_completion (completionResponse : Body) : M unit :=
  match completionResponse with
  | BodyCompletion c =>
      if negb (co_has_summary c) then
        throw (mkError "Cannot read properties of undefined (reading 'successful_platforms')")
      else if negb (co_has_jobs c) then
        throw (mkError "Cannot read properties of undefined (reading 'total_found')")
      else ret tt
  | BodyNull => throw (mkError "Cannot read properties of null (reading 'role_name')")
  | _ => throw (mkError "Cannot read properties of undefined (reading 'successful_platforms')")
  end.

(** The [catch] block of the loop body: report the failure, swallow a
    rejection of the report, record the platform as failed. *)
Definition report_failed (apiUrl apiKey : string) (q : QueueItem)
    (platformName : string) (error : Error) (results : Results) : M Results :=
  settle (submitJobs apiUrl apiKey (qi_session_id q) platformName [] "failed"
                     (Some (message error)));;
  ret (record_failure results platformName (message error)).

(** One iteration of [for (const platformInfo of platforms)]. *)
Definition process_platform (apiUrl apiKey : string) (q : QueueItem)
    (platformInfo : PlatformInfo) (results : Results) : M Results :=
  let platformName := toLowerCase (pi_name platformInfo) in
  match SCRAPERS platformName with
  | None =>
      submitJobs apiUrl apiKey (qi_session_id q) platformName [] "failed"
                 (Some ("Platform not supported: " +:+ platformName));;
      ret (record_failure results platformName "Platform not supported")
  | Some scraper =>
      r ← settle (
        jobs ← scraper (role_name (qi_role q)) (qi_location q) (Some (qi_session_id q));
        formattedJobs ← lift_outcome (format_all jobs platformName);
        submitResponse ← submitJobs apiUrl apiKey (qi_session_id q) platformName
                                    formattedJobs "success" None;
        read_progress submitResponse;;
        ret (record_success results platformName (length jobs) (length formattedJobs)));
      match r with
      | Returned results' => ret results'
      | Thrown error => report_failed apiUrl apiKey q platformName error results
      end
  end.

Fixpoint platform_loop (apiUrl apiKey : string) (q : QueueItem)
    (platforms : list PlatformInfo) (results : Results) : M Results :=
  match platforms with
  | [] => ret results
  | platformInfo :: rest =>
      results' ← process_platform apiUrl apiKey q platformInfo results;
      platform_loop apiUrl apiKey q rest results'
  end.

(** Step 4 of runBlacklightQueue. *)
Definition complete_step (apiUrl apiKey : string) (q : QueueItem) (results : Results)
  : M RunResult :=
  r ← settle (
    completionResponse ← completeSession apiUrl apiKey (qi_session_id q);
    read_completion completionResponse;;
    ret completionResponse);
  match r with
  | Returned completionResponse =>
      ret (ResultSession
             (mkResults (res_session_id results) (res_role results) (res_location results)
                        (res_platforms results) (total_platforms results)
                        (successful results) (failed results)
                        (Some completionResponse) (completion_error results)))
  | Thrown error =>
      ret (ResultSession
             (mkResults (res_session_id results) (res_role results) (res_location results)
                        (res_platforms results) (total_platforms results)
                        (successful results) (failed results)
                        (completion results) (Some (message error))))
  end.

Definition initial_results (q : QueueItem) : Results :=
  mkResults (qi_session_id q) (role_name (qi_role q)) (qi_location q) ∅
            (length (qi_platforms q)) 0 0 None None.

(** Steps 3 and 4, once a queue item has been fetched. *)
Definition run_queue_item (apiUrl apiKey : string) (q : QueueItem) : M RunResult :=
  results ← platform_loop apiUrl apiKey q (qi_platforms q) (initial_results q);
  complete_step apiUrl apiKey q results.

Definition runBlacklightQueue : M RunResult :=
  if negb blacklight_configured then
    throw (mkError "Blacklight API configuration missing in credentials.json")
  else
    match blacklight with
    | None => throw (mkError "Blacklight API configuration missing in credentials.json")
    | Some cfg =>
        let apiUrl := cfg_apiUrl cfg in
        let apiKey := cfg_apiKey cfg in
        sessionCheck ← checkActiveSession apiUrl apiKey;
        match sessionCheck with
        | BodyNull =>
            throw (mkError "Cannot read properties of null (reading 'has_active_session')")
        | BodySessionCheck true SessionAbsent =>
            throw (mkError "Cannot read properties of undefined (reading 'session_id')")
        | BodySessionCheck true SessionNull =>
            throw (mkError "Cannot read properties of null (reading 'session_id')")
        | BodySessionCheck true (SessionObject _) =>
            ret (ResultError "Active session already exists. Complete it first.")
        | _ =>
            queueItem ← getNextRoleLocation apiUrl apiKey;
            match queueItem with
            | BodyNull => ret (ResultMessage "Queue is empty")
            | BodyQueueItem q => run_queue_item apiUrl apiKey q
            | _ => throw (mkError "Cannot read properties of undefined (reading 'name')")
            end
        end
    end.

(** ** server.js: POST /scrape-queue *)

Record HttpReply := mkReply {
  http_status : Z;
  http_success : bool;
  http_error : option string;
  http_message : option string;
  http_results : option RunResult
}.

Definition result_error (r : RunResult) : string :=
  match r with ResultError e => e | _ => "" end.

Definition result_message (r : RunResult) : string :=
  match r with ResultMessage m => m | _ => "" end.

Definition post_scrape_queue : M HttpReply :=
  r ← settle runBlacklightQueue;
  match r with
  | Returned results =>
      if truthy (result_error results) then
        ret (mkReply 409 false (Some (result_error results)) None None)
      else if truthy (result_message results) then
        ret (mkReply 200 true None (Some (result_message results)) None)
      else
        ret (mkReply 200 true None (Some "Blacklight queue workflow completed")
                     (Some results))
  | Thrown error => ret (mkReply 500 false (Some (message error)) None None)
  end.

(** ** server.js: the auto queue checker *)

Definition set_isProcessingQueue (b : bool) (s : State) : State :=
  mkState (trace s) (apiClient s) b.

(** The synchronous head of autoCheckQueue, up to its first [await]:
    [None] when the call returns at once, otherwise the state in which
    runBlacklightQueue starts. *)
Definition autoCheckQueue_enter (s : State) : option State :=
  if isProcessingQueue s then None
  else if negb blacklight_configured then None
  else Some (set_isProcessingQueue true s).

(** The [finally] block. *)
Definition autoCheckQueue_exit (s : State) : State :=
  set_isProcessingQueue false s.

(** One whole call of autoCheckQueue with nothing interleaved. *)
Definition autoCheckQueue : M unit :=
  fun s =>
    match autoCheckQueue_enter s with
    | None => (Returned tt, s)
    | Some s1 =>
        let '(_, s2) := runBlacklightQueue s1 in   (* both outcomes are only logged *)
        (Returned tt, autoCheckQueue_exit s2)
    end.

End Scraper.

Arguments Env : clear implicits.
Arguments Event : clear implicits.
Arguments State : clear implicits.
Arguments Request : clear implicits.
Arguments ReqBody : clear implicits.
Arguments CollabResult : clear implicits.
Arguments M : clear implicits.
Arguments makeApiRequest : simpl never.
Arguments checkActiveSession : simpl never.
Arguments getNextRoleLocation : simpl never.
Arguments submitJobs : simpl never.
Arguments completeSession : simpl never.
Arguments getCredential : simpl never.
Arguments report : simpl never.
Arguments poll_credential : simpl never.
Arguments process_platform : simpl never.
Arguments runBlacklightQueue : simpl never.

(** ** Reading a trace *)

Section Traces.
Context {Job FormattedJob : Type}.

(** The HTTP exchanges of a trace, in order. *)
Fixpoint fetches (evs : list (Event Job FormattedJob))
  : list (Request FormattedJob * FetchResult) :=
  match evs with
  | [] => []
  | EvFetch req res :: evs' => (req, res) :: fetches evs'
  | _ :: evs' => fetches evs'
  end.

(** The timed waits of a trace, in order. *)
Fixpoint sleeps (evs : list (Event Job FormattedJob)) : list Z :=
  match evs with
  | [] => []
  | EvSleep ms :: evs' => ms :: sleeps evs'
  | _ :: evs' => sleeps evs'
  end.

(** Events that are neither an HTTP exchange nor a wait. *)
Fixpoint automation (evs : list (Event Job FormattedJob))
  : list (Event Job FormattedJob) :=
  match evs with
  | [] => []
  | EvFetch _ _ :: evs' => automation evs'
  | EvSleep _ :: evs' => automation evs'
  | e :: evs' => e :: automation evs'
  end.

(** A result on which [makeApiRequest] goes round its loop again. *)
Definition retryable (res : FetchResult) : bool :=
  match res with
  | Responded r => (status r =? 429) || (500 <=? status r)
  | NetworkError _ => true
  end.

Definition is_submit (req : Request FormattedJob) : bool :=
  match req_body req with JobsBody _ _ _ _ => true | _ => false end.

Definition is_complete (req : Request FormattedJob) : bool :=
  match req_body req with CompleteBody _ => true | _ => false end.

(** The submit and complete calls of a trace. *)
Definition submit_or_complete_calls (evs : list (Event Job FormattedJob))
  : list (Request FormattedJob * FetchResult) :=
  filter (fun x => is_submit (fst x) || is_complete (fst x) = true) (fetches evs).

Definition complete_calls (evs : list (Event Job FormattedJob))
  : list (Request FormattedJob * FetchResult) :=
  filter (fun x => is_complete (fst x) = true) (fetches evs).

(** The per-platform operations of the dispatch loop. *)
Inductive OpKind := OpScrape | OpSubmit.

Definition platform_op (e : Event Job FormattedJob) : option (OpKind * string) :=
  match e with
  | EvCollab call _ => Some (OpScrape, cc_platform call)
  | EvSetup platform _ => Some (OpScrape, platform)
  | EvFetch req _ =>
      match req_body req with
      | JobsBody _ platform _ _ => Some (OpSubmit, platform)
      | _ => None
      end
  | EvSleep _ => None
  end.

Definition platform_ops (evs : list (Event Job FormattedJob)) : list (OpKind * string) :=
  omap platform_op evs.

(** The operations of one platform: its scrape attempts, then at least
    one submit exchange. *)
Definition platform_segment (platformName : string) (seg : list (OpKind * string)) : Prop :=
  exists a b, seg = (repeat (OpScrape, platformName) a
                     ++ repeat (OpSubmit, platformName) (S b))%list.

(** A backend that answers the k-th request with the k-th entry of a
    script, whatever is asked. *)
Definition scripted (script : list FetchResult) : Env Job FormattedJob :=
  mkEnv (fun history _ =>
           match script !! length (fetches history) with
           | Some res => res
           | None => NetworkError (mkError "script exhausted")
           end)
        (fun _ _ => Returned tt)
        (fun _ _ => Scraped []).

Definition initial_state : State Job FormattedJob := mkState [] None false.

(** [m] only appends to the trace, and what it appends satisfies [P]. *)
Definition emits {A} (m : M Job FormattedJob A)
    (P : list (Event Job FormattedJob) -> Prop) : Prop :=
  forall s, exists evs, trace (snd (m s)) = (trace s ++ evs)%list /\ P evs.

(** Properties of event lists that survive sequencing. *)
Record Sequential (P : list (Event Job FormattedJob) -> Prop) : Prop := {
  seq_nil : P [];
  seq_app : forall evs1 evs2, P evs1 -> P evs2 -> P (evs1 ++ evs2)%list
}.

(** Only scrape work, and only for [platform]: nothing is submitted. *)
Definition scrape_only (platform : string) (evs : list (Event Job FormattedJob)) : Prop :=
  exists n, platform_ops evs = repeat (OpScrape, platform) n.

(** One segment per platform, in the order of the platforms. *)
Definition in_list_order (platforms : list PlatformInfo)
    (segs : list (list (OpKind * string))) : Prop :=
  Forall2 (fun p seg => platform_segment (toLowerCase (pi_name p)) seg) platforms segs.

(** The lease the client holds for a platform, if any. *)
Definition held (s : State Job FormattedJob) (platform : string)
  : option ActiveCredential :=
  match apiClient s with
  | Some this => activeCredentials this !! platform
  | None => None
  end.

(** The request reportFailure sends for a held lease. *)
Definition failure_report (this : CredentialsAPIClient) (lease : ActiveCredential)
    (errorMessage : string) (cooldownMinutes : Z) : Request FormattedJob :=
  mkRequest (apiBaseUrl this +:+ "/api/scraper-credentials/queue/"
               +:+ id_text (ac_id lease) +:+ "/failure")
            POST (clientApiKey this) (FailureBody errorMessage cooldownMinutes).

End Traces.

(** The cooldown table of the specification: credential-invalid 0,
    rate-limited 60, anything else 0. *)
Definition spec_cooldownMinutes (c : ErrorClass) : Z :=
  match c with
  | CredentialInvalid => 0
  | RateLimited => 60
  | OtherError => 0
  end.

(** The cooldown table of scrapeGlassdoor. *)
Definition glassdoor_cooldownMinutes (c : ErrorClass) : Z :=
  match c with
  | CredentialInvalid => 0
  | RateLimited => 60
  | OtherError => 30
  end.

(** ** Interleaving of triggers and runs

    Node runs one callback at a time and switches only at an [await].  A
    trigger therefore executes the synchronous head of its handler
    atomically; the run it starts then proceeds in steps interleaved with
    other callbacks until it settles. *)

Module Scheduler.
Section Interleaving.
Context {Job FormattedJob : Type}.
Variable blacklight : option BlacklightConfig.

(** Who started an in-flight runBlacklightQueue. *)
Inductive Origin := Timer | Http.

Record Sched := mkSched {
  server : State Job FormattedJob;       (* module-level state of server.js *)
  running : list Origin                  (* in-flight orchestrator executions *)
}.

Inductive Action :=
| Tick                                         (* the timer calls autoCheckQueue *)
| Post                                         (* POST /scrape-queue arrives *)
| Step (o : Origin) (e : Event Job FormattedJob)  (* an in-flight run performs an await *)
| Settle (o : Origin) (threw : bool).          (* an in-flight run returns or throws *)

Definition origin_eqb (a b : Origin) : bool :=
  match a, b with
  | Timer, Timer | Http, Http => true
  | _, _ => false
  end.

Fixpoint remove_one (o : Origin) (l : list Origin) : option (list Origin) :=
  match l with
  | [] => None
  | x :: l' =>
      if origin_eqb o x then Some l'
      else match remove_one o l' with
           | Some r => Some (x :: r)
           | None => None
           end
  end.

Definition count_origin (o : Origin) (l : list Origin) : nat :=
  length (filter (fun x => origin_eqb o x = true) l).

Definition add_event (e : Event Job FormattedJob) (s : State Job FormattedJob)
  : State Job FormattedJob :=
  mkState (trace s ++ [e]) (apiClient s) (isProcessingQueue s).

(** One callback; [None] when the action is not enabled. *)
Definition step (a : Action) (st : Sched) : option Sched :=
  match a with
  | Tick =>
      match autoCheckQueue_enter blacklight (server st) with
      | None => Some st
      | Some s1 => Some (mkSched s1 (Timer :: running st))
      end
  | Post => Some (mkSched (server st) (Http :: running st))
  | Step o e =>
      match remove_one o (running st) with
      | Some _ => Some (mkSched (add_event e (server st)) (running st))
      | None => None
      end
  | Settle o threw =>
      match remove_one o (running st) with
      | Some rest =>
          match o with
          | Timer => Some (mkSched (autoCheckQueue_exit (server st)) rest)
          | Http => Some (mkSched (server st) rest)
          end
      | None => None
      end
  end.

Fixpoint exec (actions : list Action) (st : Sched) : option Sched :=
  match actions with
  | [] => Some st
  | a :: rest =>
      match step a st with
      | Some st' => exec rest st'
      | None => None
      end
  end.

Definition boot : Sched := mkSched (mkState [] None false) [].

(** The guard is set exactly while a timer-started run is in flight. *)
Definition guard_tracks_timer_run (st : Sched) : Prop :=
  count_origin Timer (running st)
  = if isProcessingQueue (server st) then 1%nat else 0%nat.

End Interleaving.
End Scheduler.

(** ** Concrete backends for scenarios *)

Module Scenario.

Definition config : BlacklightConfig := mkConfig "https://blacklight.test" "key".

Definition format (job : nat) (platformName : string) : Outcome nat := Returned job.

Definition item (platforms : list PlatformInfo) : QueueItem :=
  mkQueueItem "s-1" (mkRole "DevOps Engineer" ["DevOps"; "SRE"] 15) "New York" platforms.

Definition no_session : Response :=
  mkResponse 200 "OK" (BodySessionCheck false SessionNull).

Definition active_session : Response :=
  mkResponse 200 "OK"
    (BodySessionCheck true
       (SessionObject (mkSessionInfo "s-0" "DevOps Engineer" "New York" 2 6))).

(** An active session reported with [session: null]. *)
Definition active_session_without_details : Response :=
  mkResponse 200 "OK" (BodySessionCheck true SessionNull).

Definition queue_item (platforms : list PlatformInfo) : Response :=
  mkResponse 200 "OK" (BodyQueueItem (item platforms)).

Definition conflict : Response :=
  mkResponse 409 "Conflict" (BodyStatus (Some "Scraper already has an active session")).

Definition accepted : Response :=
  mkResponse 202 "Accepted" (BodySubmit (Some (mkProgress 1 1))).

Definition not_found : Response :=
  mkResponse 404 "Not Found" (BodyStatus (Some "Session not found or unauthorized")).

Definition server_error : Response :=
  mkResponse 500 "Internal Server Error" (BodyStatus None).

Definition completed : Response :=
  mkResponse 200 "OK" (BodyCompletion (mkCompletion true true true)).

Definition credential (id : Z) : Response :=
  mkResponse 200 "OK" (BodyCredential (mkCredential id "Account" "secret")).

Definition released : Response :=
  mkResponse 200 "OK" (BodyStatus (Some "Credential released successfully")).

(** A backend that answers by endpoint. *)
Record Backend := mkBackend {
  on_current_session : Response;
  on_next_role_location : Response;
  on_jobs : Response;
  on_complete : Response;
  on_credential : Response;
  on_report : Response;
  on_collab : string -> CollabResult nat
}.

Definition backend_env (b : Backend) : Env nat nat :=
  mkEnv (fun _ req =>
           Responded
             match req_body req with
             | JobsBody _ _ _ _ => on_jobs b
             | CompleteBody _ => on_complete b
             | SuccessBody _ | FailureBody _ _ => on_report b
             | NoBody =>
                 if includes (url req) "/current-session" then on_current_session b
                 else if includes (url req) "/next-role-location"
                      then on_next_role_location b
                      else on_credential b
             end)
        (fun _ _ => Returned tt)
        (fun _ call => on_collab b (cc_platform call)).

(** Everything succeeds: ten jobs per platform. *)
Definition healthy (platforms : list PlatformInfo) : Backend :=
  mkBackend no_session (queue_item platforms) accepted completed
            (credential 1) released
            (fun _ => Scraped (seq 0 10)).

(** The credentials client after initializeCredentialsAPI. *)
Definition client : CredentialsAPIClient :=
  mkClient "https://blacklight.test" "key" ∅.

Definition started : State nat nat := mkState [] (Some client) false.

(** The client while it holds linkedin credential 1. *)
Definition holding : State nat nat :=
  mkState []
          (Some (mkClient "https://blacklight.test" "key"
                          {[ "linkedin" := mkActive (Some 1)
                               (BodyCredential (mkCredential 1 "Account" "secret")) ]}))
          false.

(** The backend refuses a second session on next-role-location. *)
Definition refusing : Backend :=
  mkBackend no_session conflict accepted completed (credential 1) released
            (fun _ => Scraped (seq 0 10)).

(** The queue item lists a platform outside SCRAPERS and the backend
    rejects the report about it. *)
Definition rejecting : Backend :=
  mkBackend no_session
            (queue_item [mkPlatformInfo "indeed" "Indeed"; mkPlatformInfo "dice" "Dice"])
            not_found completed (credential 1) released
            (fun _ => Scraped (seq 0 10)).

(** The credential endpoints answer 500. *)
Definition failing_credentials : Backend :=
  mkBackend no_session (queue_item []) accepted completed server_error released
            (fun _ => Scraped (seq 0 10)).

(** The browser automation times out before login. *)
Definition timing_out : Backend :=
  mkBackend no_session (queue_item []) accepted completed (credential 7) released
            (fun _ => ScrapeFailed (mkError "Navigation timeout of 60000 ms exceeded") false).

(** The backend hands out credential 2. *)
Definition second_credential : Backend :=
  mkBackend no_session (queue_item []) accepted completed (credential 2) released
            (fun _ => Scraped (seq 0 10)).

(** Every scrape attempt fails at login. *)
Definition wrong_password : Backend :=
  mkBackend no_session (queue_item []) accepted completed (credential 7) released
            (fun _ => ScrapeFailed (mkError "Login failed: invalid password") false).

(** The scenario of the specification: dice needs no credential and
    yields ten jobs; linkedin's first credential fails at login, the
    second one yields five posts. *)
Definition two_platforms : list PlatformInfo :=
  [mkPlatformInfo "dice" "Dice"; mkPlatformInfo "linkedin" "LinkedIn"].

Definition second_try_env : Env nat nat :=
  mkEnv (env_fetch (backend_env (healthy two_platforms)))
        (fun _ _ => Returned tt)
        (fun history call =>
           if String.eqb (cc_platform call) "dice" then Scraped (seq 0 10)
           else match automation history with
                | [_] => ScrapeFailed (mkError "Login failed: invalid password") false
                | _ => Scraped (seq 0 5)
                end).

End Scenario.

(** * Further functions of the sources *)

(** ** common/credentialsAPI.js: the rest of the client *)

Section MoreClient.
Context {Job FormattedJob : Type}.
Variable env : Env Job FormattedJob.

(** [initializeCredentialsAPI(apiBaseUrl, apiKey)]: the singleton is
    replaced by a new client, whose [activeCredentials] is a new Map. *)
Definition initializeCredentialsAPI (apiBaseUrl apiKey : string)
  : M Job FormattedJob CredentialsAPIClient :=
  fun s =>
    if negb (truthy apiBaseUrl) || negb (truthy apiKey) then
      (Thrown (mkError "API base URL and API key are required"), s)
    else
      (Returned (mkClient apiBaseUrl apiKey ∅),
       mkState (trace s) (Some (mkClient apiBaseUrl apiKey ∅)) (isProcessingQueue s)).

(** [getActiveCredential(platform)]; [None] is [null]. *)
Definition getActiveCredential (platform : string) : M Job FormattedJob (option Body) :=
  this ← getCredentialsAPIClient;
  mret (ac_data <$> (activeCredentials this !! platform)).

(** [releaseAll()].  [keys] is [Array.from(this.activeCredentials.keys())],
    the platforms with a lease in the order the Map received them; the map
    of the model does not record that order, so the snapshot is passed in. *)
Fixpoint releaseAll (keys : list string) : M Job FormattedJob unit :=
  match keys with
  | [] => mret tt
  | platform :: rest => releaseCredential env platform;; releaseAll rest
  end.

End MoreClient.

Section MoreTraces.
Context {Job FormattedJob : Type}.

(** The POST of a report for a held lease. *)
Definition report_request (this : CredentialsAPIClient) (lease : ActiveCredential)
    (suffix : string) (payload : ReqBody FormattedJob) : Request FormattedJob :=
  mkRequest (apiBaseUrl this +:+ "/api/scraper-credentials/queue/"
               +:+ id_text (ac_id lease) +:+ suffix)
            POST (clientApiKey this) payload.

(** The backend acknowledged a report: a 2xx answer whose JSON body is an
    object. *)
Definition acknowledged (res : FetchResult) : bool :=
  match res with
  | Responded r =>
      ok r && match body r with
              | BodyInvalid | BodyNull => false
              | _ => true
              end
  | NetworkError _ => false
  end.

Definition method_eqb (a b : Method) : bool :=
  match a, b with
  | GET, GET | POST, POST => true
  | _, _ => false
  end.

(** How many requests of a trace use the given method. *)
Fixpoint requests (m : Method) (evs : list (Event Job FormattedJob)) : nat :=
  match evs with
  | [] => 0
  | EvFetch req _ :: evs' =>
      ((if method_eqb m (method req) then 1 else 0) + requests m evs')%nat
  | _ :: evs' => requests m evs'
  end.

(** A budget for what a scraper may do: at most [a] automation steps,
    [g] GET requests, [p] POST requests and [w] waits, every wait being
    the credential retry delay. *)
Definition within (a g p w : nat) (evs : list (Event Job FormattedJob)) : Prop :=
  (length (automation evs) <= a)%nat /\
  (requests GET evs <= g)%nat /\
  (requests POST evs <= p)%nat /\
  sleeps evs = repeat credentialRetryDelay (length (sleeps evs)) /\
  (length (sleeps evs) <= w)%nat.

End MoreTraces.

Section MoreResults.
Context {Job FormattedJob : Type}.

(** The two shapes of an entry of [results.platforms]: a success carries
    the two job counts, a failure carries the error text. *)
Definition outcome_shape (o : PlatformOutcome) : Prop :=
  if po_success o
  then po_error o = None /\
       exists n, po_jobs_found o = Some n /\ po_jobs_submitted o = Some n
  else po_jobs_found o = None /\ po_jobs_submitted o = None /\ po_error o <> None.

(** The summary of [results] accounts for [done] platforms. *)
Definition summary_counts (done : nat) (results : Results) : Prop :=
  (successful results + failed results = done)%nat /\
  forall name o, res_platforms results !! name = Some o -> outcome_shape o.

(** [m] neither reads nor writes the re-entrancy guard of the auto queue
    checker: started with the guard forced to [b] it does what it does
    otherwise, and ends with the guard still [b]. *)
Definition ignores_guard {A} (m : M Job FormattedJob A) : Prop :=
  forall s b,
    m (set_isProcessingQueue b s) = (fst (m s), set_isProcessingQueue b (snd (m s))).

End MoreResults.

(** Further backends for the scenarios. *)
Module Cases.

(** The browser automation fails after the login went through. *)
Definition failing_after_login : Scenario.Backend :=
  Scenario.mkBackend Scenario.no_session (Scenario.queue_item []) Scenario.accepted
    Scenario.completed (Scenario.credential 7) Scenario.released
    (fun _ => ScrapeFailed (mkError "Navigation timeout of 60000 ms exceeded") true).

Definition no_content : Response := mkResponse 204 "No Content" BodyInvalid.

(** next-role-location answers 204. *)
Definition empty_queue : Scenario.Backend :=
  Scenario.mkBackend Scenario.no_session no_content Scenario.accepted
    Scenario.completed (Scenario.credential 1) Scenario.released
    (fun _ => Scraped (seq 0 10)).

End Cases.

(** ** common/utils.js: file names and hashes *)

(** A character of the class [a-z0-9] under the [i] flag. *)
Definition is_alnum (c : Ascii.ascii) : bool :=
  let n := Ascii.nat_of_ascii c in
  ((Nat.leb 48 n && Nat.leb n 57) || (Nat.leb 65 n && Nat.leb n 90)
   || (Nat.leb 97 n && Nat.leb n 122))%bool.

(** [text.replace(/[^a-z0-9]/gi, '_')] *)
Fixpoint replace_non_alnum (text : string) : string :=
  match text with
  | EmptyString => EmptyString
  | String c rest =>
      String (if is_alnum c then c else "_"%char) (replace_non_alnum rest)
  end.

Definition sanitizeFilename (text : string) : string :=
  toLowerCase (replace_non_alnum text).

(** [ToInt32]: the operand of a shift, as a signed 32-bit integer. *)
Definition ToInt32 (x : Z) : Z :=
  let m := x mod 2^32 in
  if m <? 2^31 then m else m - 2^32.

(** [x << k] *)
Definition shl (x k : Z) : Z := ToInt32 (Z.shiftl (ToInt32 x) k).

(** [x >>> 0] *)
Definition ToUint32 (x : Z) : Z := x mod 2^32.

(** The loop of hashString from the current [hash] on.  [hash] is a
    JavaScript number: the shift wraps to 32 bits, the two additions do
    not. *)
Fixpoint hash_loop (hash : Z) (str : string) : Z :=
  match str with
  | EmptyString => hash
  | String c rest =>
      hash_loop ((shl hash 5 + hash) + Z.of_nat (Ascii.nat_of_ascii c)) rest
  end.

Definition digit36 (d : Z) : Ascii.ascii :=
  if d <? 10 then Ascii.ascii_of_nat (48 + Z.to_nat d)
  else Ascii.ascii_of_nat (87 + Z.to_nat d).

(** [n.toString(36)] for a 32-bit unsigned [n], which has at most seven
    digits in base 36. *)
Fixpoint toString36_from (fuel : nat) (n : Z) (acc : string) : string :=
  match fuel with
  | O => acc
  | S fuel' =>
      let acc' := String (digit36 (n mod 36)) acc in
      if n / 36 =? 0 then acc' else toString36_from fuel' (n / 36) acc'
  end.

Definition toString36 (n : Z) : string := toString36_from 7 n EmptyString.

Definition hashString (str : string) : string :=
  "h" +:+ toString36 (ToUint32 (hash_loop 5381 str)).

(** The djb2 hash the comment on hashString names: [hash * 33 + c] over
    the integers. *)
Fixpoint djb2_from (hash : Z) (str : string) : Z :=
  match str with
  | EmptyString => hash
  | String c rest => djb2_from (hash * 33 + Z.of_nat (Ascii.nat_of_ascii c)) rest
  end.

Definition djb2 (str : string) : Z := djb2_from 5381 str.

(** Every character of [s] satisfies [p]. *)
Fixpoint all_chars (p : Ascii.ascii -> bool) (s : string) : bool :=
  match s with
  | EmptyString => true
  | String c rest => p c && all_chars p rest
  end.

(** A character of [a-z0-9_]. *)
Definition is_filename_char (c : Ascii.ascii) : bool :=
  let n := Ascii.nat_of_ascii c in
  ((Nat.leb 48 n && Nat.leb n 57) || (Nat.leb 97 n && Nat.leb n 122)
   || Nat.eqb n 95)%bool.

(** A digit of base 36. *)
Definition is_digit36 (c : Ascii.ascii) : bool :=
  let n := Ascii.nat_of_ascii c in
  ((Nat.leb 48 n && Nat.leb n 57) || (Nat.leb 97 n && Nat.leb n 122))%bool.

(** Text of code units below 128, on which the byte strings of this file
    and the strings of the code are the same thing and [toLowerCase] and
    [trim] below do what the methods of the code do. *)
Definition is_ascii_text (s : string) : bool :=
  all_chars (fun c => Nat.ltb (Ascii.nat_of_ascii c) 128) s.

(** ** common/messages.js: the generic retry helper *)

Module RETRY_CONFIG.

Definition MAX_RETRIES : nat := 3.
Definition INITIAL_DELAY : Z := 2000.
Definition MAX_DELAY : Z := 30000.
Definition BACKOFF_MULTIPLIER : Z := 2.

(** [Math.min(INITIAL_DELAY * Math.pow(BACKOFF_MULTIPLIER, attempt - 1), MAX_DELAY)];
    for [attempt = 0] the power is one half. *)
Definition calculateDelay (attempt : nat) : Z :=
  Z.min (match attempt with
         | O => INITIAL_DELAY / BACKOFF_MULTIPLIER
         | S k => INITIAL_DELAY * BACKOFF_MULTIPLIER ^ Z.of_nat k
         end)
        MAX_DELAY.

End RETRY_CONFIG.

Section WithRetry.
Context {Job FormattedJob A : Type}.

(** [for (let attempt = 1; attempt <= maxRetries; attempt++)] of withRetry
    and the [throw] after it, with [fuel = maxRetries + 1 - attempt].  Of
    the ScraperError only the message is kept; with [lastError] still
    undefined the [throw] statement itself raises a TypeError. *)
Fixpoint withRetry_from (fuel attempt maxRetries : nat) (lastError : option Error)
    (operation : M Job FormattedJob A) (platform : string) : M Job FormattedJob A :=
  match fuel with
  | O =>
      match lastError with
      | Some error =>
          throw (mkError ("Operation failed after " +:+ pretty maxRetries
                            +:+ " attempts: " +:+ message error))
      | None =>
          throw (mkError "Cannot read properties of undefined (reading 'message')")
      end
  | S fuel' =>
      r ← settle operation;
      match r with
      | Returned a => mret a
      | Thrown error =>
          (if Nat.ltb attempt maxRetries
           then sleep (RETRY_CONFIG.calculateDelay attempt) else mret tt);;
          withRetry_from fuel' (S attempt) maxRetries (Some error) operation platform
      end
  end.

Definition withRetry (operation : M Job FormattedJob A) (platform : string)
    (maxRetries : nat) : M Job FormattedJob A :=
  withRetry_from maxRetries 1 maxRetries None operation platform.

(** [failed_runs operation maxRetries attempt s errors s']: from the state
    [s] on, the runs number [attempt], [attempt + 1], ... of [operation]
    threw [errors], in this order, and left the state [s']; each of these
    runs but run number [maxRetries] was followed by its wait. *)
Inductive failed_runs (operation : M Job FormattedJob A) (maxRetries : nat)
  : nat -> State Job FormattedJob -> list Error -> State Job FormattedJob -> Prop :=
| failed_runs_nil attempt s : failed_runs operation maxRetries attempt s [] s
| failed_runs_cons attempt s error s1 errors s' :
    operation s = (Thrown error, s1) ->
    failed_runs operation maxRetries (S attempt)
      (if Nat.ltb attempt maxRetries
       then mkState (trace s1 ++ [EvSleep (RETRY_CONFIG.calculateDelay attempt)])
                    (apiClient s1) (isProcessingQueue s1)
       else s1)
      errors s' ->
    failed_runs operation maxRetries attempt s (error :: errors) s'.

(** The error withRetry ends with once its runs are used up, [errors]
    being what the runs threw. *)
Definition retries_exhausted (maxRetries : nat) (errors : list Error) : Error :=
  match last errors with
  | Some lastError =>
      mkError ("Operation failed after " +:+ pretty maxRetries
                 +:+ " attempts: " +:+ message lastError)
  | None => mkError "Cannot read properties of undefined (reading 'message')"
  end.

(** One run of [operation] shows in the trace as one automation step and
    no wait. *)
Definition one_step (operation : M Job FormattedJob A) : Prop :=
  emits operation (fun evs => sleeps evs = [] /\ length (automation evs) = 1%nat).

End WithRetry.

(** The dice scraper against a site that rejects the login: an operation
    that throws at every run. *)
Definition rejected_login : M nat nat (list nat) :=
  scrape_plain (Scenario.backend_env Scenario.wrong_password)
               "dice" "DevOps Engineer" "New York".

(** ** server.js: POST /scrape *)

(** An element of a JSON array: a string, [null], or any other value.
    [printable] tells whether the value converts to a string: an object
    with a key [toString] of its own does not, nor does an array that
    holds one. *)
Inductive Item :=
| IString (s : string)
| INull
| IOther (printable : bool).

(** A field of the JSON request body; [PUndefined] when it is absent. *)
Inductive Param :=
| PUndefined
| PNull
| PBool (b : bool)
| PNumber (n : Z)
| PString (s : string)
| PArray (items : list Item)
| PObject (printable : bool).

(** [!p] *)
Definition falsy (p : Param) : bool :=
  match p with
  | PUndefined | PNull | PBool false => true
  | PNumber n => n =? 0
  | PString s => negb (truthy s)
  | _ => false
  end.

(** [p === undefined || p === null] *)
Definition nullish (p : Param) : bool :=
  match p with PUndefined | PNull => true | _ => false end.

(** [req.body] as the route destructures it. *)
Record ScrapeRequest := mkScrapeRequest {
  rq_platform : Param;
  rq_jobTitle : Param;
  rq_location : Param
}.

(** [sanitizeFilename(text)] on a field of the request: only a string has
    a [replace] method. *)
Definition sanitize_param (text : Param) : Outcome string :=
  match text with
  | PString s => Returned (sanitizeFilename s)
  | PUndefined =>
      Thrown (mkError "Cannot read properties of undefined (reading 'replace')")
  | PNull => Thrown (mkError "Cannot read properties of null (reading 'replace')")
  | _ => Thrown (mkError "text.replace is not a function")
  end.

(** [`${value}`], the conversion of a field inside a template literal. *)
Definition printable_item (p : Item) : bool :=
  match p with IOther printable => printable | _ => true end.

Definition template (value : Param) : Outcome unit :=
  match value with
  | PObject false => Thrown (mkError "Cannot convert object to primitive value")
  | PArray items =>
      if forallb printable_item items then Returned tt
      else Thrown (mkError "Cannot convert object to primitive value")
  | _ => Returned tt
  end.

Definition ascii_item (p : Item) : bool :=
  match p with IString s => is_ascii_text s | _ => true end.

(** The strings of a field are ASCII text. *)
Definition ascii_param (p : Param) : bool :=
  match p with
  | PString s => is_ascii_text s
  | PArray items => forallb ascii_item items
  | _ => true
  end.

Definition ascii_request (rq : ScrapeRequest) : bool :=
  ascii_param (rq_platform rq) && ascii_param (rq_jobTitle rq)
    && ascii_param (rq_location rq).

(** [Object.keys(SCRAPERS)] *)
Definition PLATFORMS : list string :=
  ["monster"; "dice"; "techfetch"; "linkedin"; "glassdoor"].

(** White space of ASCII text. *)
Definition is_space (c : ascii) : bool :=
  let n := nat_of_ascii c in
  ((Nat.leb 9 n && Nat.leb n 13) || Nat.eqb n 32)%bool.

Fixpoint trimStart (s : string) : string :=
  match s with
  | EmptyString => EmptyString
  | String c rest => if is_space c then trimStart rest else s
  end.

Fixpoint trimEnd (s : string) : string :=
  match s with
  | EmptyString => EmptyString
  | String c rest =>
      match trimEnd rest with
      | EmptyString => if is_space c then EmptyString else String c EmptyString
      | t => String c t
      end
  end.

(** [s.trim()] *)
Definition trim (s : string) : string := trimEnd (trimStart s).

(** [s.split(',')] *)
Fixpoint split_comma (s : string) : list string :=
  match s with
  | EmptyString => [EmptyString]
  | String c rest =>
      if Ascii.eqb c ","%char then EmptyString :: split_comma rest
      else match split_comma rest with
           | piece :: pieces => String c piece :: pieces
           | [] => [String c EmptyString]
           end
  end.

(** [p.toLowerCase()] on an element of the array. *)
Definition lower_item (p : Item) : Outcome string :=
  match p with
  | IString s => Returned (toLowerCase s)
  | INull => Thrown (mkError "Cannot read properties of null (reading 'toLowerCase')")
  | IOther _ => Thrown (mkError "p.toLowerCase is not a function")
  end.

(** [platform.map(p => p.toLowerCase())] *)
Fixpoint lower_items (items : list Item) : Outcome (list string) :=
  match items with
  | [] => Returned []
  | p :: rest =>
      match lower_item p with
      | Thrown e => Thrown e
      | Returned name =>
          match lower_items rest with
          | Thrown e => Thrown e
          | Returned names => Returned (name :: names)
          end
      end
  end.

(** The [// Parse platforms] block. *)
Definition parse_platforms (platform : Param) : Outcome (list string) :=
  match platform with
  | PString s =>
      Returned (if String.eqb (toLowerCase s) "all" then ["all"]
                else map (fun p => toLowerCase (trim p)) (split_comma s))
  | PArray items => lower_items items
  | _ => Returned []
  end.

(** [p !== 'all' && !PLATFORMS.includes(p)] *)
Definition invalid_platform (p : string) : bool :=
  negb (String.eqb p "all") && negb (bool_decide (p ∈ PLATFORMS)).

Section Scrape.
Context {Job FormattedJob : Type}.
Variable env : Env Job FormattedJob.

(** [fs.writeFileSync] on the [n]-th write of a request: the file system
    is outside the program. *)
Variable writeFileSync : nat -> string -> Outcome unit.

(** The value of [generateTimestamp()] when scrapeJobs starts. *)
Variable baseTimestamp : string.

(** The scrapers are modelled on strings.  What the scraper of a platform
    does when [jobTitle] or [location] is another value is left open. *)
Variable scrape_untyped :
  string -> Param -> Param -> option string -> M Job FormattedJob (list Job).

(** An entry of [results.platforms]: the success object, or the object
    handleError builds. *)
Inductive PlatformResult :=
| PlatformSuccess (count : nat) (jobs : list Job)
| PlatformFailure (error : string).

Definition success (p : PlatformResult) : bool :=
  match p with PlatformSuccess _ _ => true | PlatformFailure _ => false end.

Definition count (p : PlatformResult) : nat :=
  match p with PlatformSuccess n _ => n | PlatformFailure _ => 0%nat end.

Record Summary := mkSummary {
  totalPlatforms : nat;
  completedPlatforms : nat;
  successfulPlatforms : nat;
  failedPlatforms : nat;
  totalJobs : nat;
  savedFiles : list string
}.

Record ScrapeResults := mkScrapeResults {
  sr_jobTitle : Param;
  sr_location : Param;
  sr_platforms : gmap string PlatformResult;
  sr_summary : Summary
}.

(** The locals of scrapeJobs that its loop updates, and the number of
    writes tried so far. *)
Record Scraping := mkScraping {
  sc_platforms : gmap string PlatformResult;
  sc_savedFiles : list string;
  sc_writes : nat
}.

(** [handleError(platform, error)] *)
Definition handleError (platform : string) (error : Error) : PlatformResult :=
  PlatformFailure (message error).

(** The file name savePlatformResults builds. *)
Definition platform_filename (platformName jobTitle location timestamp : string) : string :=
  platformName +:+ "_" +:+ sanitizeFilename jobTitle +:+ "_"
    +:+ sanitizeFilename location +:+ "_" +:+ timestamp +:+ ".json".

(** [savedFiles.push(savePlatformResults(platform, results.platforms[platform], ...))]:
    the two names are sanitized before the file is written. *)
Definition save_platform (platform : string) (jobTitle location : Param) (st : Scraping)
  : Outcome unit * Scraping :=
  match sanitize_param jobTitle with
  | Thrown e => (Thrown e, st)
  | Returned sanitizedJobTitle =>
      match sanitize_param location with
      | Thrown e => (Thrown e, st)
      | Returned sanitizedLocation =>
          let filename := platform +:+ "_" +:+ sanitizedJobTitle +:+ "_"
                            +:+ sanitizedLocation +:+ "_" +:+ baseTimestamp +:+ ".json" in
          match writeFileSync (sc_writes st) filename with
          | Returned _ =>
              (Returned tt,
               mkScraping (sc_platforms st) (sc_savedFiles st ++ [filename])
                          (S (sc_writes st)))
          | Thrown e =>
              (Thrown e,
               mkScraping (sc_platforms st) (sc_savedFiles st) (S (sc_writes st)))
          end
      end
  end.

(** What makes savePlatformResults throw. *)
Definition save_failed (e : Error) (jobTitle location : Param) : Prop :=
  (exists n filename, writeFileSync n filename = Thrown e) \/
  sanitize_param jobTitle = Thrown e \/ sanitize_param location = Thrown e.

(** [scraper(jobTitle, location, sessionId)] *)
Definition call_scraper
    (scraper : string -> string -> option string -> M Job FormattedJob (list Job))
    (platform : string) (jobTitle location : Param) (sessionId : option string)
  : M Job FormattedJob (list Job) :=
  match jobTitle, location with
  | PString jobTitle, PString location => scraper jobTitle location sessionId
  | _, _ => scrape_untyped platform jobTitle location sessionId
  end.

Definition set_platform (st : Scraping) (platform : string) (p : PlatformResult)
  : Scraping :=
  mkScraping (<[platform := p]> (sc_platforms st)) (sc_savedFiles st) (sc_writes st).

(** [SCRAPERS[platform]] for the names POST /scrape lets through, which
    are own keys of the table; a name that only [Object.prototype]
    answers never reaches scrapeJobs and is not modelled. *)
Definition own_scraper (platform : string)
  : option (string -> string -> option string -> M Job FormattedJob (list Job)) :=
  if bool_decide (platform ∈ PLATFORMS) then SCRAPERS env platform else None.

(** The [try]/[catch] of one iteration of scrapeJobs. *)
Definition scrape_platform
    (scraper : string -> string -> option string -> M Job FormattedJob (list Job))
    (platform : string) (jobTitle location : Param) (sessionId : option string)
    (saveIncrementally : bool) (st : Scraping) : M Job FormattedJob Scraping :=
  r ← settle (call_scraper scraper platform jobTitle location sessionId);
  let attempt :=
    match r with
    | Returned jobs =>
        let st1 := set_platform st platform (PlatformSuccess (length jobs) jobs) in
        if saveIncrementally then save_platform platform jobTitle location st1
        else (Returned tt, st1)
    | Thrown error => (Thrown error, st)
    end in
  match attempt with
  | (Returned _, st1) => mret st1
  | (Thrown error, st1) =>
      let st2 := set_platform st1 platform (handleError platform error) in
      if saveIncrementally then
        match save_platform platform jobTitle location st2 with
        | (Returned _, st3) => mret st3
        | (Thrown e, _) => throw e
        end
      else mret st2
  end.

(** [for (const platform of platformsToScrape)] *)
Fixpoint scrape_loop (platformsToScrape : list string) (jobTitle location : Param)
    (sessionId : option string) (saveIncrementally : bool) (st : Scraping)
  : M Job FormattedJob Scraping :=
  match platformsToScrape with
  | [] => mret st
  | platform :: rest =>
      match own_scraper platform with
      | None => scrape_loop rest jobTitle location sessionId saveIncrementally st
      | Some scraper =>
          st' ← scrape_platform scraper platform jobTitle location sessionId
                                saveIncrementally st;
          scrape_loop rest jobTitle location sessionId saveIncrementally st'
      end
  end.

(** [Object.values(results.platforms)]; the counts and the sum below do
    not depend on the order. *)
Definition platform_values (platforms : gmap string PlatformResult) : list PlatformResult :=
  (map_to_list platforms).*2.

Definition summarize (platformsToScrape : list string) (st : Scraping) : Summary :=
  let vs := platform_values (sc_platforms st) in
  mkSummary (length platformsToScrape)
            (length vs)
            (length (filter (fun p => success p = true) vs))
            (length (filter (fun p => success p = false) vs))
            (foldr (fun p sum => (count p + sum)%nat) 0%nat
                   (filter (fun p => success p = true) vs))
            (sc_savedFiles st).

(** [platforms.includes('all') ? PLATFORMS : platforms] *)
Definition platformsToScrape (platforms : list string) : list string :=
  if bool_decide ("all" ∈ platforms) then PLATFORMS else platforms.

Definition scrapeJobs (platforms : list string) (jobTitle location : Param)
    (sessionId : option string) (saveIncrementally : bool)
  : M Job FormattedJob ScrapeResults :=
  lift_outcome (template jobTitle);;
  lift_outcome (template location);;
  st ← scrape_loop (platformsToScrape platforms) jobTitle location sessionId
                   saveIncrementally (mkScraping ∅ [] 0);
  mret (mkScrapeResults jobTitle location (sc_platforms st)
                        (summarize (platformsToScrape platforms) st)).

(** The three kinds of reply of POST /scrape: 400 with [error], 200 with
    the results, 500 with [error]. *)
Inductive ScrapeReply :=
| BadRequest (error : string)
| ScrapeDone (results : ScrapeResults)
| ServerError (error : string).

Definition post_scrape (rq : ScrapeRequest) : M Job FormattedJob ScrapeReply :=
  if falsy (rq_platform rq) then
    mret (BadRequest "Missing required parameter: platform")
  else if falsy (rq_jobTitle rq) || nullish (rq_location rq) then
    mret (BadRequest "Missing required parameters: jobTitle and/or location")
  else
    r ← settle (
      platforms ← lift_outcome (parse_platforms (rq_platform rq));
      let invalidPlatforms := List.filter invalid_platform platforms in
      match invalidPlatforms with
      | _ :: _ =>
          mret (BadRequest ("Invalid platform(s): "
                              +:+ String.concat ", " invalidPlatforms))
      | [] =>
          lift_outcome (template (rq_platform rq));;
          lift_outcome (template (rq_jobTitle rq));;
          lift_outcome (template (rq_location rq));;
          results ← scrapeJobs platforms (rq_jobTitle rq) (rq_location rq) None true;
          mret (ScrapeDone results)
      end);
    match r with
    | Returned reply => mret reply
    | Thrown error => mret (ServerError (message error))
    end.

End Scrape.

Arguments PlatformResult : clear implicits.
Arguments ScrapeResults : clear implicits.
Arguments ScrapeReply : clear implicits.
Arguments Scraping : clear implicits.

(** A request for dice whose location is a number. *)
Definition numeric_location : ScrapeRequest :=
  mkScrapeRequest (PString "Dice") (PString "DevOps Engineer") (PNumber 10001).

(** ** scrapers/monster.js: the search request and the paging loop *)

Module Monster.

(** [country] and [address] of the search request. *)
Definition search_location (location : string) : string * string :=
  if includes location "," then
    let parts := map trim (split_comma location) in
    let address := default EmptyString (parts !! 0%nat) in
    match parts !! 1%nat with
    | Some part =>
        if truthy part && Nat.eqb (String.length part) 2
        then (toLowerCase part, address)
        else ("us", address)
    | None => ("us", address)
    end
  else ("us", location).

Definition maxJobs : nat := 100.

Definition is_comma (c : ascii) : bool := Ascii.eqb c ","%char.

Section Paging.
Context {Job : Type}.

(** [job.job?.url || ''] of a normalized job. *)
Variable job_url : Job -> string.

(** What the [n]-th search request of a call yields: the normalized
    [json.jobResults || []], or the error thrown on a failed fetch, a
    response that is not ok, a body that is not JSON, or a job that
    cannot be normalized. *)
Variable page : nat -> Outcome (list Job).

(** The locals the loop updates. *)
Record Collected := mkCollected {
  allJobs : list Job;
  seenUrls : gset string;
  newJobsCount : nat
}.

(** [for (const job of extractedJobs)], the duplicate filter; it breaks
    once [allJobs] holds [maxJobs] jobs. *)
Fixpoint add_unique (extractedJobs : list Job) (c : Collected) : Collected :=
  match extractedJobs with
  | [] => c
  | job :: rest =>
      let jobUrl := job_url job in
      if negb (bool_decide (jobUrl ∈ seenUrls c)) && negb (String.eqb jobUrl "N/A")
         && negb (String.eqb jobUrl "")
      then
        let c' := mkCollected (allJobs c ++ [job]) ({[jobUrl]} ∪ seenUrls c)
                              (S (newJobsCount c)) in
        if Nat.leb maxJobs (length (allJobs c')) then c' else add_unique rest c'
      else add_unique rest c
  end.

(** [while (allJobs.length < maxJobs)], at request number [request];
    [fuel] bounds the rounds, and [None] means it ran out.  The result
    carries the number of requests made. *)
Fixpoint paging (fuel request : nat) (all : list Job) (seen : gset string)
    (consecutiveEmptyPages : nat) : option (Outcome (list Job) * nat) :=
  if negb (Nat.ltb (length all) maxJobs) then Some (Returned (take maxJobs all), request)
  else
    match fuel with
    | O => None
    | S fuel' =>
        match page request with
        | Thrown error => Some (Thrown error, S request)
        | Returned jobs =>
            match jobs with
            | [] => Some (Returned (take maxJobs all), S request)
            | _ =>
                let c := add_unique jobs (mkCollected all seen 0) in
                if Nat.eqb (newJobsCount c) 0 then
                  if Nat.leb 3 (S consecutiveEmptyPages)
                  then Some (Returned (take maxJobs (allJobs c)), S request)
                  else if Nat.leb maxJobs (length (allJobs c))
                       then Some (Returned (take maxJobs (allJobs c)), S request)
                       else paging fuel' (S request) (allJobs c) (seenUrls c)
                                   (S consecutiveEmptyPages)
                else if Nat.leb maxJobs (length (allJobs c))
                     then Some (Returned (take maxJobs (allJobs c)), S request)
                     else paging fuel' (S request) (allJobs c) (seenUrls c) 0
            end
        end
    end.

(** The loop from its initial locals, with room for 300 requests. *)
Definition collect : option (Outcome (list Job) * nat) :=
  paging 300 0 [] ∅ 0.

(** What the loop keeps true of its locals, [requests] requests having
    been made. *)
Definition collected (requests : nat) (all : list Job) (seen : gset string) : Prop :=
  NoDup (map job_url all) /\
  Forall (fun job => job_url job ∈ seen /\ job_url job <> "N/A" /\ job_url job <> ""
                     /\ exists n jobs, (n < requests)%nat /\ page n = Returned jobs
                                       /\ job ∈ jobs) all.

(** What a returned list satisfies: at most [maxJobs] jobs, no URL twice,
    none of them "N/A" or empty, every job from a fetched page. *)
Definition unique_jobs (requests : nat) (jobs : list Job) : Prop :=
  (length jobs <= maxJobs)%nat /\
  NoDup (map job_url jobs) /\
  Forall (fun job => job_url job <> "N/A" /\ job_url job <> ""
                     /\ exists n found, (n < requests)%nat /\ page n = Returned found
                                        /\ job ∈ found) jobs.

End Paging.

End Monster.

(** ** common/utils.js: the job id formatJobForBlacklight sends *)

(** A property of a scraped job as the id block reads it. *)
Inductive Field :=
| FAbsent                 (* undefined, null or another falsy value that is no string *)
| FText (s : string)      (* a string, the empty one included *)
| FOther.                 (* a truthy value that is not a string *)

(** [x && x !== 'N/A' && typeof x === 'string'] *)
Definition usable (x : Field) : option string :=
  match x with
  | FText s => if truthy s && negb (String.eqb s "N/A") then Some s else None
  | _ => None
  end.

(** JavaScript truthiness of a property. *)
Definition present (x : Field) : bool :=
  match x with
  | FAbsent => false
  | FText s => truthy s
  | FOther => true
  end.

(** The properties the id block reads from one object. *)
Record IdFields := mkIdFields {
  f_jobId : Field;
  f_postId : Field;
  f_id : Field;
  f_url : Field;
  f_applyUrl : Field
}.

(** [job]: its own properties, and those of [job.job] when that is an
    object. *)
Record RawJob := mkRawJob {
  job_nested : option IdFields;
  job_flat : IdFields
}.

(** [a || b] *)
Definition or_else (a b : Field) : Field := if present a then a else b.

(** The [if]/[else if] chain over the six id properties. *)
Definition first_id (job : RawJob) : option string :=
  let jobData := default (job_flat job) (job_nested job) in
  match usable (f_jobId jobData) with
  | Some id => Some id
  | None =>
  match usable (f_postId jobData) with
  | Some id => Some id
  | None =>
  match usable (f_id jobData) with
  | Some id => Some id
  | None =>
  match usable (f_jobId (job_flat job)) with
  | Some id => Some id
  | None =>
  match usable (f_postId (job_flat job)) with
  | Some id => Some id
  | None => usable (f_id (job_flat job))
  end end end end end.

(** [jobData.url || jobData.applyUrl || job.url || job.applyUrl || ''] *)
Definition id_url (job : RawJob) : Field :=
  let jobData := default (job_flat job) (job_nested job) in
  or_else (or_else (or_else (or_else (f_url jobData) (f_applyUrl jobData))
                            (f_url (job_flat job)))
                   (f_applyUrl (job_flat job)))
          (FText EmptyString).

(** [platform_job_id] of formatJobForBlacklight.  [now] and [random] are
    the texts of [Date.now()] and
    [Math.random().toString(36).substr(2, 9)]. *)
Definition platform_job_id (job : RawJob) (platform now random : string) : string :=
  match first_id job with
  | Some id => id
  | None =>
      match usable (id_url job) with
      | Some url => hashString url
      | None => platform +:+ "-" +:+ now +:+ "-" +:+ random
      end
  end.

(** ** The shape of a queue run *)

Section RunShape.
Context {Job FormattedJob : Type}.

(** [m] appends to the trace, and what it appends together with its
    outcome satisfies [P]. *)
Definition yields {A} (m : M Job FormattedJob A)
    (P : Outcome A -> list (Event Job FormattedJob) -> Prop) : Prop :=
  forall s, exists evs, trace (snd (m s)) = (trace s ++ evs)%list /\ P (fst (m s)) evs.

(** An exchange in which getCredential obtained a credential: a GET
    answered with a status other than 204 that is ok and whose JSON body
    is not null. *)
Definition acquired (x : Request FormattedJob * FetchResult) : bool :=
  match method (fst x), snd x with
  | GET, Responded r =>
      negb (status r =? 204) && ok r
      && match body r with
         | BodyInvalid | BodyNull => false
         | _ => true
         end
  | _, _ => false
  end.

Definition acquisitions (evs : list (Event Job FormattedJob)) : nat :=
  length (List.filter acquired (fetches evs)).

(** A step that takes [n] automation steps and obtains no credential. *)
Definition plain_step (n : nat) {A} (out : Outcome A)
    (evs : list (Event Job FormattedJob)) : Prop :=
  length (automation evs) = n /\ acquisitions evs = 0%nat.

(** Whether getCredential, or the polling loop, came back with a
    credential. *)
Definition got (out : Outcome Body) : nat :=
  match out with
  | Returned BodyNull => 0
  | Returned _ => 1
  | Thrown _ => 0
  end.

(** How many scrape steps the events [evs] of one platform hold: one for
    monster and dice; one per credential obtained, three at most, for
    techfetch and linkedin; the browser start and the scrape after the one
    credential of glassdoor; none for any other name. *)
Definition scrape_steps (platformName : string) (evs : list (Event Job FormattedJob))
    (a : nat) : Prop :=
  if String.eqb platformName "monster" || String.eqb platformName "dice" then
    a = 1%nat
  else if String.eqb platformName "techfetch" || String.eqb platformName "linkedin" then
    a = acquisitions evs /\ (a <= 3)%nat
  else if String.eqb platformName "glassdoor" then
    (acquisitions evs <= a <= 2 * acquisitions evs)%nat /\ (acquisitions evs <= 1)%nat
  else a = 0%nat.

(** The events of one platform: its scrape steps, as many as
    [scrape_steps] says, then at least one submit exchange. *)
Definition platform_run (platformName : string) (evs : list (Event Job FormattedJob))
  : Prop :=
  exists a b,
    platform_ops evs = (repeat (OpScrape, platformName) a
                        ++ repeat (OpSubmit, platformName) (S b))%list /\
    scrape_steps platformName evs a.

(** One run of events per platform, in the order of the platforms. *)
Definition runs_in_list_order (platforms : list PlatformInfo)
    (runs : list (list (Event Job FormattedJob))) : Prop :=
  Forall2 (fun p evs => platform_run (toLowerCase (pi_name p)) evs) platforms runs.

End RunShape.

(** * Properties *)

(** ** The model on the scenario of the specification *)

Example scenario_result :
  match fst (runBlacklightQueue Scenario.format Scenario.second_try_env
                                (Some Scenario.config) Scenario.started) with
  | Returned (ResultSession results) =>
      (successful results, failed results, completion_error results,
       po_jobs_found <$> (res_platforms results !! "dice"),
       po_jobs_found <$> (res_platforms results !! "linkedin"))
      = (2%nat, 0%nat, None, Some (Some 10%nat), Some (Some 5%nat))
  | _ => False
  end.
Proof. vm_compute. reflexivity. Qed.

Example scenario_requests :
  map (fun x => req_body (fst x))
      (fetches (trace (snd (runBlacklightQueue Scenario.format Scenario.second_try_env
                              (Some Scenario.config) Scenario.started))))
  = [NoBody;                                                 (* current-session *)
     NoBody;                                                 (* next-role-location *)
     JobsBody "s-1" "dice" (seq 0 10) None;
     NoBody;                                                 (* linkedin credential *)
     FailureBody "Login failed: Login failed: invalid password" 0;
     NoBody;                                                 (* linkedin credential *)
     SuccessBody (Some "Scraped 5 posts successfully");
     JobsBody "s-1" "linkedin" (seq 0 5) None;
     CompleteBody "s-1"].
Proof. vm_compute. reflexivity. Qed.

(** ** Traces and the monad *)

Section TraceLemmas.
Context {Job FormattedJob : Type}.
Implicit Types evs : list (Event Job FormattedJob).

Lemma fetches_app evs1 evs2 :
  fetches (evs1 ++ evs2) = (fetches evs1 ++ fetches evs2)%list.
Proof.
  induction evs1 as [|e evs1 IH]; [reflexivity|].
  destruct e; cbn; rewrite IH; reflexivity.
Qed.

Lemma sleeps_app evs1 evs2 :
  sleeps (evs1 ++ evs2) = (sleeps evs1 ++ sleeps evs2)%list.
Proof.
  induction evs1 as [|e evs1 IH]; [reflexivity|].
  destruct e; cbn; rewrite IH; reflexivity.
Qed.

Lemma automation_app evs1 evs2 :
  automation (evs1 ++ evs2) = (automation evs1 ++ automation evs2)%list.
Proof.
  induction evs1 as [|e evs1 IH]; [reflexivity|].
  destruct e; cbn; rewrite IH; reflexivity.
Qed.

Lemma platform_ops_app evs1 evs2 :
  platform_ops (evs1 ++ evs2) = (platform_ops evs1 ++ platform_ops evs2)%list.
Proof. apply omap_app. Qed.

End TraceLemmas.

(** ** The resilient API client *)

Section ApiClient.
Context {Job FormattedJob : Type}.
Variable env : Env Job FormattedJob.
Implicit Types s : State Job FormattedJob.
Implicit Types req : Request FormattedJob.

(** One round of the retry loop, as the code branches on it. *)
Lemma makeApiRequest_from_step fuel attempt retries req s :
  makeApiRequest_from env (S fuel) attempt retries req s =
  let res := env_fetch env (trace s) req in
  let s1 := mkState (trace s ++ [EvFetch req res]) (apiClient s) (isProcessingQueue s) in
  let s2 := mkState (trace s1 ++ [EvSleep (retry_delay attempt)])
                    (apiClient s) (isProcessingQueue s) in
  match res with
  | Responded response =>
      if retryable res
      then makeApiRequest_from env fuel (S attempt) retries req s2
      else (Returned response, s1)
  | NetworkError error =>
      if Nat.eqb attempt (retries - 1) then (Thrown error, s1)
      else makeApiRequest_from env fuel (S attempt) retries req s2
  end.
Proof.
  cbn [makeApiRequest_from].
  unfold mbind, M_bind, bind, settle, fetch, sleep, emit, retryable; cbn.
  destruct (env_fetch env (trace s) req) as [response|error]; cbn.
  - destruct (status response =? 429); cbn; [reflexivity|].
    destruct (500 <=? status response); reflexivity.
  - destruct (Nat.eqb attempt (retries - 1)); reflexivity.
Qed.

(** What a call leaves in the trace, for any backend: only fetches of the
    same request and waits; the waits follow the delay table from the
    current attempt on; the loop stops at the first result that is not
    retryable, or when the attempts are used up. *)
Lemma makeApiRequest_from_spec req :
  forall fuel attempt retries s out s',
    (attempt + fuel = retries)%nat ->
    makeApiRequest_from env fuel attempt retries req s = (out, s') ->
    apiClient s' = apiClient s /\
    isProcessingQueue s' = isProcessingQueue s /\
    exists evs results m,
      trace s' = (trace s ++ evs)%list /\
      automation evs = [] /\
      fetches evs = map (pair req) results /\
      sleeps evs = map retry_delay (seq attempt m) /\
      (length results <= fuel)%nat /\
      match out with
      | Returned r =>
          exists pre, results = (pre ++ [Responded r])%list /\
                      forallb retryable pre = true /\
                      retryable (Responded r) = false /\
                      m = length pre
      | Thrown e =>
          forallb retryable results = true /\
          length results = fuel /\
          ((e = mkError "Max retries exceeded" /\ m = fuel) \/
           (exists pre, results = (pre ++ [NetworkError e])%list /\ m = length pre))
      end.
Proof.
  induction fuel as [|fuel IH]; intros attempt retries s out s' Hfuel Hrun.
  - cbn in Hrun. unfold throw in Hrun. injection Hrun as <- <-.
    split; [reflexivity|]. split; [reflexivity|].
    exists [], [], 0%nat. rewrite app_nil_r. cbn.
    repeat split; auto.
  - rewrite makeApiRequest_from_step in Hrun. cbn zeta in Hrun.
    set (res := env_fetch env (trace s) req) in *.
    assert (Hrec : forall out s',
      makeApiRequest_from env fuel (S attempt) retries req
        (mkState ((trace s ++ [EvFetch req res]) ++ [EvSleep (retry_delay attempt)])
                 (apiClient s) (isProcessingQueue s)) = (out, s') ->
      retryable res = true ->
      apiClient s' = apiClient s /\
      isProcessingQueue s' = isProcessingQueue s /\
      exists evs results m,
        trace s' = (trace s ++ evs)%list /\
        automation evs = [] /\
        fetches evs = map (pair req) results /\
        sleeps evs = map retry_delay (seq attempt m) /\
        (length results <= S fuel)%nat /\
        match out with
        | Returned r =>
            exists pre, results = (pre ++ [Responded r])%list /\
                        forallb retryable pre = true /\
                        retryable (Responded r) = false /\
                        m = length pre
        | Thrown e =>
            forallb retryable results = true /\
            length results = S fuel /\
            ((e = mkError "Max retries exceeded" /\ m = S fuel) \/
             (exists pre, results = (pre ++ [NetworkError e])%list /\ m = length pre))
        end).
    { intros out0 s0 Hrec Hretry.
      apply IH in Hrec; [|lia].
      destruct Hrec as (Hc & Hg & evs & results & m & Htr & Hauto & Hf & Hs & Hlen & Hout).
      cbn in Hc, Hg, Htr.
      split; [exact Hc|]. split; [exact Hg|].
      exists (EvFetch req res :: EvSleep (retry_delay attempt) :: evs),
             (res :: results), (S m).
      split; [rewrite Htr, <- !app_assoc; reflexivity|].
      split; [exact Hauto|].
      split; [cbn; rewrite Hf; reflexivity|].
      split; [cbn; rewrite Hs; reflexivity|].
      split; [cbn; lia|].
      destruct out0 as [r|e].
      - destruct Hout as (pre & -> & Hpre & Hr & ->).
        exists (res :: pre). cbn. rewrite Hretry, Hpre. auto.
      - destruct Hout as (Hall & Hl & Hcase).
        split; [cbn; rewrite Hretry, Hall; reflexivity|].
        split; [cbn; lia|].
        destruct Hcase as [[-> ->]|(pre & -> & ->)]; [left; auto|].
        right. exists (res :: pre). auto. }
    destruct res as [response|error] eqn:Hres.
    + destruct (retryable (Responded response)) eqn:Hretry.
      * apply Hrec; [exact Hrun|reflexivity].
      * injection Hrun as <- <-. cbn.
        split; [reflexivity|]. split; [reflexivity|].
        exists [EvFetch req (Responded response)], [Responded response], 0%nat.
        cbn. repeat split; auto; try lia.
        exists []. cbn. auto.
    + destruct (Nat.eqb attempt (retries - 1)) eqn:Hlast.
      * injection Hrun as <- <-. cbn.
        apply Nat.eqb_eq in Hlast.
        split; [reflexivity|]. split; [reflexivity|].
        exists [EvFetch req (NetworkError error)], [NetworkError error], 0%nat.
        cbn. repeat split; auto; try lia.
        right. exists []. auto.
      * apply Hrec; [exact Hrun|reflexivity].
Qed.

End ApiClient.

Lemma retry_delay_schedule m :
  (m <= 5)%nat -> map retry_delay (seq 0 m) = take m RETRY_DELAYS.
Proof.
  intros Hm.
  do 6 (destruct m as [|m]; [reflexivity|]).
  lia.
Qed.

(** C6. Every call made through makeApiRequest retries on 429, on a status
    of 500 or more and on a network exception, waits the delays
    1000, 2000, 5000, 10000, 30000 ms in attempt order, and makes at most
    five attempts; any other response is returned at once.  Four 500s then
    a 200 succeed after exactly the first four delays; five 500s end in a
    terminal error. *)
Theorem makeApiRequest_retry_schedule (Job FormattedJob : Type) :
  (forall (env : Env Job FormattedJob) req s,
      let '(out, s') := makeApiRequest env req s in
      exists evs results m,
        trace s' = (trace s ++ evs)%list /\
        automation evs = [] /\
        fetches evs = map (pair req) results /\
        (1 <= length results <= 5)%nat /\
        sleeps evs = take m RETRY_DELAYS /\
        match out with
        | Returned r =>
            exists pre, results = (pre ++ [Responded r])%list /\
                        forallb retryable pre = true /\
                        retryable (Responded r) = false /\
                        m = length pre
        | Thrown e =>
            forallb retryable results = true /\
            length results = 5%nat /\
            ((e = mkError "Max retries exceeded" /\ m = 5%nat) \/
             (exists pre, results = (pre ++ [NetworkError e])%list /\ m = 4%nat))
        end) /\
  (forall (req : Request FormattedJob) t1 b1 t2 b2 t3 b3 t4 b4 t5 b5,
      let r1 := Responded (mkResponse 500 t1 b1) in
      let r2 := Responded (mkResponse 500 t2 b2) in
      let r3 := Responded (mkResponse 500 t3 b3) in
      let r4 := Responded (mkResponse 500 t4 b4) in
      makeApiRequest (scripted (Job := Job) [r1; r2; r3; r4; Responded (mkResponse 200 t5 b5)])
                     req initial_state =
      (Returned (mkResponse 200 t5 b5),
       mkState [EvFetch req r1; EvSleep 1000; EvFetch req r2; EvSleep 2000;
                EvFetch req r3; EvSleep 5000; EvFetch req r4; EvSleep 10000;
                EvFetch req (Responded (mkResponse 200 t5 b5))] None false)) /\
  (forall (req : Request FormattedJob) t1 b1 t2 b2 t3 b3 t4 b4 t5 b5,
      let r1 := Responded (mkResponse 500 t1 b1) in
      let r2 := Responded (mkResponse 500 t2 b2) in
      let r3 := Responded (mkResponse 500 t3 b3) in
      let r4 := Responded (mkResponse 500 t4 b4) in
      let r5 := Responded (mkResponse 500 t5 b5) in
      makeApiRequest (scripted (Job := Job) [r1; r2; r3; r4; r5]) req initial_state =
      (Thrown (mkError "Max retries exceeded"),
       mkState [EvFetch req r1; EvSleep 1000; EvFetch req r2; EvSleep 2000;
                EvFetch req r3; EvSleep 5000; EvFetch req r4; EvSleep 10000;
                EvFetch req r5; EvSleep 30000] None false)).
Proof.
  split; [|split].
  - intros env req s.
    destruct (makeApiRequest env req s) as [out s'] eqn:Hrun.
    unfold makeApiRequest, makeApiRequest_retries in Hrun.
    apply makeApiRequest_from_spec in Hrun; [|reflexivity].
    destruct Hrun as (_ & _ & evs & results & m & Htr & Hauto & Hf & Hs & Hlen & Hout).
    exists evs, results, m.
    split; [exact Htr|]. split; [exact Hauto|]. split; [exact Hf|].
    destruct out as [r|e].
    + destruct Hout as (pre & -> & Hpre & Hr & ->).
      rewrite length_app in Hlen |- *. cbn in Hlen |- *.
      split; [lia|].
      split; [rewrite Hs; apply retry_delay_schedule; lia|].
      exists pre. auto.
    + destruct Hout as (Hall & Hl & Hcase).
      split; [lia|].
      destruct Hcase as [[-> ->]|(pre & -> & ->)].
      * split; [rewrite Hs; reflexivity|]. auto.
      * rewrite length_app in Hl. cbn in Hl.
        split; [rewrite Hs; apply retry_delay_schedule; lia|].
        split; [exact Hall|]. split; [rewrite length_app; cbn; lia|].
        right. exists pre. split; [reflexivity|lia].
  - intros. reflexivity.
  - intros. reflexivity.
Qed.

(** ** The queue calls of utils.js *)

Section QueueCalls.
Context {Job FormattedJob : Type}.
Variable env : Env Job FormattedJob.
Implicit Types s : State Job FormattedJob.

(** After its request, a queue call only inspects the response. *)
Lemma json_state (r : Response) s : snd (json (Job := Job) (FormattedJob := FormattedJob) r s) = s.
Proof. unfold json. destruct (body r); reflexivity. Qed.

Ltac after_request :=
  unfold mbind, M_bind, bind;
  match goal with
  | |- context [makeApiRequest ?e ?r ?s] =>
      destruct (makeApiRequest e r s) as [[response|error] s1]; cbn; [|reflexivity]
  end;
  repeat match goal with
         | |- context [if ?c then _ else _] => destruct c
         end;
  try reflexivity; apply json_state.

Lemma checkActiveSession_state apiUrl apiKey s :
  snd (checkActiveSession env apiUrl apiKey s) =
  snd (makeApiRequest env
         (mkRequest (apiUrl +:+ "/api/scraper/queue/current-session") GET apiKey NoBody) s).
Proof. unfold checkActiveSession. after_request. Qed.

Lemma getNextRoleLocation_state apiUrl apiKey s :
  snd (getNextRoleLocation env apiUrl apiKey s) =
  snd (makeApiRequest env
         (mkRequest (apiUrl +:+ "/api/scraper/queue/next-role-location") GET apiKey NoBody) s).
Proof. unfold getNextRoleLocation. after_request. Qed.

Lemma submitJobs_state apiUrl apiKey sessionId platform jobs status_arg errorMessage s :
  snd (submitJobs env apiUrl apiKey sessionId platform jobs status_arg errorMessage s) =
  snd (makeApiRequest env
         (mkRequest (apiUrl +:+ "/api/scraper/queue/jobs") POST apiKey
            (JobsBody sessionId platform jobs
               (if String.eqb status_arg "failed" then Some errorMessage else None))) s).
Proof. unfold submitJobs. after_request. Qed.

Lemma completeSession_state apiUrl apiKey sessionId s :
  snd (completeSession env apiUrl apiKey sessionId s) =
  snd (makeApiRequest env
         (mkRequest (apiUrl +:+ "/api/scraper/queue/complete") POST apiKey
            (CompleteBody sessionId)) s).
Proof. unfold completeSession. after_request. Qed.

(** The exchanges of one makeApiRequest all carry its request. *)
Lemma makeApiRequest_trace req s :
  exists evs,
    trace (snd (makeApiRequest env req s)) = (trace s ++ evs)%list /\
    automation evs = [] /\
    fetches evs <> [] /\
    Forall (fun x => fst x = req) (fetches evs) /\
    apiClient (snd (makeApiRequest env req s)) = apiClient s /\
    isProcessingQueue (snd (makeApiRequest env req s)) = isProcessingQueue s.
Proof.
  destruct (makeApiRequest env req s) as [out s'] eqn:Hrun.
  unfold makeApiRequest, makeApiRequest_retries in Hrun.
  apply makeApiRequest_from_spec in Hrun; [|reflexivity].
  destruct Hrun as (Hc & Hg & evs & results & m & Htr & Hauto & Hf & _ & _ & Hout).
  exists evs. cbn. repeat split; auto.
  - rewrite Hf. destruct out as [r|e].
    + destruct Hout as (pre & -> & _). destruct pre; discriminate.
    + destruct Hout as (_ & Hl & _). destruct results; discriminate.
  - rewrite Hf. apply Forall_forall. intros [r x] Hin.
    apply list_elem_of_fmap in Hin. destruct Hin as (y & [= -> ->] & _). reflexivity.
Qed.

End QueueCalls.

(** ** The orchestrator run *)

Section Orchestrator.
Context {Job FormattedJob : Type}.
Variable formatJobForBlacklight : Job -> string -> Outcome FormattedJob.
Variable env : Env Job FormattedJob.
Variable cfg : BlacklightConfig.
Implicit Types s : State Job FormattedJob.

(** C2. When the current-session check reports an active session, the run
    stops there: the state it ends in is the one the check left, in which
    every exchange is the current-session request, so nothing is asked of
    next-role-location and nothing is submitted or completed.  The run
    returns the error result when the answer carries the session object;
    when [session] is null or left out, reading its session_id for the
    log throws a TypeError instead. *)
Theorem active_session_stops_run s session s1 :
  blacklight_configured (Some cfg) = true ->
  checkActiveSession env (cfg_apiUrl cfg) (cfg_apiKey cfg) s
    = (Returned (BodySessionCheck true session), s1) ->
  runBlacklightQueue formatJobForBlacklight env (Some cfg) s
    = (match session with
       | SessionObject _ =>
           Returned (ResultError "Active session already exists. Complete it first.")
       | SessionNull =>
           Thrown (mkError "Cannot read properties of null (reading 'session_id')")
       | SessionAbsent =>
           Thrown (mkError "Cannot read properties of undefined (reading 'session_id')")
       end, s1) /\
  exists evs,
    trace s1 = (trace s ++ evs)%list /\
    automation evs = [] /\
    Forall (fun x => fst x = mkRequest (cfg_apiUrl cfg +:+ "/api/scraper/queue/current-session")
                                       GET (cfg_apiKey cfg) NoBody)
           (fetches evs).
Proof.
  intros Hcfg Hcheck. split.
  - unfold runBlacklightQueue. rewrite Hcfg. cbn [negb].
    unfold mbind, M_bind, bind. rewrite Hcheck. destruct session; reflexivity.
  - pose proof (checkActiveSession_state env (cfg_apiUrl cfg) (cfg_apiKey cfg) s) as Hst.
    rewrite Hcheck in Hst. cbn in Hst.
    destruct (makeApiRequest_trace env
                (mkRequest (cfg_apiUrl cfg +:+ "/api/scraper/queue/current-session")
                           GET (cfg_apiKey cfg) NoBody) s)
      as (evs & Htr & Hauto & _ & Hall & _).
    rewrite <- Hst in Htr. eauto.
Qed.

(** C5. On a 409 from next-role-location getNextRoleLocation throws,
    nothing in runBlacklightQueue catches it, and POST /scrape-queue
    answers 500.
    The run ends in the state the request left, so no submit and no
    complete call is made. *)
Theorem next_role_conflict_is_thrown s b s1 response s2 :
  blacklight_configured (Some cfg) = true ->
  checkActiveSession env (cfg_apiUrl cfg) (cfg_apiKey cfg) s
    = (Returned (BodySessionCheck false b), s1) ->
  makeApiRequest env
    (mkRequest (cfg_apiUrl cfg +:+ "/api/scraper/queue/next-role-location")
               GET (cfg_apiKey cfg) NoBody) s1 = (Returned response, s2) ->
  status response = 409 ->
  runBlacklightQueue formatJobForBlacklight env (Some cfg) s
    = (Thrown (mkError "Scraper already has an active session"), s2) /\
  post_scrape_queue formatJobForBlacklight env (Some cfg) s
    = (Returned (mkReply 500 false (Some "Scraper already has an active session") None None),
       s2) /\
  exists evs,
    trace s2 = (trace s ++ evs)%list /\
    submit_or_complete_calls evs = [].
Proof.
  intros Hcfg Hcheck Hnext H409.
  assert (Hrun : runBlacklightQueue formatJobForBlacklight env (Some cfg) s
                 = (Thrown (mkError "Scraper already has an active session"), s2)).
  { unfold runBlacklightQueue. rewrite Hcfg. cbn [negb].
    unfold mbind, M_bind, bind. rewrite Hcheck.
    unfold getNextRoleLocation, mbind, M_bind, bind. rewrite Hnext, H409.
    reflexivity. }
  split; [exact Hrun|]. split.
  - unfold post_scrape_queue, mbind, M_bind, bind, settle. rewrite Hrun. reflexivity.
  - pose proof (checkActiveSession_state env (cfg_apiUrl cfg) (cfg_apiKey cfg) s) as Hst.
    rewrite Hcheck in Hst. cbn in Hst.
    destruct (makeApiRequest_trace env
                (mkRequest (cfg_apiUrl cfg +:+ "/api/scraper/queue/current-session")
                           GET (cfg_apiKey cfg) NoBody) s)
      as (evs1 & Htr1 & _ & _ & Hall1 & _).
    rewrite <- Hst in Htr1.
    destruct (makeApiRequest_trace env
                (mkRequest (cfg_apiUrl cfg +:+ "/api/scraper/queue/next-role-location")
                           GET (cfg_apiKey cfg) NoBody) s1)
      as (evs2 & Htr2 & _ & _ & Hall2 & _).
    rewrite Hnext in Htr2. cbn in Htr2.
    exists (evs1 ++ evs2)%list.
    split; [rewrite Htr2, Htr1, app_assoc; reflexivity|].
    unfold submit_or_complete_calls. rewrite fetches_app, filter_app.
    assert (Hnone : forall (l : list (Request FormattedJob * FetchResult)) r,
               Forall (fun x => fst x = r) l -> req_body r = NoBody ->
               filter (fun x => is_submit (fst x) || is_complete (fst x) = true) l = []).
    { intros l r Hl Hr. induction Hl as [|x l Hx Hl IH]; [reflexivity|].
      rewrite filter_cons. rewrite IH.
      destruct (decide _) as [Hd|Hd]; [|reflexivity].
      rewrite Hx in Hd. unfold is_submit, is_complete in Hd. rewrite Hr in Hd.
      discriminate. }
    rewrite (Hnone _ _ Hall1 eq_refl), (Hnone _ _ Hall2 eq_refl). reflexivity.
Qed.

End Orchestrator.

Lemma active_session_stops_run_witness :
  exists s1,
    runBlacklightQueue Scenario.format
      (Scenario.backend_env
         (Scenario.mkBackend Scenario.active_session (Scenario.queue_item [])
            Scenario.accepted Scenario.completed (Scenario.credential 1) Scenario.released
            (fun _ => Scraped [])))
      (Some Scenario.config) Scenario.started
    = (Returned (ResultError "Active session already exists. Complete it first."), s1) /\
    length (fetches (trace s1)) = 1%nat.
Proof.
  eexists. split.
  - apply (proj1 (active_session_stops_run Scenario.format
             (Scenario.backend_env
                (Scenario.mkBackend Scenario.active_session (Scenario.queue_item [])
                   Scenario.accepted Scenario.completed (Scenario.credential 1)
                   Scenario.released (fun _ => Scraped [])))
             Scenario.config Scenario.started
             (SessionObject (mkSessionInfo "s-0" "DevOps Engineer" "New York" 2 6)) _
             eq_refl eq_refl)).
  - reflexivity.
Defined.

(** C2 as stated fails: with has_active_session true and [session] null
    the run does not return the error result, it throws; the one request
    made is still the session check. *)
Lemma active_session_without_details_counterexample :
  fst (runBlacklightQueue Scenario.format
         (Scenario.backend_env
            (Scenario.mkBackend Scenario.active_session_without_details
               (Scenario.queue_item []) Scenario.accepted Scenario.completed
               (Scenario.credential 1) Scenario.released (fun _ => Scraped [])))
         (Some Scenario.config) Scenario.started)
  = Thrown (mkError "Cannot read properties of null (reading 'session_id')") /\
  fst (runBlacklightQueue Scenario.format
         (Scenario.backend_env
            (Scenario.mkBackend Scenario.active_session_without_details
               (Scenario.queue_item []) Scenario.accepted Scenario.completed
               (Scenario.credential 1) Scenario.released (fun _ => Scraped [])))
         (Some Scenario.config) Scenario.started)
  <> Returned (ResultError "Active session already exists. Complete it first.") /\
  length (fetches (trace (snd (runBlacklightQueue Scenario.format
         (Scenario.backend_env
            (Scenario.mkBackend Scenario.active_session_without_details
               (Scenario.queue_item []) Scenario.accepted Scenario.completed
               (Scenario.credential 1) Scenario.released (fun _ => Scraped [])))
         (Some Scenario.config) Scenario.started)))) = 1%nat.
Proof.
  split; [reflexivity|]. split; [|reflexivity].
  intros H. vm_compute in H. discriminate.
Qed.

Lemma next_role_conflict_is_thrown_witness :
  exists s2,
    runBlacklightQueue Scenario.format (Scenario.backend_env Scenario.refusing)
                       (Some Scenario.config) Scenario.started
    = (Thrown (mkError "Scraper already has an active session"), s2) /\
    post_scrape_queue Scenario.format (Scenario.backend_env Scenario.refusing)
                      (Some Scenario.config) Scenario.started
    = (Returned (mkReply 500 false (Some "Scraper already has an active session") None None),
       s2) /\
    exists evs,
      trace s2 = (trace Scenario.started ++ evs)%list /\
      submit_or_complete_calls evs = [].
Proof.
  eexists. eapply next_role_conflict_is_thrown; reflexivity.
Defined.

(** C5 as stated fails: on a 409 from next-role-location the run does not
    return a result, it throws. *)
Lemma next_role_conflict_counterexample :
  fst (runBlacklightQueue Scenario.format (Scenario.backend_env Scenario.refusing)
                          (Some Scenario.config) Scenario.started)
  = Thrown (mkError "Scraper already has an active session") /\
  ~ (exists result,
        fst (runBlacklightQueue Scenario.format (Scenario.backend_env Scenario.refusing)
                                (Some Scenario.config) Scenario.started)
        = Returned result).
Proof.
  split; [reflexivity|].
  intros [result H]. vm_compute in H. discriminate.
Qed.

(** C3 at the failing input: the queue item lists "indeed", which is not
    in SCRAPERS, and the backend answers the failure report with 404.  The
    rejection of submitJobs leaves the loop and the run; "dice", next in
    the list, is never scraped. *)
Theorem unsupported_platform_report_escapes :
  fst (runBlacklightQueue Scenario.format (Scenario.backend_env Scenario.rejecting)
                          (Some Scenario.config) Scenario.started)
  = Thrown (mkError "Failed to submit jobs: 404 Not Found") /\
  automation (trace (snd (runBlacklightQueue Scenario.format
                            (Scenario.backend_env Scenario.rejecting)
                            (Some Scenario.config) Scenario.started))) = [] /\
  platform_ops (trace (snd (runBlacklightQueue Scenario.format
                              (Scenario.backend_env Scenario.rejecting)
                              (Some Scenario.config) Scenario.started)))
  = [(OpSubmit, "indeed")].
Proof. repeat split; reflexivity. Qed.

(** C4 at the same input: the run ends without any completion call. *)
Theorem unsupported_platform_skips_completion :
  (exists e, fst (runBlacklightQueue Scenario.format
                    (Scenario.backend_env Scenario.rejecting)
                    (Some Scenario.config) Scenario.started) = Thrown e) /\
  complete_calls (trace (snd (runBlacklightQueue Scenario.format
                                (Scenario.backend_env Scenario.rejecting)
                                (Some Scenario.config) Scenario.started))) = [].
Proof. split; [eexists|]; reflexivity. Qed.

(** ** What a computation adds to the trace *)

Section Emits.
Context {Job FormattedJob : Type}.
Variable env : Env Job FormattedJob.
Implicit Types s : State Job FormattedJob.
Implicit Types evs : list (Event Job FormattedJob).

Section WithP.
Variable P : list (Event Job FormattedJob) -> Prop.
Hypothesis HP : Sequential P.

Lemma emits_ret {A} (a : A) : emits (mret a) P.
Proof. intros s. exists []. rewrite app_nil_r. split; [reflexivity|apply HP]. Qed.

Lemma emits_throw {A} (e : Error) : emits (throw (A := A) e) P.
Proof. intros s. exists []. rewrite app_nil_r. split; [reflexivity|apply HP]. Qed.

Lemma emits_lift {A} (o : Outcome A) : emits (lift_outcome o) P.
Proof. intros s. exists []. rewrite app_nil_r. split; [reflexivity|apply HP]. Qed.

Lemma emits_bind {A B} (m : M Job FormattedJob A) (k : A -> M Job FormattedJob B) :
  emits m P -> (forall a, emits (k a) P) -> emits (m ≫= k) P.
Proof.
  intros Hm Hk s. unfold mbind, M_bind, bind.
  destruct (Hm s) as (evs1 & Htr1 & H1).
  destruct (m s) as [[a|e] s1]; cbn in *.
  - destruct (Hk a s1) as (evs2 & Htr2 & H2).
    exists (evs1 ++ evs2)%list. rewrite Htr2, Htr1, app_assoc.
    split; [reflexivity|]. apply HP; assumption.
  - exists evs1. auto.
Qed.

Lemma emits_settle {A} (m : M Job FormattedJob A) : emits m P -> emits (settle m) P.
Proof.
  intros Hm s. unfold settle.
  destruct (Hm s) as (evs & Htr & H). destruct (m s) as [o s1]. cbn in *. eauto.
Qed.

Lemma emits_client : emits getCredentialsAPIClient P.
Proof.
  intros s. exists []. rewrite app_nil_r. split; [|apply HP].
  unfold getCredentialsAPIClient. destruct (apiClient s); reflexivity.
Qed.

Lemma emits_update_active f : emits (update_active f) P.
Proof. intros s. exists []. rewrite app_nil_r. split; [reflexivity|apply HP]. Qed.

Lemma emits_json (r : Response) : emits (json r) P.
Proof. unfold json. destruct (body r); first [apply emits_throw | apply emits_ret]. Qed.

End WithP.

Lemma scrape_only_sequential platform :
  Sequential (Job := Job) (FormattedJob := FormattedJob) (scrape_only platform).
Proof.
  split.
  - exists 0%nat. reflexivity.
  - intros evs1 evs2 [n1 H1] [n2 H2]. exists (n1 + n2)%nat.
    rewrite platform_ops_app, H1, H2, repeat_app. reflexivity.
Qed.

Lemma emits_sleep platform ms :
  emits (Job := Job) (FormattedJob := FormattedJob) (sleep ms) (scrape_only platform).
Proof. intros s. exists [EvSleep ms]. split; [reflexivity|]. exists 0%nat. reflexivity. Qed.

Lemma emits_fetch_quiet platform (req : Request FormattedJob) :
  is_submit req = false -> emits (fetch env req) (scrape_only platform).
Proof.
  intros Hreq s. exists [EvFetch req (env_fetch env (trace s) req)]. split.
  - unfold fetch, emit. cbn. destruct (env_fetch env (trace s) req); reflexivity.
  - exists 0%nat. unfold platform_ops. cbn. unfold is_submit in Hreq.
    destruct (req_body req); try reflexivity. discriminate.
Qed.

Lemma emits_collab (call : CollabCall) :
  emits (collab env call) (scrape_only (cc_platform call)).
Proof.
  intros s. exists [EvCollab call (env_collab env (trace s) call)].
  split; [reflexivity|]. exists 1%nat. reflexivity.
Qed.

Lemma emits_setup platform : emits (setup env platform) (scrape_only platform).
Proof.
  intros s. exists [EvSetup platform (env_setup env (trace s) platform)].
  split; [reflexivity|]. exists 1%nat. reflexivity.
Qed.

End Emits.

Ltac emits_step :=
  lazymatch goal with
  | |- emits (mbind _ _) _ =>
      apply emits_bind; [apply scrape_only_sequential| |intros ?]
  | |- emits (mret _) _ => apply emits_ret; apply scrape_only_sequential
  | |- emits (ret _) _ => apply (emits_ret _ (scrape_only_sequential _))
  | |- emits (throw _) _ => apply emits_throw; apply scrape_only_sequential
  | |- emits (lift_outcome _) _ => apply emits_lift; apply scrape_only_sequential
  | |- emits (settle _) _ => apply emits_settle
  | |- emits (json _) _ => apply emits_json; apply scrape_only_sequential
  | |- emits getCredentialsAPIClient _ => apply emits_client; apply scrape_only_sequential
  | |- emits (update_active _) _ => apply emits_update_active; apply scrape_only_sequential
  | |- emits (sleep _) _ => apply emits_sleep
  | |- emits (fetch _ _) _ => apply emits_fetch_quiet; reflexivity
  | |- emits (collab _ _) _ => apply emits_collab
  | |- emits (setup _ _) _ => apply emits_setup
  | |- emits (if ?c then _ else _) _ => destruct c
  | |- emits (match ?x with _ => _ end) _ => destruct x
  end.

Section Scrapers.
Context {Job FormattedJob : Type}.
Variable env : Env Job FormattedJob.

Lemma throw_api_error_quiet {A} platform (response : Response) :
  emits (throw_api_error (Job := Job) (FormattedJob := FormattedJob) (A := A) response)
        (scrape_only platform).
Proof.
  unfold throw_api_error, api_error_text. repeat emits_step.
Qed.

Lemma getCredential_quiet platform p sessionId :
  emits (getCredential env p sessionId) (scrape_only platform).
Proof.
  unfold getCredential, credential_id.
  repeat first [apply throw_api_error_quiet | emits_step].
Qed.

Lemma report_quiet platform p suffix payload :
  is_submit (mkRequest "" POST "" payload) = false ->
  emits (report env p suffix payload) (scrape_only platform).
Proof.
  intros Hpayload. unfold report.
  repeat first [apply throw_api_error_quiet
               | apply emits_fetch_quiet; exact Hpayload
               | emits_step].
Qed.

Lemma poll_credential_quiet platform p sessionId fuel credRetry :
  emits (poll_credential env p sessionId fuel credRetry) (scrape_only platform).
Proof.
  revert credRetry. induction fuel as [|fuel IH]; intros credRetry.
  - apply emits_ret. apply scrape_only_sequential.
  - unfold poll_credential; fold (poll_credential (Job := Job) (FormattedJob := FormattedJob)).
    apply emits_bind; [apply scrape_only_sequential|apply getCredential_quiet|].
    intros credential.
    destruct credential;
      repeat first [apply IH | emits_step].
Qed.

End Scrapers.

Section ScraperOps.
Context {Job FormattedJob : Type}.
Variable env : Env Job FormattedJob.

Lemma scrape_plain_ops platform jobTitle location :
  emits (scrape_plain env platform jobTitle location) (scrape_only platform).
Proof.
  unfold scrape_plain.
  apply emits_bind; [apply scrape_only_sequential| |intros r].
  - apply (emits_collab env (mkCollabCall platform jobTitle location None)).
  - repeat emits_step.
Qed.

Lemma linkedin_attempts_ops fuel lastError jobTitle location sessionId :
  emits (linkedin_attempts env fuel lastError jobTitle location sessionId)
        (scrape_only "linkedin").
Proof.
  revert lastError. induction fuel as [|fuel IH]; intros lastError.
  - cbn. emits_step.
  - cbn [linkedin_attempts].
    apply emits_bind; [apply scrape_only_sequential|apply poll_credential_quiet|].
    intros credential.
    assert (Hbody : emits
      (collab env (mkCollabCall "linkedin" jobTitle location (Some credential)) ≫= λ r,
         match r with
         | Scraped normalizedPosts =>
             reportSuccess env "linkedin"
               (Some ("Scraped " +:+ pretty (length normalizedPosts)
                        +:+ " posts successfully"));;
             ret normalizedPosts
         | ScrapeFailed error _ =>
             linkedin_on_error env false error;;
             linkedin_attempts env fuel (Some error) jobTitle location sessionId
         end) (scrape_only "linkedin")).
    { apply emits_bind; [apply scrape_only_sequential| |intros r].
      - apply (emits_collab env (mkCollabCall "linkedin" jobTitle location (Some credential))).
      - destruct r as [posts|error flag].
        + apply emits_bind; [apply scrape_only_sequential| |intros ?; emits_step].
          apply report_quiet. reflexivity.
        + apply emits_bind; [apply scrape_only_sequential| |intros ?; apply IH].
          unfold linkedin_on_error, reportFailure. cbn [negb].
          destruct (classify_linkedin (message error)); apply report_quiet; reflexivity. }
    destruct credential; first [exact Hbody | emits_step].
Qed.

Lemma techfetch_attempts_ops fuel lastError jobTitle location sessionId :
  emits (techfetch_attempts env fuel lastError jobTitle location sessionId)
        (scrape_only "techfetch").
Proof.
  revert lastError. induction fuel as [|fuel IH]; intros lastError.
  - cbn. emits_step.
  - cbn [techfetch_attempts].
    apply emits_bind; [apply scrape_only_sequential|apply poll_credential_quiet|].
    intros credential.
    assert (Hbody : emits
      (collab env (mkCollabCall "techfetch" jobTitle location (Some credential)) ≫= λ r,
         match r with
         | Scraped normalizedJobs =>
             reportSuccess env "techfetch"
               (Some ("Scraped " +:+ pretty (length normalizedJobs)
                        +:+ " jobs successfully"));;
             ret normalizedJobs
         | ScrapeFailed error loginSuccess =>
             techfetch_on_error env loginSuccess error;;
             techfetch_attempts env fuel (Some error) jobTitle location sessionId
         end) (scrape_only "techfetch")).
    { apply emits_bind; [apply scrape_only_sequential| |intros r].
      - apply (emits_collab env (mkCollabCall "techfetch" jobTitle location (Some credential))).
      - destruct r as [jobs|error flag].
        + apply emits_bind; [apply scrape_only_sequential| |intros ?; emits_step].
          apply report_quiet. reflexivity.
        + apply emits_bind; [apply scrape_only_sequential| |intros ?; apply IH].
          unfold techfetch_on_error, reportFailure.
          destruct flag; cbn [negb];
            [|destruct (classify_techfetch (message error))];
            apply report_quiet; reflexivity. }
    destruct credential; first [exact Hbody | emits_step].
Qed.

Lemma scrapeGlassdoor_ops jobTitle location sessionId :
  emits (scrapeGlassdoor env jobTitle location sessionId) (scrape_only "glassdoor").
Proof.
  unfold scrapeGlassdoor.
  apply emits_bind; [apply scrape_only_sequential|emits_step|intros _].
  apply emits_bind; [apply scrape_only_sequential|apply getCredential_quiet|].
  intros credential.
  assert (Hbody : emits
    (setup env "glassdoor";;
     collab env (mkCollabCall "glassdoor" jobTitle location (Some credential)) ≫= λ r,
       match r with
       | Scraped jobDetails =>
           reportSuccess env "glassdoor"
             (Some ("Scraped " +:+ pretty (length jobDetails) +:+ " jobs successfully"));;
           ret jobDetails
       | ScrapeFailed error loginSuccess =>
           glassdoor_on_error env loginSuccess error;;
           throw error
       end) (scrape_only "glassdoor")).
  { apply emits_bind; [apply scrape_only_sequential|apply emits_setup|intros _].
    apply emits_bind; [apply scrape_only_sequential| |intros r].
    - apply (emits_collab env (mkCollabCall "glassdoor" jobTitle location (Some credential))).
    - destruct r as [jobs|error flag].
      + apply emits_bind; [apply scrape_only_sequential| |intros ?; emits_step].
        apply report_quiet. reflexivity.
      + apply emits_bind; [apply scrape_only_sequential| |intros ?; emits_step].
        unfold glassdoor_on_error, reportFailure.
        destruct flag; cbn [negb]; [emits_step|].
        destruct (classify_glassdoor (message error)); apply report_quiet; reflexivity. }
  destruct credential; first [exact Hbody | emits_step].
Qed.

(** Whatever scraper the table yields for a name, its work is tagged with
    that name and contains no submit. *)
Lemma SCRAPERS_ops platformName scraper jobTitle location sessionId :
  SCRAPERS env platformName = Some scraper ->
  emits (scraper jobTitle location sessionId) (scrape_only platformName).
Proof.
  unfold SCRAPERS. intros H.
  repeat match type of H with
         | (if String.eqb ?a ?b then _ else _) = _ =>
             let E := fresh "E" in
             destruct (String.eqb a b) eqn:E;
             [apply String.eqb_eq in E; subst; injection H as <-|]
         end; try discriminate.
  - apply scrape_plain_ops.
  - apply scrape_plain_ops.
  - unfold scrapeTechFetch.
    apply emits_bind; [apply scrape_only_sequential|emits_step|intros _].
    apply techfetch_attempts_ops.
  - unfold scrapeLinkedIn.
    apply emits_bind; [apply scrape_only_sequential|emits_step|intros _].
    apply linkedin_attempts_ops.
  - apply scrapeGlassdoor_ops.
  - unfold inherited_constructor. emits_step.
  - unfold inherited_proto. emits_step.
Qed.

End ScraperOps.

(** ** The dispatch loop *)

Section Dispatch.
Context {Job FormattedJob : Type}.
Variable formatJobForBlacklight : Job -> string -> Outcome FormattedJob.
Variable env : Env Job FormattedJob.
Variables apiUrl apiKey : string.
Variable q : QueueItem.
Implicit Types s : State Job FormattedJob.
Implicit Types evs : list (Event Job FormattedJob).

Lemma http_ops_submit (req : Request FormattedJob) sid p jobs f evs :
  req_body req = JobsBody sid p jobs f ->
  automation evs = [] ->
  Forall (fun x => fst x = req) (fetches evs) ->
  platform_ops evs = repeat (OpSubmit, p) (length (fetches evs)).
Proof.
  intros Hreq. induction evs as [|e evs IH]; intros Hauto Hall; [reflexivity|].
  destruct e as [r res|ms|p' res|call res]; cbn in Hauto, Hall |- *; try discriminate.
  - apply Forall_cons in Hall. destruct Hall as [Hr Hall]. cbn in Hr. subst r.
    unfold platform_ops in *. cbn. rewrite Hreq. cbn. f_equal. apply IH; assumption.
  - apply IH; assumption.
Qed.

Lemma http_ops_quiet (req : Request FormattedJob) evs :
  is_submit req = false ->
  automation evs = [] ->
  Forall (fun x => fst x = req) (fetches evs) ->
  platform_ops evs = [].
Proof.
  intros Hreq. induction evs as [|e evs IH]; intros Hauto Hall; [reflexivity|].
  destruct e as [r res|ms|p' res|call res]; cbn in Hauto, Hall |- *; try discriminate.
  - apply Forall_cons in Hall. destruct Hall as [Hr Hall]. cbn in Hr. subst r.
    unfold platform_ops in *. cbn. unfold is_submit in Hreq.
    destruct (req_body req); try discriminate; apply IH; assumption.
  - apply IH; assumption.
Qed.

(** A submitJobs call is at least one exchange, all for its platform. *)
Lemma submitJobs_ops sessionId platform jobs status_arg errorMessage s :
  exists evs b,
    trace (snd (submitJobs env apiUrl apiKey sessionId platform jobs status_arg
                           errorMessage s)) = (trace s ++ evs)%list /\
    platform_ops evs = repeat (OpSubmit, platform) (S b).
Proof.
  rewrite submitJobs_state.
  set (req := mkRequest (apiUrl +:+ "/api/scraper/queue/jobs") POST apiKey
                (JobsBody sessionId platform jobs
                   (if String.eqb status_arg "failed" then Some errorMessage else None))).
  destruct (makeApiRequest_trace env req s) as (evs & Htr & Hauto & Hne & Hall & _).
  exists evs, (length (fetches evs) - 1)%nat. split; [exact Htr|].
  rewrite (http_ops_submit req _ _ _ _ evs eq_refl Hauto Hall).
  f_equal. destruct (fetches evs); [contradiction|cbn; lia].
Qed.

Lemma report_failed_returns platformName error results s :
  report_failed env apiUrl apiKey q platformName error results s =
  (Returned (record_failure results platformName (message error)),
   snd (submitJobs env apiUrl apiKey (qi_session_id q) platformName [] "failed"
                   (Some (message error)) s)).
Proof.
  unfold report_failed, mbind, M_bind, bind, settle.
  destruct (submitJobs _ _ _ _ _ _ _ _ s) as [o s1]. reflexivity.
Qed.

(** The loop body for a platform that has a scraper, by cases on what the
    [try] block does. *)
Lemma process_platform_supported platformInfo results scraper s :
  SCRAPERS env (toLowerCase (pi_name platformInfo)) = Some scraper ->
  let platformName := toLowerCase (pi_name platformInfo) in
  process_platform formatJobForBlacklight env apiUrl apiKey q platformInfo results s =
  match scraper (role_name (qi_role q)) (qi_location q) (Some (qi_session_id q)) s with
  | (Thrown error, s1) => report_failed env apiUrl apiKey q platformName error results s1
  | (Returned jobs, s1) =>
      match format_all formatJobForBlacklight jobs platformName with
      | Thrown error => report_failed env apiUrl apiKey q platformName error results s1
      | Returned formattedJobs =>
          match submitJobs env apiUrl apiKey (qi_session_id q) platformName
                           formattedJobs "success" None s1 with
          | (Thrown error, s2) => report_failed env apiUrl apiKey q platformName error results s2
          | (Returned submitResponse, s2) =>
              match read_progress (Job := Job) (FormattedJob := FormattedJob)
                                  submitResponse s2 with
              | (Thrown error, _) => report_failed env apiUrl apiKey q platformName error results s2
              | (Returned _, _) =>
                  (Returned (record_success results platformName (length jobs)
                                            (length formattedJobs)), s2)
              end
          end
      end
  end.
Proof.
  intros Hscraper platformName. subst platformName. unfold process_platform.
  cbv zeta. rewrite Hscraper.
  unfold report_failed, mbind, M_bind, bind, settle, lift_outcome.
  destruct (scraper _ _ _ s) as [[jobs|error] s1]; [|reflexivity].
  destruct (format_all _ jobs _) as [formattedJobs|error]; [|reflexivity].
  destruct (submitJobs _ _ _ _ _ _ _ _ s1) as [[submitResponse|error] s2]; [|reflexivity].
  unfold read_progress.
  destruct submitResponse as [| |? ?|?|[?|]|?|?|?]; reflexivity.
Qed.

(** For a platform with a scraper, a rejection of the scraper is answered
    by submitJobs(failed, [], error.message), a rejection of that report
    is swallowed, and the loop body returns. *)
Lemma scrape_failure_is_reported platformInfo results scraper s error s1 :
  SCRAPERS env (toLowerCase (pi_name platformInfo)) = Some scraper ->
  scraper (role_name (qi_role q)) (qi_location q) (Some (qi_session_id q)) s
    = (Thrown error, s1) ->
  process_platform formatJobForBlacklight env apiUrl apiKey q platformInfo results s =
  (Returned (record_failure results (toLowerCase (pi_name platformInfo)) (message error)),
   snd (submitJobs env apiUrl apiKey (qi_session_id q) (toLowerCase (pi_name platformInfo))
                   [] "failed" (Some (message error)) s1)).
Proof.
  intros Hscraper Hthrow.
  rewrite (process_platform_supported _ _ _ _ Hscraper). cbn zeta.
  rewrite Hthrow. apply report_failed_returns.
Qed.

Lemma process_platform_supported_returns platformInfo results scraper s :
  SCRAPERS env (toLowerCase (pi_name platformInfo)) = Some scraper ->
  exists results',
    fst (process_platform formatJobForBlacklight env apiUrl apiKey q platformInfo results s)
    = Returned results'.
Proof.
  intros Hscraper.
  rewrite (process_platform_supported _ _ _ _ Hscraper). cbn zeta.
  repeat match goal with
         | |- context [match ?x with _ => _ end] =>
             lazymatch x with
             | report_failed _ _ _ _ _ _ _ _ => fail
             | _ => destruct x
             end
         end;
    try rewrite report_failed_returns; eexists; reflexivity.
Qed.

(** One iteration of the loop leaves one platform segment in the trace. *)
Lemma process_platform_segment platformInfo results s :
  exists evs,
    trace (snd (process_platform formatJobForBlacklight env apiUrl apiKey q
                                 platformInfo results s)) = (trace s ++ evs)%list /\
    platform_segment (toLowerCase (pi_name platformInfo)) (platform_ops evs).
Proof.
  set (platformName := toLowerCase (pi_name platformInfo)).
  assert (Hcatch : forall error s0 s1 evs1 a b,
    trace s1 = (trace s0 ++ evs1)%list ->
    platform_ops evs1 = (repeat (OpScrape, platformName) a
                         ++ repeat (OpSubmit, platformName) b)%list ->
    exists evs,
      trace (snd (report_failed env apiUrl apiKey q platformName error results s1)) = (trace s0 ++ evs)%list /\
      platform_segment platformName (platform_ops evs)).
  { intros error s0 s1 evs1 a b Htr1 Hops1.
    rewrite report_failed_returns. cbn.
    destruct (submitJobs_ops (qi_session_id q) platformName [] "failed"
                             (Some (message error)) s1) as (evs2 & b2 & Htr2 & Hops2).
    exists (evs1 ++ evs2)%list. rewrite Htr2, Htr1, app_assoc. split; [reflexivity|].
    exists a, (b + b2)%nat.
    rewrite platform_ops_app, Hops1, Hops2, <- app_assoc. f_equal.
    rewrite <- repeat_app. f_equal. lia. }
  destruct (SCRAPERS env platformName) as [scraper|] eqn:Hscraper.
  - rewrite (process_platform_supported _ _ _ _ Hscraper). cbn zeta. fold platformName.
    destruct (SCRAPERS_ops env platformName scraper (role_name (qi_role q))
                (qi_location q) (Some (qi_session_id q)) Hscraper s)
      as (evs1 & Htr1 & a & Hops1).
    destruct (scraper _ _ _ s) as [[jobs|error] s1]; cbn in Htr1.
    + destruct (format_all _ jobs platformName) as [formattedJobs|error].
      * destruct (submitJobs_ops (qi_session_id q) platformName formattedJobs "success"
                                 None s1) as (evs2 & b2 & Htr2 & Hops2).
        assert (Htr12 : trace (snd (submitJobs env apiUrl apiKey (qi_session_id q)
                                      platformName formattedJobs "success" None s1))
                        = (trace s ++ (evs1 ++ evs2))%list).
        { rewrite Htr2, Htr1, app_assoc. reflexivity. }
        assert (Hops12 : platform_ops (evs1 ++ evs2)
                         = (repeat (OpScrape, platformName) a
                            ++ repeat (OpSubmit, platformName) (S b2))%list).
        { rewrite platform_ops_app, Hops1, Hops2. reflexivity. }
        destruct (submitJobs _ _ _ _ _ _ _ _ s1) as [[submitResponse|error] s2];
          cbn in Htr12.
        -- destruct (read_progress submitResponse s2) as [[u|error] s3].
           ++ exists (evs1 ++ evs2)%list. split; [exact Htr12|].
              exists a, b2. exact Hops12.
           ++ eapply Hcatch; eassumption.
        -- eapply Hcatch; eassumption.
      * eapply (Hcatch _ _ _ _ a 0%nat); [eassumption|].
        rewrite Hops1, app_nil_r. reflexivity.
    + eapply (Hcatch _ _ _ _ a 0%nat); [eassumption|].
      rewrite Hops1, app_nil_r. reflexivity.
  - unfold process_platform. fold platformName. rewrite Hscraper.
    unfold mbind, M_bind, bind.
    destruct (submitJobs_ops (qi_session_id q) platformName [] "failed"
                (Some ("Platform not supported: " +:+ platformName)) s)
      as (evs & b & Htr & Hops).
    exists evs. split.
    + destruct (submitJobs _ _ _ _ _ _ _ _ s) as [[r|e] s1]; exact Htr.
    + exists 0%nat, b. exact Hops.
Qed.

End Dispatch.

Section Run.
Context {Job FormattedJob : Type}.
Variable formatJobForBlacklight : Job -> string -> Outcome FormattedJob.
Variable env : Env Job FormattedJob.
Variables apiUrl apiKey : string.
Variable q : QueueItem.
Implicit Types s : State Job FormattedJob.

Lemma platform_loop_segments platforms :
  forall results s,
  exists k segs evs,
    trace (snd (platform_loop formatJobForBlacklight env apiUrl apiKey q
                              platforms results s)) = (trace s ++ evs)%list /\
    platform_ops evs = concat segs /\
    in_list_order (take k platforms) segs /\
    match fst (platform_loop formatJobForBlacklight env apiUrl apiKey q
                             platforms results s) with
    | Returned _ => k = length platforms
    | Thrown _ => (1 <= k <= length platforms)%nat
    end.
Proof.
  induction platforms as [|p rest IH]; intros results s.
  - exists 0%nat, [], []. cbn. rewrite app_nil_r.
    repeat split; auto. constructor.
  - cbn [platform_loop]. unfold mbind, M_bind, bind.
    destruct (process_platform_segment formatJobForBlacklight env apiUrl apiKey q
                                       p results s) as (evs1 & Htr1 & Hseg1).
    destruct (process_platform _ _ _ _ _ p results s) as [[results'|e] s1]; cbn in Htr1.
    + destruct (IH results' s1) as (k & segs & evs & Htr & Hops & Hord & Hout).
      exists (S k), (platform_ops evs1 :: segs), (evs1 ++ evs)%list.
      split; [rewrite Htr, Htr1, app_assoc; reflexivity|].
      split; [rewrite platform_ops_app, Hops; reflexivity|].
      split; [constructor; assumption|].
      destruct (fst _); cbn; lia.
    + exists 1%nat, [platform_ops evs1], evs1. cbn.
      split; [exact Htr1|]. split; [rewrite app_nil_r; reflexivity|].
      split; [|lia].
      constructor; [exact Hseg1|]. rewrite take_0. constructor.
Qed.

(** When every listed platform has a scraper, nothing leaves the loop. *)
Lemma platform_loop_supported_returns platforms :
  Forall (fun p => SCRAPERS env (toLowerCase (pi_name p)) <> None) platforms ->
  forall results s,
  exists results',
    fst (platform_loop formatJobForBlacklight env apiUrl apiKey q platforms results s)
    = Returned results'.
Proof.
  induction 1 as [|p rest Hp _ IH]; intros results s.
  - exists results. reflexivity.
  - cbn [platform_loop]. unfold mbind, M_bind, bind.
    destruct (SCRAPERS env (toLowerCase (pi_name p))) as [scraper|] eqn:Hscraper;
      [|contradiction].
    destruct (process_platform_supported_returns formatJobForBlacklight env apiUrl apiKey
                q p results scraper s Hscraper) as (results1 & H1).
    destruct (process_platform _ _ _ _ _ p results s) as [o s1]. cbn in H1. subst o.
    apply IH.
Qed.

(** Step 4 never throws, and what it does to the state is one call of
    completeSession. *)
Lemma complete_step_returns results s :
  exists results',
    complete_step env apiUrl apiKey q results s
    = (Returned (ResultSession results'),
       snd (completeSession env apiUrl apiKey (qi_session_id q) s)) /\
    res_platforms results' = res_platforms results /\
    successful results' = successful results /\
    failed results' = failed results /\
    match completeSession env apiUrl apiKey (qi_session_id q) s with
    | (Thrown error, _) => completion_error results' = Some (message error)
    | (Returned completionResponse, s1) =>
        match read_completion (Job := Job) (FormattedJob := FormattedJob)
                              completionResponse s1 with
        | (Thrown error, _) => completion_error results' = Some (message error)
        | (Returned _, _) =>
            completion results' = Some completionResponse /\
            completion_error results' = completion_error results
        end
    end.
Proof.
  unfold complete_step, mbind, M_bind, bind, settle.
  destruct (completeSession _ _ _ _ s) as [[completionResponse|error] s1]; cbn.
  - assert (Hpure : snd (read_completion (Job := Job) (FormattedJob := FormattedJob)
                                         completionResponse s1) = s1).
    { unfold read_completion.
      destruct completionResponse as [| |? ?|?|?|c|?|?]; try reflexivity.
      destruct (co_has_summary c), (co_has_jobs c); reflexivity. }
    destruct (read_completion completionResponse s1) as [[u|error] s2]; cbn in Hpure;
      subst s2; eexists; (split; [reflexivity|]); cbn; auto.
  - eexists. split; [reflexivity|]. cbn. auto.
Qed.

Lemma completeSession_ops s :
  exists evs,
    trace (snd (completeSession env apiUrl apiKey (qi_session_id q) s))
    = (trace s ++ evs)%list /\
    platform_ops evs = [] /\
    complete_calls evs <> [] /\
    Forall (fun x => fst x = mkRequest (apiUrl +:+ "/api/scraper/queue/complete") POST apiKey
                                       (CompleteBody (qi_session_id q)))
           (fetches evs).
Proof.
  rewrite completeSession_state.
  set (req := mkRequest (apiUrl +:+ "/api/scraper/queue/complete") POST apiKey
                        (CompleteBody (qi_session_id q))).
  destruct (makeApiRequest_trace env req s) as (evs & Htr & Hauto & Hne & Hall & _).
  exists evs. split; [exact Htr|].
  split; [exact (http_ops_quiet req evs eq_refl Hauto Hall)|].
  split; [|exact Hall].
  unfold complete_calls. destruct (fetches evs) as [|x l]; [contradiction|].
  apply Forall_cons in Hall. destruct Hall as [Hx _].
  rewrite filter_cons. destruct (decide _) as [_|Hd]; [discriminate|].
  exfalso. apply Hd. rewrite Hx. reflexivity.
Qed.

(** Once the loop has gone through the list, completeSession is called,
    once; its rejection becomes completion_error, and the run returns its
    session result. *)
Lemma completion_follows_loop s results s1 :
  platform_loop formatJobForBlacklight env apiUrl apiKey q (qi_platforms q)
                (initial_results q) s = (Returned results, s1) ->
  exists results',
    run_queue_item formatJobForBlacklight env apiUrl apiKey q s
    = (Returned (ResultSession results'),
       snd (completeSession env apiUrl apiKey (qi_session_id q) s1)) /\
    (forall error s2,
        completeSession env apiUrl apiKey (qi_session_id q) s1 = (Thrown error, s2) ->
        completion_error results' = Some (message error)).
Proof.
  intros Hloop. unfold run_queue_item, mbind, M_bind, bind. rewrite Hloop.
  destruct (complete_step_returns results s1) as (results' & Hstep & _ & _ & _ & Herr).
  exists results'. split; [exact Hstep|].
  intros error s2 Hthrow. rewrite Hthrow in Herr. exact Herr.
Qed.

End Run.

(** C7 at the failing input of C3: the queue item lists "indeed", then
    "dice", and the backend answers the failure report for "indeed" with
    404.  The run throws out of the loop: its only operation is that
    report and "dice" is never scraped or submitted, so the operations
    are not one segment per platform of the list.  With the report
    accepted the same item is processed in list order. *)
Theorem rejected_report_ends_platform_loop :
  (exists e, fst (runBlacklightQueue Scenario.format
                    (Scenario.backend_env Scenario.rejecting)
                    (Some Scenario.config) Scenario.started) = Thrown e) /\
  platform_ops (trace (snd (runBlacklightQueue Scenario.format
                              (Scenario.backend_env Scenario.rejecting)
                              (Some Scenario.config) Scenario.started)))
  = [(OpSubmit, "indeed")] /\
  ~ (exists segs,
        platform_ops (trace (snd (runBlacklightQueue Scenario.format
                                    (Scenario.backend_env Scenario.rejecting)
                                    (Some Scenario.config) Scenario.started)))
        = concat segs /\
        in_list_order [mkPlatformInfo "indeed" "Indeed"; mkPlatformInfo "dice" "Dice"]
                      segs) /\
  platform_ops
    (trace (snd (runBlacklightQueue Scenario.format
                   (Scenario.backend_env
                      (Scenario.healthy [mkPlatformInfo "indeed" "Indeed";
                                         mkPlatformInfo "dice" "Dice"]))
                   (Some Scenario.config) Scenario.started)))
  = [(OpSubmit, "indeed"); (OpScrape, "dice"); (OpSubmit, "dice")].
Proof.
  split; [eexists; reflexivity|]. split; [reflexivity|]. split; [|reflexivity].
  intros (segs & Hops & Hord).
  assert (Hrun : platform_ops
                   (trace (snd (runBlacklightQueue Scenario.format
                                  (Scenario.backend_env Scenario.rejecting)
                                  (Some Scenario.config) Scenario.started)))
                 = [(OpSubmit, "indeed")]) by reflexivity.
  rewrite Hrun in Hops.
  apply Forall2_cons_inv_l in Hord as (seg1 & rest & (a1 & b1 & ->) & Hord & ->).
  apply Forall2_cons_inv_l in Hord as (seg2 & rest' & (a2 & b2 & ->) & _ & ->).
  apply (f_equal length) in Hops. cbn [concat] in Hops.
  rewrite !length_app, !repeat_length in Hops. cbn in Hops. lia.
Qed.

(** ** Credential leases *)

Section Leases.
Context {Job FormattedJob : Type}.
Variable env : Env Job FormattedJob.
Implicit Types s : State Job FormattedJob.

(** A credential handed out by getCredential is stored under its platform
    with [Map.set]: whatever was stored for the platform is overwritten,
    other platforms keep their entry. *)
Lemma getCredential_sets_active platform sessionId s credential s' :
  getCredential env platform sessionId s = (Returned credential, s') ->
  credential <> BodyNull ->
  exists this id,
    apiClient s = Some this /\
    apiClient s' = Some (mkClient (apiBaseUrl this) (clientApiKey this)
                           (<[platform := mkActive id credential]> (activeCredentials this))).
Proof.
  unfold getCredential, getCredentialsAPIClient, mbind, M_bind, bind.
  destruct (apiClient s) as [this|] eqn:Hclient; [|discriminate].
  intros Hrun Hnonnull.
  unfold fetch, emit in Hrun. cbn in Hrun.
  destruct (env_fetch env (trace s) _) as [response|error]; [|discriminate].
  destruct (status response =? 204).
  { injection Hrun as <- _. contradiction. }
  destruct (negb (ok response)).
  { unfold throw_api_error, mbind, M_bind, bind, json, api_error_text in Hrun.
    destruct (body response) as [| |? ?|?|?|?|?|[?|]]; discriminate. }
  unfold json in Hrun.
  destruct (body response) as [| |h o|qi|pr|c|c|m]; cbn in Hrun; try discriminate;
    injection Hrun as <- <-; cbn; rewrite ?Hclient; eauto.
Qed.

(** After the polling loop has produced a credential, the client holds it
    for the platform. *)
Lemma poll_credential_holds platform sessionId fuel :
  forall credRetry s credential s1,
    poll_credential env platform sessionId fuel credRetry s = (Returned credential, s1) ->
    credential <> BodyNull ->
    exists this id,
      apiClient s1 = Some this /\
      activeCredentials this !! platform = Some (mkActive id credential).
Proof.
  induction fuel as [|fuel IH]; intros credRetry s credential s1 Hrun Hnonnull.
  - injection Hrun as <- _. contradiction.
  - unfold poll_credential in Hrun;
      fold (poll_credential (Job := Job) (FormattedJob := FormattedJob)) in Hrun.
    unfold mbind, M_bind, bind in Hrun.
    destruct (getCredential env platform sessionId s) as [[c|e] s0] eqn:Hget;
      [|discriminate].
    assert (Hdone : (Returned c, s0) = (Returned credential, s1) ->
                    exists this id,
                      apiClient s1 = Some this /\
                      activeCredentials this !! platform = Some (mkActive id credential)).
    { intros [= -> ->].
      destruct (getCredential_sets_active _ _ _ _ _ Hget Hnonnull)
        as (this & id & _ & Hclient).
      eexists _, id. split; [exact Hclient|]. cbn. apply lookup_insert_eq. }
    destruct c; try (apply Hdone; exact Hrun).
    destruct (Nat.ltb credRetry (maxCredentialRetries - 1)); cbn in Hrun;
      eapply IH; eassumption.
Qed.

(** With a lease held, a report is one POST to the lease's endpoint; the
    report call itself always returns. *)
Lemma report_posts platform suffix payload s this ac :
  apiClient s = Some this ->
  activeCredentials this !! platform = Some ac ->
  let req := mkRequest (apiBaseUrl this +:+ "/api/scraper-credentials/queue/"
                          +:+ id_text (ac_id ac) +:+ suffix)
                       POST (clientApiKey this) payload in
  exists s',
    report env platform suffix payload s = (Returned tt, s') /\
    trace s' = (trace s ++ [EvFetch req (env_fetch env (trace s) req)])%list /\
    isProcessingQueue s' = isProcessingQueue s.
Proof.
  intros Hclient Hheld req.
  unfold report, getCredentialsAPIClient, mbind, M_bind, bind. rewrite Hclient, Hheld.
  unfold settle, fetch, emit. cbn. fold req.
  destruct (env_fetch env (trace s) req) as [response|error]; cbn; [|eauto].
  destruct (negb (ok response)).
  - unfold throw_api_error, mbind, M_bind, bind, json, api_error_text.
    destruct (body response) as [| |? ?|?|?|?|?|[?|]]; cbn; eauto.
  - unfold json. destruct (body response); cbn; eauto.
Qed.

End Leases.

(** C9. The client tracks one lease per platform, and a second
    acquisition for a platform does not fail: the credential just handed
    out takes the place of whatever was tracked for that platform, and the
    entries of other platforms stay. *)
Theorem second_lease_replaces_first (Job FormattedJob : Type)
    (env : Env Job FormattedJob) platform sessionId
    (s : State Job FormattedJob) credential s' :
  getCredential env platform sessionId s = (Returned credential, s') ->
  credential <> BodyNull ->
  (exists id, held s' platform = Some (mkActive id credential)) /\
  (forall other, other <> platform -> held s' other = held s other).
Proof.
  intros Hget Hnonnull.
  destruct (getCredential_sets_active env _ _ _ _ _ Hget Hnonnull)
    as (this & id & Hs & Hs').
  unfold held. rewrite Hs, Hs'. cbn. split.
  - exists id. apply lookup_insert_eq.
  - intros other Hother. apply lookup_insert_ne. congruence.
Qed.

Lemma second_lease_replaces_first_witness :
  (exists id, held (snd (getCredential (Scenario.backend_env Scenario.second_credential)
                           "linkedin" (Some "s-1") Scenario.holding)) "linkedin"
              = Some (mkActive id (BodyCredential (mkCredential 2 "Account" "secret")))) /\
  (forall other, other <> "linkedin" ->
      held (snd (getCredential (Scenario.backend_env Scenario.second_credential)
                   "linkedin" (Some "s-1") Scenario.holding)) other
      = held Scenario.holding other).
Proof.
  apply (second_lease_replaces_first nat nat
           (Scenario.backend_env Scenario.second_credential) "linkedin" (Some "s-1")
           Scenario.holding).
  - reflexivity.
  - discriminate.
Defined.

(** C9 as stated fails: with credential 1 held for linkedin, a second
    getCredential("linkedin") returns normally and credential 2 is what
    the client tracks afterwards. *)
Lemma second_lease_counterexample :
  held Scenario.holding "linkedin"
  = Some (mkActive (Some 1) (BodyCredential (mkCredential 1 "Account" "secret"))) /\
  fst (getCredential (Scenario.backend_env Scenario.second_credential)
         "linkedin" (Some "s-1") Scenario.holding)
  = Returned (BodyCredential (mkCredential 2 "Account" "secret")) /\
  held (snd (getCredential (Scenario.backend_env Scenario.second_credential)
               "linkedin" (Some "s-1") Scenario.holding)) "linkedin"
  = Some (mkActive (Some 2) (BodyCredential (mkCredential 2 "Account" "secret"))).
Proof. repeat split; vm_compute; reflexivity. Qed.

(** C6 as stated fails for the calls of the credentials client, which go
    to fetch directly: a 500 on the credential request is not retried. *)
Lemma credential_request_not_retried_counterexample :
  getCredential (Scenario.backend_env Scenario.failing_credentials)
                "linkedin" (Some "s-1") Scenario.started
  = (Thrown (mkError "API Error: Internal Server Error"),
     mkState [EvFetch (mkRequest
                         "https://blacklight.test/api/scraper-credentials/queue/linkedin/next?session_id=s-1"
                         GET "key" NoBody)
                      (Responded Scenario.server_error)]
             (Some Scenario.client) false).
Proof. reflexivity. Qed.

(** ** Credential failures before login *)

Section CredentialFailures.
Context {Job FormattedJob : Type}.
Variable env : Env Job FormattedJob.
Implicit Types s : State Job FormattedJob.

Lemma nonnull_branch {A} (credential : Body) (a b : A) :
  credential <> BodyNull ->
  match credential with
  | BodyNull => a
  | _ => b
  end = b.
Proof. destruct credential; congruence. Qed.

(** The failure report of a [catch] block, once the loop holds a lease. *)
Lemma reportFailure_posts platform text cooldown s this lease :
  apiClient s = Some this ->
  activeCredentials this !! platform = Some lease ->
  exists s',
    reportFailure env platform text cooldown s = (Returned tt, s') /\
    trace s' = (trace s ++ [EvFetch (failure_report this lease text cooldown)
                              (env_fetch env (trace s)
                                 (failure_report this lease text cooldown))])%list.
Proof.
  intros Hclient Hheld.
  destruct (report_posts env platform "/failure" (FailureBody text cooldown) s this lease
              Hclient Hheld) as (s' & Hrun & Htr & _).
  exists s'. split; assumption.
Qed.

Lemma linkedin_failure_continues jobTitle location sessionId fuel lastError
    s credential s1 error flag :
  poll_credential env "linkedin" sessionId maxCredentialRetries 0 s
    = (Returned credential, s1) ->
  credential <> BodyNull ->
  env_collab env (trace s1) (mkCollabCall "linkedin" jobTitle location (Some credential))
    = ScrapeFailed error flag ->
  exists this lease text res s3,
    apiClient s1 = Some this /\
    activeCredentials this !! "linkedin" = Some lease /\
    ac_data lease = credential /\
    trace s3 = (trace s1 ++
                [EvCollab (mkCollabCall "linkedin" jobTitle location (Some credential))
                          (ScrapeFailed error flag);
                 EvFetch (failure_report this lease text
                            (spec_cooldownMinutes (classify_linkedin (message error))))
                         res])%list /\
    linkedin_attempts env (S fuel) lastError jobTitle location sessionId s
    = linkedin_attempts env fuel (Some error) jobTitle location sessionId s3.
Proof.
  intros Hpoll Hnonnull Hcollab.
  destruct (poll_credential_holds env _ _ _ _ _ _ _ Hpoll Hnonnull)
    as (this & id & Hclient & Hheld).
  cbn [linkedin_attempts]. unfold mbind, M_bind, bind. rewrite Hpoll.
  rewrite (nonnull_branch credential _ _ Hnonnull).
  unfold collab, emit. cbn. rewrite Hcollab. cbn.
  set (s2 := mkState _ (apiClient s1) (isProcessingQueue s1)).
  assert (Hreport : forall text cooldown,
    exists s3,
      reportFailure env "linkedin" text cooldown s2 = (Returned tt, s3) /\
      trace s3 = (trace s2 ++ [EvFetch (failure_report this (mkActive id credential)
                                          text cooldown)
                                 (env_fetch env (trace s2)
                                    (failure_report this (mkActive id credential)
                                       text cooldown))])%list).
  { intros text cooldown. eapply reportFailure_posts; eassumption. }
  unfold linkedin_on_error. cbn [negb].
  destruct (classify_linkedin (message error)); cbn [spec_cooldownMinutes];
    match goal with
    | |- context [reportFailure env "linkedin" ?text ?cooldown s2] =>
        destruct (Hreport text cooldown) as (s3 & Hrun & Htr);
        exists this, (mkActive id credential), text; eexists; exists s3
    end;
    (split; [exact Hclient|]); (split; [exact Hheld|]); (split; [reflexivity|]);
    (split; [rewrite Htr; subst s2; cbn; rewrite <- app_assoc; reflexivity|]);
    rewrite Hrun; reflexivity.
Qed.

Lemma techfetch_failure_continues jobTitle location sessionId fuel lastError
    s credential s1 error :
  poll_credential env "techfetch" sessionId maxCredentialRetries 0 s
    = (Returned credential, s1) ->
  credential <> BodyNull ->
  env_collab env (trace s1) (mkCollabCall "techfetch" jobTitle location (Some credential))
    = ScrapeFailed error false ->
  exists this lease text res s3,
    apiClient s1 = Some this /\
    activeCredentials this !! "techfetch" = Some lease /\
    ac_data lease = credential /\
    trace s3 = (trace s1 ++
                [EvCollab (mkCollabCall "techfetch" jobTitle location (Some credential))
                          (ScrapeFailed error false);
                 EvFetch (failure_report this lease text
                            (spec_cooldownMinutes (classify_techfetch (message error))))
                         res])%list /\
    techfetch_attempts env (S fuel) lastError jobTitle location sessionId s
    = techfetch_attempts env fuel (Some error) jobTitle location sessionId s3.
Proof.
  intros Hpoll Hnonnull Hcollab.
  destruct (poll_credential_holds env _ _ _ _ _ _ _ Hpoll Hnonnull)
    as (this & id & Hclient & Hheld).
  cbn [techfetch_attempts]. unfold mbind, M_bind, bind. rewrite Hpoll.
  rewrite (nonnull_branch credential _ _ Hnonnull).
  unfold collab, emit. cbn. rewrite Hcollab. cbn.
  set (s2 := mkState _ (apiClient s1) (isProcessingQueue s1)).
  assert (Hreport : forall text cooldown,
    exists s3,
      reportFailure env "techfetch" text cooldown s2 = (Returned tt, s3) /\
      trace s3 = (trace s2 ++ [EvFetch (failure_report this (mkActive id credential)
                                          text cooldown)
                                 (env_fetch env (trace s2)
                                    (failure_report this (mkActive id credential)
                                       text cooldown))])%list).
  { intros text cooldown. eapply reportFailure_posts; eassumption. }
  unfold techfetch_on_error. cbn [negb].
  destruct (classify_techfetch (message error)); cbn [spec_cooldownMinutes];
    match goal with
    | |- context [reportFailure env "techfetch" ?text ?cooldown s2] =>
        destruct (Hreport text cooldown) as (s3 & Hrun & Htr);
        exists this, (mkActive id credential), text; eexists; exists s3
    end;
    (split; [exact Hclient|]); (split; [exact Hheld|]); (split; [reflexivity|]);
    (split; [rewrite Htr; subst s2; cbn; rewrite <- app_assoc; reflexivity|]);
    rewrite Hrun; reflexivity.
Qed.

Lemma glassdoor_failure_rethrown jobTitle location sessionId s credential s1 error :
  getCredential env "glassdoor" sessionId s = (Returned credential, s1) ->
  credential <> BodyNull ->
  env_setup env (trace s1) "glassdoor" = Returned tt ->
  env_collab env (trace s1 ++ [EvSetup "glassdoor" (Returned tt)])
             (mkCollabCall "glassdoor" jobTitle location (Some credential))
    = ScrapeFailed error false ->
  exists this lease text res s3,
    apiClient s1 = Some this /\
    activeCredentials this !! "glassdoor" = Some lease /\
    ac_data lease = credential /\
    trace s3 = (trace s1 ++
                [EvSetup "glassdoor" (Returned tt);
                 EvCollab (mkCollabCall "glassdoor" jobTitle location (Some credential))
                          (ScrapeFailed error false);
                 EvFetch (failure_report this lease text
                            (glassdoor_cooldownMinutes (classify_glassdoor (message error))))
                         res])%list /\
    scrapeGlassdoor env jobTitle location sessionId s = (Thrown error, s3).
Proof.
  intros Hget Hnonnull Hsetup Hcollab.
  destruct (getCredential_sets_active env _ _ _ _ _ Hget Hnonnull)
    as (this0 & id & Hs & Hclient).
  set (this := mkClient (apiBaseUrl this0) (clientApiKey this0)
                 (<["glassdoor" := mkActive id credential]> (activeCredentials this0)))
    in Hclient.
  assert (Hheld : activeCredentials this !! "glassdoor" = Some (mkActive id credential)).
  { apply lookup_insert_eq. }
  unfold scrapeGlassdoor, mbind, M_bind, bind.
  unfold getCredentialsAPIClient at 1. rewrite Hs, Hget.
  rewrite (nonnull_branch credential _ _ Hnonnull).
  unfold setup, collab, emit. cbn. rewrite Hsetup. cbn. rewrite Hcollab. cbn.
  set (s2 := mkState _ (apiClient s1) (isProcessingQueue s1)).
  assert (Hreport : forall text cooldown,
    exists s3,
      reportFailure env "glassdoor" text cooldown s2 = (Returned tt, s3) /\
      trace s3 = (trace s2 ++ [EvFetch (failure_report this (mkActive id credential)
                                          text cooldown)
                                 (env_fetch env (trace s2)
                                    (failure_report this (mkActive id credential)
                                       text cooldown))])%list).
  { intros text cooldown. eapply reportFailure_posts; eassumption. }
  unfold glassdoor_on_error. cbn [negb].
  destruct (classify_glassdoor (message error)); cbn [glassdoor_cooldownMinutes];
    match goal with
    | |- context [reportFailure env "glassdoor" ?text ?cooldown s2] =>
        destruct (Hreport text cooldown) as (s3 & Hrun & Htr);
        exists this, (mkActive id credential), text; eexists; exists s3
    end;
    (split; [exact Hclient|]); (split; [exact Hheld|]); (split; [reflexivity|]);
    (split; [rewrite Htr; subst s2; cbn; rewrite <- !app_assoc; reflexivity|]);
    rewrite Hrun; reflexivity.
Qed.

End CredentialFailures.

(** C8. In scrapeLinkedIn and scrapeTechFetch, when an attempt with an
    acquired credential fails before loginSuccess is set, the failure is
    reported for the held lease with cooldown 0 (credential-invalid),
    60 (rate-limited) or 0 (anything else), and the outer loop goes on to
    its next round with this error as lastError.  scrapeGlassdoor reports
    0, 60 and 30 instead, and rethrows the error without a further
    credential. *)
Theorem credential_failure_cooldowns (Job FormattedJob : Type) :
  (forall (env : Env Job FormattedJob) jobTitle location sessionId fuel lastError
          s credential s1 error flag,
      poll_credential env "linkedin" sessionId maxCredentialRetries 0 s
        = (Returned credential, s1) ->
      credential <> BodyNull ->
      env_collab env (trace s1)
                 (mkCollabCall "linkedin" jobTitle location (Some credential))
        = ScrapeFailed error flag ->
      exists this lease text res s3,
        apiClient s1 = Some this /\
        activeCredentials this !! "linkedin" = Some lease /\
        ac_data lease = credential /\
        trace s3 = (trace s1 ++
                    [EvCollab (mkCollabCall "linkedin" jobTitle location (Some credential))
                              (ScrapeFailed error flag);
                     EvFetch (failure_report this lease text
                                (spec_cooldownMinutes (classify_linkedin (message error))))
                             res])%list /\
        linkedin_attempts env (S fuel) lastError jobTitle location sessionId s
        = linkedin_attempts env fuel (Some error) jobTitle location sessionId s3) /\
  (forall (env : Env Job FormattedJob) jobTitle location sessionId fuel lastError
          s credential s1 error,
      poll_credential env "techfetch" sessionId maxCredentialRetries 0 s
        = (Returned credential, s1) ->
      credential <> BodyNull ->
      env_collab env (trace s1)
                 (mkCollabCall "techfetch" jobTitle location (Some credential))
        = ScrapeFailed error false ->
      exists this lease text res s3,
        apiClient s1 = Some this /\
        activeCredentials this !! "techfetch" = Some lease /\
        ac_data lease = credential /\
        trace s3 = (trace s1 ++
                    [EvCollab (mkCollabCall "techfetch" jobTitle location (Some credential))
                              (ScrapeFailed error false);
                     EvFetch (failure_report this lease text
                                (spec_cooldownMinutes (classify_techfetch (message error))))
                             res])%list /\
        techfetch_attempts env (S fuel) lastError jobTitle location sessionId s
        = techfetch_attempts env fuel (Some error) jobTitle location sessionId s3) /\
  (forall (env : Env Job FormattedJob) jobTitle location sessionId
          s credential s1 error,
      getCredential env "glassdoor" sessionId s = (Returned credential, s1) ->
      credential <> BodyNull ->
      env_setup env (trace s1) "glassdoor" = Returned tt ->
      env_collab env (trace s1 ++ [EvSetup "glassdoor" (Returned tt)])
                 (mkCollabCall "glassdoor" jobTitle location (Some credential))
        = ScrapeFailed error false ->
      exists this lease text res s3,
        apiClient s1 = Some this /\
        activeCredentials this !! "glassdoor" = Some lease /\
        ac_data lease = credential /\
        trace s3 = (trace s1 ++
                    [EvSetup "glassdoor" (Returned tt);
                     EvCollab (mkCollabCall "glassdoor" jobTitle location (Some credential))
                              (ScrapeFailed error false);
                     EvFetch (failure_report this lease text
                                (glassdoor_cooldownMinutes
                                   (classify_glassdoor (message error))))
                             res])%list /\
        scrapeGlassdoor env jobTitle location sessionId s = (Thrown error, s3)).
Proof.
  split; [|split]; intros.
  - eapply linkedin_failure_continues; eassumption.
  - eapply techfetch_failure_continues; eassumption.
  - eapply glassdoor_failure_rethrown; eassumption.
Qed.

Lemma credential_failure_cooldowns_witness :
  exists this lease text res s3,
    apiClient (snd (poll_credential (Scenario.backend_env Scenario.wrong_password)
                      "linkedin" (Some "s-1") maxCredentialRetries 0 Scenario.started))
    = Some this /\
    activeCredentials this !! "linkedin" = Some lease /\
    ac_data lease = BodyCredential (mkCredential 7 "Account" "secret") /\
    trace s3
    = (trace (snd (poll_credential (Scenario.backend_env Scenario.wrong_password)
                     "linkedin" (Some "s-1") maxCredentialRetries 0 Scenario.started)) ++
       [EvCollab (mkCollabCall "linkedin" "DevOps Engineer" "New York"
                    (Some (BodyCredential (mkCredential 7 "Account" "secret"))))
                 (ScrapeFailed (mkError "Login failed: invalid password") false);
        EvFetch (failure_report this lease text
                   (spec_cooldownMinutes
                      (classify_linkedin "Login failed: invalid password")))
                res])%list /\
    linkedin_attempts (Scenario.backend_env Scenario.wrong_password) 3 None
                      "DevOps Engineer" "New York" (Some "s-1") Scenario.started
    = linkedin_attempts (Scenario.backend_env Scenario.wrong_password) 2
                        (Some (mkError "Login failed: invalid password"))
                        "DevOps Engineer" "New York" (Some "s-1") s3.
Proof.
  apply (proj1 (credential_failure_cooldowns nat nat)
           (Scenario.backend_env Scenario.wrong_password)
           "DevOps Engineer" "New York" (Some "s-1") 2%nat None Scenario.started
           (BodyCredential (mkCredential 7 "Account" "secret"))
           (snd (poll_credential (Scenario.backend_env Scenario.wrong_password)
                   "linkedin" (Some "s-1") maxCredentialRetries 0 Scenario.started))
           (mkError "Login failed: invalid password") false).
  - reflexivity.
  - discriminate.
  - reflexivity.
Defined.

(** C8 as stated fails for Glassdoor: an error that is neither
    credential-invalid nor rate-limited is reported with cooldown 30, and
    the scraper throws after the one credential it fetched. *)
Lemma glassdoor_cooldown_counterexample :
  classify_glassdoor "Navigation timeout of 60000 ms exceeded" = OtherError /\
  fst (scrapeGlassdoor (Scenario.backend_env Scenario.timing_out)
         "DevOps Engineer" "New York" (Some "s-1") Scenario.started)
  = Thrown (mkError "Navigation timeout of 60000 ms exceeded") /\
  map (fun x => req_body (fst x))
      (fetches (trace (snd (scrapeGlassdoor (Scenario.backend_env Scenario.timing_out)
                              "DevOps Engineer" "New York" (Some "s-1")
                              Scenario.started))))
  = [NoBody;
     FailureBody "Scraping error: Navigation timeout of 60000 ms exceeded" 30].
Proof. repeat split; vm_compute; reflexivity. Qed.

(** ** The auto queue checker *)

(** C10. A call of autoCheckQueue that starts a run always returns, and
    returns with the guard reset, whether runBlacklightQueue returned or
    threw; the next call then gets past the guard again. *)
Theorem guard_reset_after_run (Job FormattedJob : Type)
    (formatJobForBlacklight : Job -> string -> Outcome FormattedJob)
    (env : Env Job FormattedJob) (blacklight : option BlacklightConfig)
    (s s1 : State Job FormattedJob) :
  autoCheckQueue_enter blacklight s = Some s1 ->
  autoCheckQueue formatJobForBlacklight env blacklight s
  = (Returned tt,
     autoCheckQueue_exit (snd (runBlacklightQueue formatJobForBlacklight env blacklight s1))) /\
  isProcessingQueue (snd (autoCheckQueue formatJobForBlacklight env blacklight s)) = false /\
  autoCheckQueue_enter blacklight
    (snd (autoCheckQueue formatJobForBlacklight env blacklight s))
  = Some (set_isProcessingQueue true
            (snd (autoCheckQueue formatJobForBlacklight env blacklight s))).
Proof.
  intros Henter.
  assert (Hcfg : blacklight_configured blacklight = true).
  { unfold autoCheckQueue_enter in Henter.
    destruct (isProcessingQueue s); [discriminate|].
    destruct (blacklight_configured blacklight); [reflexivity|discriminate]. }
  unfold autoCheckQueue. rewrite Henter.
  destruct (runBlacklightQueue formatJobForBlacklight env blacklight s1) as [out s2].
  cbn. split; [reflexivity|]. split; [reflexivity|].
  unfold autoCheckQueue_enter. cbn. rewrite Hcfg. reflexivity.
Qed.

Lemma guard_reset_after_run_witness :
  fst (runBlacklightQueue Scenario.format (Scenario.backend_env Scenario.refusing)
         (Some Scenario.config) (set_isProcessingQueue true Scenario.started))
  = Thrown (mkError "Scraper already has an active session") /\
  isProcessingQueue
    (snd (autoCheckQueue Scenario.format (Scenario.backend_env Scenario.refusing)
            (Some Scenario.config) Scenario.started)) = false.
Proof.
  split; [reflexivity|].
  apply (guard_reset_after_run nat nat Scenario.format
           (Scenario.backend_env Scenario.refusing) (Some Scenario.config)
           Scenario.started (set_isProcessingQueue true Scenario.started)).
  reflexivity.
Defined.

Module SchedulerFacts.
Import Scheduler.

Section Interleaving.
Context {Job FormattedJob : Type}.
Variable blacklight : option BlacklightConfig.
Implicit Types st : Sched (Job := Job) (FormattedJob := FormattedJob).

Lemma count_origin_cons o x l :
  count_origin o (x :: l)
  = ((if origin_eqb o x then 1 else 0) + count_origin o l)%nat.
Proof.
  unfold count_origin. rewrite filter_cons.
  destruct (origin_eqb o x); destruct (decide _); try congruence; reflexivity.
Qed.

Lemma remove_one_count o o' l rest :
  remove_one o l = Some rest ->
  count_origin o' l
  = ((if origin_eqb o' o then 1 else 0) + count_origin o' rest)%nat.
Proof.
  revert rest. induction l as [|x l IH]; intros rest H; [discriminate|].
  cbn in H. destruct (origin_eqb o x) eqn:Hox.
  - injection H as <-. rewrite count_origin_cons.
    destruct o, x, o'; cbn in *; try discriminate; reflexivity.
  - destruct (remove_one o l) as [r|]; [|discriminate].
    injection H as <-. rewrite !count_origin_cons, (IH r eq_refl). lia.
Qed.

Lemma step_preserves a st st' :
  guard_tracks_timer_run st ->
  step blacklight a st = Some st' ->
  guard_tracks_timer_run st'.
Proof.
  unfold guard_tracks_timer_run. intros Hinv Hstep.
  destruct a as [| |o e|o threw]; cbn [step] in Hstep.
  - unfold autoCheckQueue_enter in Hstep.
    destruct (isProcessingQueue (server st)) eqn:Hg.
    + injection Hstep as <-. rewrite Hg. exact Hinv.
    + destruct (negb (blacklight_configured blacklight)).
      * injection Hstep as <-. rewrite Hg. exact Hinv.
      * injection Hstep as <-. cbn [running server].
        rewrite count_origin_cons, Hinv. reflexivity.
  - injection Hstep as <-. cbn [running server].
    rewrite count_origin_cons. exact Hinv.
  - destruct (remove_one o (running st)); [|discriminate].
    injection Hstep as <-. exact Hinv.
  - destruct (remove_one o (running st)) as [rest|] eqn:Hrm; [|discriminate].
    pose proof (remove_one_count o Timer _ _ Hrm) as Hcount.
    destruct o; injection Hstep as <-; cbn [running server] in *.
    + cbn in Hcount |- *. destruct (isProcessingQueue (server st)); lia.
    + cbn in Hcount. rewrite <- Hinv. lia.
Qed.

Lemma exec_preserves actions :
  forall st st',
    guard_tracks_timer_run st ->
    exec blacklight actions st = Some st' ->
    guard_tracks_timer_run st'.
Proof.
  induction actions as [|a actions IH]; intros st st' Hinv Hexec; cbn in Hexec.
  - injection Hexec as <-. exact Hinv.
  - destruct (step blacklight a st) as [st1|] eqn:Hstep; [|discriminate].
    eapply IH; [|exact Hexec]. eapply step_preserves; eassumption.
Qed.

End Interleaving.

(** C1. Of the runs started by the timer, at most one is in flight at any
    moment, whatever else happens in between.  A timer trigger that fires
    while such a run is in flight changes nothing: no run is started, no
    event is added to the trace, and the trigger leaves no mark that could
    start a run later. *)
Theorem timer_runs_never_overlap (Job FormattedJob : Type)
    (blacklight : option BlacklightConfig) (actions : list Action)
    (st : Sched (Job := Job) (FormattedJob := FormattedJob)) :
  exec blacklight actions boot = Some st ->
  (count_origin Timer (running st) <= 1)%nat /\
  (count_origin Timer (running st) = 1%nat ->
   step blacklight Tick st = Some st /\
   forall rest, exec blacklight (Tick :: rest) st = exec blacklight rest st).
Proof.
  intros Hexec.
  assert (Hinv : guard_tracks_timer_run st).
  { eapply exec_preserves; [|exact Hexec]. reflexivity. }
  unfold guard_tracks_timer_run in Hinv. split.
  - rewrite Hinv. destruct (isProcessingQueue (server st)); lia.
  - intros Hone.
    assert (Hstep : step blacklight Tick st = Some st).
    { cbn. unfold autoCheckQueue_enter.
      destruct (isProcessingQueue (server st)); [reflexivity|].
      rewrite Hinv in Hone. discriminate. }
    split; [exact Hstep|]. intros rest. cbn [exec]. rewrite Hstep. reflexivity.
Qed.

Lemma timer_runs_never_overlap_witness :
  exists st,
    exec (Job := nat) (FormattedJob := nat) (Some Scenario.config)
         [Tick; Step Timer (EvSleep 1000); Post] boot = Some st /\
    (count_origin Timer (running st) <= 1)%nat /\
    step (Some Scenario.config) Tick st = Some st.
Proof.
  eexists. split; [reflexivity|].
  split.
  - apply (timer_runs_never_overlap nat nat (Some Scenario.config)
             [Tick; Step Timer (EvSleep 1000); Post]). reflexivity.
  - apply (timer_runs_never_overlap nat nat (Some Scenario.config)
             [Tick; Step Timer (EvSleep 1000); Post]); reflexivity.
Defined.

(** C1 as stated fails: POST /scrape-queue starts a run while the timer's
    run is in flight, and the timer starts one while a run started by
    POST /scrape-queue is in flight. *)
Lemma manual_trigger_overlaps_counterexample :
  (exists st,
      exec (Job := nat) (FormattedJob := nat) (Some Scenario.config) [Tick; Post] boot
      = Some st /\
      length (running st) = 2%nat) /\
  (exists st,
      exec (Job := nat) (FormattedJob := nat) (Some Scenario.config) [Post; Tick] boot
      = Some st /\
      length (running st) = 2%nat).
Proof. split; eexists; split; reflexivity. Qed.

End SchedulerFacts.

(** * Further properties *)

(** ** The credentials client *)

Section ClientFacts.
Context {Job FormattedJob : Type}.
Variable env : Env Job FormattedJob.
Implicit Types s : State Job FormattedJob.

(** What a report does, by cases on the lease and on the answer. *)
Lemma report_cases platform suffix payload s this :
  apiClient s = Some this ->
  report env platform suffix payload s =
  match activeCredentials this !! platform with
  | None => (Returned tt, s)
  | Some lease =>
      let res := env_fetch env (trace s) (report_request this lease suffix payload) in
      (Returned tt,
       mkState (trace s ++ [EvFetch (report_request this lease suffix payload) res])
               (Some (if acknowledged res
                      then mkClient (apiBaseUrl this) (clientApiKey this)
                                    (delete platform (activeCredentials this))
                      else this))
               (isProcessingQueue s))
  end.
Proof.
  intros Hclient.
  unfold report, getCredentialsAPIClient, mbind, M_bind, bind. rewrite Hclient.
  destruct (activeCredentials this !! platform) as [lease|]; [|reflexivity].
  unfold settle, fetch, emit, report_request. cbn.
  destruct (env_fetch env (trace s) _) as [response|error]; cbn;
    [|rewrite Hclient; reflexivity].
  destruct (ok response); cbn.
  - unfold json. destruct (body response); cbn; rewrite Hclient; reflexivity.
  - unfold throw_api_error, mbind, M_bind, bind, json, api_error_text.
    destruct (body response) as [| |? ?|?|?|?|?|[?|]]; cbn; rewrite Hclient; reflexivity.
Qed.

(** X1. reportSuccess, reportFailure and releaseCredential, called for a
    platform without a tracked lease, return without a request and leave
    the client as it was. *)
Theorem reports_without_lease_are_silent platform s this :
  apiClient s = Some this ->
  held s platform = None ->
  (forall msg, reportSuccess env platform msg s = (Returned tt, s)) /\
  (forall errorMessage cooldownMinutes,
      reportFailure env platform errorMessage cooldownMinutes s = (Returned tt, s)) /\
  releaseCredential env platform s = (Returned tt, s).
Proof.
  intros Hclient Hheld. unfold held in Hheld. rewrite Hclient in Hheld.
  unfold reportSuccess, reportFailure, releaseCredential.
  repeat split; intros; rewrite (report_cases _ _ _ _ _ Hclient), Hheld; reflexivity.
Qed.

(** X2. With a lease tracked, a report is exactly one POST to the
    endpoint of that lease and the call returns whatever the backend does.
    The lease is forgotten when the backend acknowledges (2xx with a JSON
    object); on any other answer, or a network failure, it stays. *)
Theorem report_forgets_lease_when_acknowledged platform suffix payload s this lease :
  apiClient s = Some this ->
  activeCredentials this !! platform = Some lease ->
  exists s',
    report env platform suffix payload s = (Returned tt, s') /\
    trace s' = (trace s ++
                [EvFetch (report_request this lease suffix payload)
                         (env_fetch env (trace s)
                            (report_request this lease suffix payload))])%list /\
    if acknowledged (env_fetch env (trace s) (report_request this lease suffix payload))
    then held s' platform = None /\
         forall other, other <> platform -> held s' other = held s other
    else apiClient s' = apiClient s.
Proof.
  intros Hclient Hheld.
  rewrite (report_cases _ _ _ _ _ Hclient), Hheld. cbn zeta.
  eexists. split; [reflexivity|]. split; [reflexivity|].
  destruct (acknowledged _); cbn.
  - unfold held. cbn. rewrite Hclient. split; [apply lookup_delete_eq|].
    intros other Hother. apply lookup_delete_ne. congruence.
  - symmetry. exact Hclient.
Qed.

(** X3. getCredential is one GET.  When it hands out no credential, be it
    a 204, an error answer or a network failure, the tracked leases are
    as before. *)
Theorem getCredential_failure_keeps_leases platform sessionId s this :
  apiClient s = Some this ->
  exists req,
    url req = apiBaseUrl this +:+ "/api/scraper-credentials/queue/" +:+ platform
              +:+ "/next"
              +:+ match sessionId with
                  | Some sid => if truthy sid then "?session_id=" +:+ sid else ""
                  | None => ""
                  end /\
    method req = GET /\
    trace (snd (getCredential env platform sessionId s))
    = (trace s ++ [EvFetch req (env_fetch env (trace s) req)])%list /\
    match fst (getCredential env platform sessionId s) with
    | Returned BodyNull =>
        apiClient (snd (getCredential env platform sessionId s)) = apiClient s /\
        exists r, env_fetch env (trace s) req = Responded r /\ status r = 204
    | Returned credential =>
        exists r, env_fetch env (trace s) req = Responded r /\
                  ok r = true /\ body r = credential
    | Thrown e =>
        apiClient (snd (getCredential env platform sessionId s)) = apiClient s
    end.
Proof.
  intros Hclient.
  eexists (mkRequest _ GET (clientApiKey this) NoBody).
  split; [reflexivity|]. split; [reflexivity|].
  unfold getCredential, getCredentialsAPIClient, mbind, M_bind, bind. rewrite Hclient.
  unfold fetch, emit. cbn.
  destruct (env_fetch env (trace s) _) as [response|error]; cbn;
    [|split; [reflexivity|exact Hclient]].
  destruct (status response =? 204) eqn:H204; cbn.
  { split; [reflexivity|]. split; [exact Hclient|].
    eexists. split; [reflexivity|lia]. }
  destruct (ok response) eqn:Hok; cbn.
  - unfold json.
    destruct (body response) eqn:Hbody; cbn; (split; [reflexivity|]);
      first [exact Hclient | eauto].
  - unfold throw_api_error, mbind, M_bind, bind, json, api_error_text.
    destruct (body response) as [| |? ?|?|?|?|?|[?|]]; cbn;
      (split; [reflexivity|exact Hclient]).
Qed.

(** X4. Acquire, then report with the backend acknowledging: nothing is
    tracked for the platform afterwards, not even a lease that was tracked
    before the acquisition, and the other platforms are as they were. *)
Theorem acquire_then_release platform sessionId suffix payload s credential s1 :
  getCredential env platform sessionId s = (Returned credential, s1) ->
  credential <> BodyNull ->
  (forall req, method req = POST -> acknowledged (env_fetch env (trace s1) req) = true) ->
  fst (report env platform suffix payload s1) = Returned tt /\
  held (snd (report env platform suffix payload s1)) platform = None /\
  forall other, other <> platform ->
    held (snd (report env platform suffix payload s1)) other = held s other.
Proof.
  intros Hget Hnonnull Hack.
  destruct (getCredential_sets_active env _ _ _ _ _ Hget Hnonnull)
    as (this & id & Hs & Hs1).
  rewrite (report_cases _ _ _ _ _ Hs1). cbn [activeCredentials].
  rewrite lookup_insert_eq. cbn zeta. rewrite Hack by reflexivity.
  cbn. split; [reflexivity|]. unfold held. cbn. rewrite Hs. split.
  - apply lookup_delete_eq.
  - intros other Hother.
    rewrite lookup_delete_ne by congruence. apply lookup_insert_ne. congruence.
Qed.

(** One release leaves the client in place and can only drop the lease
    of its platform. *)
Lemma releaseCredential_effect platform s this :
  apiClient s = Some this ->
  exists this',
    releaseCredential env platform s
    = (Returned tt, snd (releaseCredential env platform s)) /\
    apiClient (snd (releaseCredential env platform s)) = Some this' /\
    (forall p, activeCredentials this' !! p = activeCredentials this !! p \/
               (p = platform /\ activeCredentials this' !! p = None)) /\
    ((forall history req, method req = POST ->
                          acknowledged (env_fetch env history req) = true) ->
     activeCredentials this' !! platform = None).
Proof.
  intros Hclient. unfold releaseCredential.
  rewrite (report_cases _ _ _ _ _ Hclient).
  destruct (activeCredentials this !! platform) as [lease|] eqn:Hheld.
  - cbn zeta. cbn [fst snd apiClient].
    destruct (acknowledged _) eqn:Hack.
    + eexists. split; [reflexivity|]. split; [reflexivity|]. cbn. split.
      * intros p. destruct (decide (p = platform)) as [->|Hne].
        -- right. split; [reflexivity|apply lookup_delete_eq].
        -- left. apply lookup_delete_ne. congruence.
      * intros _. apply lookup_delete_eq.
    + exists this. split; [reflexivity|]. split; [reflexivity|]. split; [auto|].
      intros Hall. rewrite Hall in Hack by reflexivity. discriminate.
  - exists this. cbn. rewrite Hclient. auto.
Qed.

(** X5. releaseAll never throws and never adds a lease.  When the backend
    acknowledges every release and [keys] covers the tracked platforms,
    nothing is tracked afterwards. *)
Theorem releaseAll_releases keys :
  forall s this,
    apiClient s = Some this ->
    fst (releaseAll env keys s) = Returned tt /\
    (forall p, held (snd (releaseAll env keys s)) p = held s p \/
               held (snd (releaseAll env keys s)) p = None) /\
    ((forall history req, method req = POST ->
                          acknowledged (env_fetch env history req) = true) ->
     (forall p, is_Some (held s p) -> p ∈ keys) ->
     forall p, held (snd (releaseAll env keys s)) p = None).
Proof.
  induction keys as [|platform rest IH]; intros s this Hclient.
  - cbn. split; [reflexivity|]. split; [auto|].
    intros _ Hcover p. destruct (held s p) eqn:Hp; [|reflexivity].
    exfalso. eapply not_elem_of_nil. apply Hcover. eauto.
  - cbn [releaseAll]. unfold mbind, M_bind, bind.
    destruct (releaseCredential_effect platform s this Hclient)
      as (this' & Hrun & Hclient' & Hshrink & Hacked).
    rewrite Hrun.
    set (s1 := snd (releaseCredential env platform s)) in *.
    destruct (IH s1 this' Hclient') as (Hret & Hmono & Hall).
    split; [exact Hret|]. split.
    + intros p. destruct (Hmono p) as [H|H]; [|right; exact H].
      rewrite H. unfold held. rewrite Hclient', Hclient.
      destruct (Hshrink p) as [H1|[_ H1]]; auto.
    + intros Hack Hcover p.
      destruct (decide (p = platform)) as [->|Hne].
      * destruct (Hmono platform) as [H|H]; [|exact H].
        rewrite H. unfold held. rewrite Hclient'. apply Hacked. exact Hack.
      * apply (Hall Hack). intros q Hq.
        assert (Hq' : is_Some (held s q)).
        { unfold held in Hq |- *. rewrite Hclient' in Hq. rewrite Hclient.
          destruct (Hshrink q) as [H1|[_ H1]]; rewrite H1 in Hq; [exact Hq|].
          destruct Hq; discriminate. }
        specialize (Hcover q Hq'). apply elem_of_cons in Hcover.
        destruct Hcover as [->|Hin]; [|exact Hin].
        exfalso. unfold held in Hq. rewrite Hclient' in Hq.
        rewrite (Hacked Hack) in Hq. destruct Hq; discriminate.
Qed.

End ClientFacts.

Lemma healthy_acknowledges platforms history (req : Request nat) :
  acknowledged (env_fetch (Scenario.backend_env (Scenario.healthy platforms)) history req)
  = true.
Proof.
  unfold Scenario.backend_env, Scenario.healthy. cbn.
  destruct (req_body req); try reflexivity.
  destruct (includes (url req) "/current-session"); [reflexivity|].
  destruct (includes (url req) "/next-role-location"); reflexivity.
Qed.

Lemma reports_without_lease_are_silent_witness :
  releaseCredential (Scenario.backend_env (Scenario.healthy [])) "glassdoor"
                    Scenario.holding = (Returned tt, Scenario.holding).
Proof.
  apply (reports_without_lease_are_silent
           (Scenario.backend_env (Scenario.healthy [])) "glassdoor" Scenario.holding
           (mkClient "https://blacklight.test" "key"
              {[ "linkedin" := mkActive (Some 1)
                   (BodyCredential (mkCredential 1 "Account" "secret")) ]})).
  - reflexivity.
  - vm_compute. reflexivity.
Defined.

Lemma report_forgets_lease_when_acknowledged_witness :
  exists s',
    report (Scenario.backend_env (Scenario.healthy [])) "linkedin" "/success"
           (SuccessBody (Some "done")) Scenario.holding = (Returned tt, s') /\
    held s' "linkedin" = None /\
    length (trace s') = 1%nat.
Proof.
  destruct (report_forgets_lease_when_acknowledged
              (Scenario.backend_env (Scenario.healthy [])) "linkedin" "/success"
              (SuccessBody (Some "done")) Scenario.holding
              (mkClient "https://blacklight.test" "key"
                 {[ "linkedin" := mkActive (Some 1)
                      (BodyCredential (mkCredential 1 "Account" "secret")) ]})
              (mkActive (Some 1) (BodyCredential (mkCredential 1 "Account" "secret")))
              eq_refl eq_refl) as (s' & Hrun & Htrace & Hheld).
  exists s'. split; [exact Hrun|]. split.
  - exact (proj1 Hheld).
  - rewrite Htrace. reflexivity.
Defined.

Lemma getCredential_failure_keeps_leases_witness :
  fst (getCredential (Scenario.backend_env Scenario.failing_credentials)
         "linkedin" (Some "s-1") Scenario.holding)
  = Thrown (mkError "API Error: Internal Server Error") /\
  apiClient (snd (getCredential (Scenario.backend_env Scenario.failing_credentials)
                    "linkedin" (Some "s-1") Scenario.holding))
  = apiClient Scenario.holding.
Proof.
  split; [reflexivity|].
  destruct (getCredential_failure_keeps_leases
              (Scenario.backend_env Scenario.failing_credentials)
              "linkedin" (Some "s-1") Scenario.holding _ eq_refl)
    as (req & _ & _ & _ & Hkeep).
  exact Hkeep.
Defined.

Lemma acquire_then_release_witness :
  held (snd (report (Scenario.backend_env (Scenario.healthy [])) "linkedin" "/release"
               NoBody
               (snd (getCredential (Scenario.backend_env (Scenario.healthy []))
                       "linkedin" (Some "s-1") Scenario.holding))))
       "linkedin" = None.
Proof.
  apply (acquire_then_release
           (Scenario.backend_env (Scenario.healthy [])) "linkedin" (Some "s-1")
           "/release" NoBody Scenario.holding
           (BodyCredential (mkCredential 1 "Account" "secret"))
           (snd (getCredential (Scenario.backend_env (Scenario.healthy []))
                   "linkedin" (Some "s-1") Scenario.holding))).
  - reflexivity.
  - discriminate.
  - intros req _. apply healthy_acknowledges.
Defined.

Lemma releaseAll_releases_witness :
  held (snd (releaseAll (Scenario.backend_env (Scenario.healthy []))
               ["linkedin"] Scenario.holding)) "linkedin" = None.
Proof.
  apply (releaseAll_releases (Scenario.backend_env (Scenario.healthy []))
           ["linkedin"] Scenario.holding _ eq_refl).
  - intros history req _. apply healthy_acknowledges.
  - intros p [lease Hp]. unfold held in Hp. cbn in Hp.
    apply lookup_singleton_Some in Hp as [<- _]. set_solver.
Defined.

(** ** Budgets of the credential loops *)

Section Budgets.
Context {Job FormattedJob : Type}.
Variable env : Env Job FormattedJob.
Implicit Types s : State Job FormattedJob.
Implicit Types evs : list (Event Job FormattedJob).

Lemma requests_app m evs1 evs2 :
  requests m (evs1 ++ evs2) = (requests m evs1 + requests m evs2)%nat.
Proof.
  induction evs1 as [|e evs1 IH]; [reflexivity|].
  destruct e; cbn; rewrite IH; lia.
Qed.

Lemma within_nil : within (Job := Job) (FormattedJob := FormattedJob) 0 0 0 0 [].
Proof. repeat split; cbn; lia. Qed.

Lemma within_app a1 g1 p1 w1 a2 g2 p2 w2 evs1 evs2 :
  within a1 g1 p1 w1 evs1 -> within a2 g2 p2 w2 evs2 ->
  within (a1 + a2) (g1 + g2) (p1 + p2) (w1 + w2) (evs1 ++ evs2).
Proof.
  intros (Ha1 & Hg1 & Hp1 & Hs1 & Hw1) (Ha2 & Hg2 & Hp2 & Hs2 & Hw2).
  unfold within.
  rewrite automation_app, !requests_app, sleeps_app, !length_app.
  repeat split; try lia.
  rewrite Hs1, Hs2 at 1. rewrite <- repeat_app. reflexivity.
Qed.

Lemma within_mono a1 g1 p1 w1 a g p w evs :
  within a1 g1 p1 w1 evs ->
  (a1 <= a)%nat -> (g1 <= g)%nat -> (p1 <= p)%nat -> (w1 <= w)%nat ->
  within a g p w evs.
Proof. intros (? & ? & ? & ? & ?) ? ? ? ?. repeat split; auto; lia. Qed.

(** Sequencing adds budgets. *)
Lemma within_bind {A B} (m : M Job FormattedJob A) (k : A -> M Job FormattedJob B)
    a1 g1 p1 w1 a2 g2 p2 w2 :
  emits m (within a1 g1 p1 w1) ->
  (forall x, emits (k x) (within a2 g2 p2 w2)) ->
  emits (m ≫= k) (within (a1 + a2) (g1 + g2) (p1 + p2) (w1 + w2)).
Proof.
  intros Hm Hk s. unfold mbind, M_bind, bind.
  destruct (Hm s) as (evs1 & Htr1 & H1).
  destruct (m s) as [[x|e] s1]; cbn in *.
  - destruct (Hk x s1) as (evs2 & Htr2 & H2).
    exists (evs1 ++ evs2)%list. rewrite Htr2, Htr1, app_assoc.
    split; [reflexivity|]. apply within_app; assumption.
  - exists evs1. split; [exact Htr1|].
    eapply within_mono; [exact H1|lia..].
Qed.

Lemma within_weaken {A} (m : M Job FormattedJob A) a1 g1 p1 w1 a g p w :
  emits m (within a1 g1 p1 w1) ->
  (a1 <= a)%nat -> (g1 <= g)%nat -> (p1 <= p)%nat -> (w1 <= w)%nat ->
  emits m (within a g p w).
Proof.
  intros Hm Ha Hg Hp Hw s. destruct (Hm s) as (evs & Htr & Hin).
  exists evs. split; [exact Htr|]. eapply within_mono; eassumption.
Qed.

(** A computation that leaves the trace alone. *)
Lemma within_silent {A} (m : M Job FormattedJob A) :
  (forall s, trace (snd (m s)) = trace s) -> emits m (within 0 0 0 0).
Proof.
  intros H s. exists []. rewrite app_nil_r. split; [apply H|apply within_nil].
Qed.

Lemma within_fetch_get (req : Request FormattedJob) :
  method req = GET -> emits (fetch env req) (within 0 1 0 0).
Proof.
  intros Hm s. exists [EvFetch req (env_fetch env (trace s) req)]. split.
  - unfold fetch, emit. cbn. destruct (env_fetch env (trace s) req); reflexivity.
  - repeat split; cbn; rewrite ?Hm; cbn; lia.
Qed.

Lemma within_fetch_post (req : Request FormattedJob) :
  method req = POST -> emits (fetch env req) (within 0 0 1 0).
Proof.
  intros Hm s. exists [EvFetch req (env_fetch env (trace s) req)]. split.
  - unfold fetch, emit. cbn. destruct (env_fetch env (trace s) req); reflexivity.
  - repeat split; cbn; rewrite ?Hm; cbn; lia.
Qed.

Lemma within_retry_wait :
  emits (Job := Job) (FormattedJob := FormattedJob) (sleep credentialRetryDelay)
        (within 0 0 0 1).
Proof.
  intros s. exists [EvSleep credentialRetryDelay]. split; [reflexivity|].
  repeat split; cbn; lia.
Qed.

Lemma within_collab call : emits (collab env call) (within 1 0 0 0).
Proof.
  intros s. exists [EvCollab call (env_collab env (trace s) call)].
  split; [reflexivity|]. repeat split; cbn; lia.
Qed.

Lemma within_setup platform : emits (setup env platform) (within 1 0 0 0).
Proof.
  intros s. exists [EvSetup platform (env_setup env (trace s) platform)].
  split; [reflexivity|]. repeat split; cbn; lia.
Qed.

Lemma getCredential_within platform sessionId :
  emits (getCredential env platform sessionId) (within 0 1 0 0).
Proof.
  intros s. unfold getCredential, getCredentialsAPIClient, mbind, M_bind, bind.
  destruct (apiClient s) as [this|].
  - set (req := mkRequest _ GET (clientApiKey this) NoBody).
    exists [EvFetch req (env_fetch env (trace s) req)]. split.
    + unfold fetch, emit. cbn. fold req.
      destruct (env_fetch env (trace s) req) as [response|error]; [|reflexivity].
      cbn. destruct (status response =? 204); [reflexivity|].
      destruct (negb (ok response)).
      * unfold throw_api_error, mbind, M_bind, bind, json, api_error_text.
        destruct (body response) as [| |? ?|?|?|?|?|[?|]]; reflexivity.
      * unfold json. destruct (body response); reflexivity.
    + repeat split; cbn; lia.
  - exists []. rewrite app_nil_r. split; [reflexivity|].
    eapply within_mono; [apply within_nil|lia..].
Qed.

Lemma report_within platform suffix payload :
  emits (report env platform suffix payload) (within 0 0 1 0).
Proof.
  intros s. destruct (apiClient s) as [this|] eqn:Hclient.
  - rewrite (report_cases env _ _ _ _ _ Hclient).
    destruct (activeCredentials this !! platform) as [lease|].
    + eexists. split; [reflexivity|]. repeat split; cbn; lia.
    + exists []. rewrite app_nil_r. split; [reflexivity|].
      eapply within_mono; [apply within_nil|lia..].
  - exists []. rewrite app_nil_r. split.
    + unfold report, getCredentialsAPIClient, mbind, M_bind, bind.
      rewrite Hclient. reflexivity.
    + eapply within_mono; [apply within_nil|lia..].
Qed.

(** The polling loop from round [credRetry] on. *)
Lemma poll_credential_within platform sessionId fuel :
  forall credRetry,
    (credRetry + fuel = maxCredentialRetries)%nat ->
    emits (poll_credential env platform sessionId fuel credRetry)
          (within 0 fuel 0 (fuel - 1)).
Proof.
  induction fuel as [|fuel IH]; intros credRetry Hsum.
  - apply within_silent. reflexivity.
  - unfold poll_credential; fold (poll_credential (Job := Job) (FormattedJob := FormattedJob)).
    eapply within_weaken;
      [apply (within_bind _ _ 0 1 0 0 0 fuel 0 (S fuel - 1));
         [apply getCredential_within|]|lia..].
    intros credential.
    assert (Hnull : emits
      ((if Nat.ltb credRetry (maxCredentialRetries - 1)
        then sleep credentialRetryDelay else mret tt);;
       poll_credential env platform sessionId fuel (S credRetry))
      (within 0 fuel 0 (S fuel - 1))).
    { unfold maxCredentialRetries in *.
      destruct (Nat.ltb credRetry (10 - 1)) eqn:Hlt.
      - apply Nat.ltb_lt in Hlt.
        eapply within_weaken;
          [apply (within_bind _ _ 0 0 0 1 0 fuel 0 (fuel - 1));
             [apply within_retry_wait|intros _; apply IH; lia]|lia..].
      - apply Nat.ltb_ge in Hlt.
        eapply within_weaken;
          [apply (within_bind _ _ 0 0 0 0 0 fuel 0 (fuel - 1));
             [apply within_silent; reflexivity|intros _; apply IH; lia]|lia..]. }
    destruct credential; first [exact Hnull | idtac];
      (eapply within_weaken; [apply within_silent; reflexivity|lia..]).
Qed.


Lemma reportSuccess_within platform notes :
  emits (reportSuccess env platform notes) (within 0 0 1 0).
Proof. apply report_within. Qed.

Lemma reportFailure_within platform reason cooldown :
  emits (reportFailure env platform reason cooldown) (within 0 0 1 0).
Proof. apply report_within. Qed.

Lemma linkedin_on_error_within loginSuccess error :
  emits (linkedin_on_error env loginSuccess error) (within 0 0 1 0).
Proof.
  unfold linkedin_on_error.
  destruct (negb loginSuccess); [destruct (classify_linkedin _)|];
    apply reportFailure_within.
Qed.

Lemma techfetch_on_error_within loginSuccess error :
  emits (techfetch_on_error env loginSuccess error) (within 0 0 1 0).
Proof.
  unfold techfetch_on_error.
  destruct (negb loginSuccess); [destruct (classify_techfetch _)|];
    apply reportFailure_within.
Qed.

Lemma glassdoor_on_error_within loginSuccess error :
  emits (glassdoor_on_error env loginSuccess error) (within 0 0 1 0).
Proof.
  unfold glassdoor_on_error.
  destruct (negb loginSuccess); [destruct (classify_glassdoor _)|].
  1-3: apply reportFailure_within.
  eapply within_weaken; [apply within_silent; reflexivity|lia..].
Qed.

Lemma throw_within {A} (e : Error) a g p w :
  emits (Job := Job) (FormattedJob := FormattedJob) (throw (A := A) e) (within a g p w).
Proof. eapply within_weaken; [apply within_silent; reflexivity|lia..]. Qed.

Lemma ret_within {A} (x : A) a g p w :
  emits (Job := Job) (FormattedJob := FormattedJob) (mret x) (within a g p w).
Proof. eapply within_weaken; [apply within_silent; reflexivity|lia..]. Qed.

Lemma linkedin_attempts_within jobTitle location sessionId fuel :
  forall lastError,
    emits (linkedin_attempts env fuel lastError jobTitle location sessionId)
          (within fuel (10 * fuel) fuel (9 * fuel)).
Proof.
  induction fuel as [|fuel IH]; intros lastError.
  - apply throw_within.
  - unfold linkedin_attempts;
      fold (linkedin_attempts (Job := Job) (FormattedJob := FormattedJob)).
    eapply within_weaken;
      [apply (within_bind _ _ 0 10 0 9 (S fuel) (10 * fuel) (S fuel) (9 * fuel));
         [apply (poll_credential_within _ _ 10 0); reflexivity|]|lia..].
    intros credential.
    assert (Hrun : forall c, emits
      (r ← collab env (mkCollabCall "linkedin" jobTitle location (Some c));
       match r with
       | Scraped normalizedPosts =>
           reportSuccess env "linkedin"
             (Some ("Scraped " +:+ pretty (length normalizedPosts)
                      +:+ " posts successfully"));;
           mret normalizedPosts
       | ScrapeFailed error _ =>
           linkedin_on_error env false error;;
           linkedin_attempts env fuel (Some error) jobTitle location sessionId
       end)
      (within (S fuel) (10 * fuel) (S fuel) (9 * fuel))).
    { intros c.
      eapply within_weaken;
        [apply (within_bind _ _ 1 0 0 0 fuel (10 * fuel) (S fuel) (9 * fuel));
           [apply within_collab|]|lia..].
      intros [normalizedPosts|error loginSuccess].
      - eapply within_weaken;
          [apply (within_bind _ _ 0 0 1 0 0 0 0 0);
             [apply reportSuccess_within|intros _; apply ret_within]|lia..].
      - eapply within_weaken;
          [apply (within_bind _ _ 0 0 1 0 fuel (10 * fuel) fuel (9 * fuel));
             [apply linkedin_on_error_within|intros _; apply IH]|lia..]. }
    destruct credential; first [apply throw_within | apply Hrun].
Qed.

Lemma techfetch_attempts_within jobTitle location sessionId fuel :
  forall lastError,
    emits (techfetch_attempts env fuel lastError jobTitle location sessionId)
          (within fuel (10 * fuel) fuel (9 * fuel)).
Proof.
  induction fuel as [|fuel IH]; intros lastError.
  - apply throw_within.
  - unfold techfetch_attempts;
      fold (techfetch_attempts (Job := Job) (FormattedJob := FormattedJob)).
    eapply within_weaken;
      [apply (within_bind _ _ 0 10 0 9 (S fuel) (10 * fuel) (S fuel) (9 * fuel));
         [apply (poll_credential_within _ _ 10 0); reflexivity|]|lia..].
    intros credential.
    assert (Hrun : forall c, emits
      (r ← collab env (mkCollabCall "techfetch" jobTitle location (Some c));
       match r with
       | Scraped normalizedJobs =>
           reportSuccess env "techfetch"
             (Some ("Scraped " +:+ pretty (length normalizedJobs)
                      +:+ " jobs successfully"));;
           mret normalizedJobs
       | ScrapeFailed error loginSuccess =>
           techfetch_on_error env loginSuccess error;;
           techfetch_attempts env fuel (Some error) jobTitle location sessionId
       end)
      (within (S fuel) (10 * fuel) (S fuel) (9 * fuel))).
    { intros c.
      eapply within_weaken;
        [apply (within_bind _ _ 1 0 0 0 fuel (10 * fuel) (S fuel) (9 * fuel));
           [apply within_collab|]|lia..].
      intros [normalizedJobs|error loginSuccess].
      - eapply within_weaken;
          [apply (within_bind _ _ 0 0 1 0 0 0 0 0);
             [apply reportSuccess_within|intros _; apply ret_within]|lia..].
      - eapply within_weaken;
          [apply (within_bind _ _ 0 0 1 0 fuel (10 * fuel) fuel (9 * fuel));
             [apply techfetch_on_error_within|intros _; apply IH]|lia..]. }
    destruct credential; first [apply throw_within | apply Hrun].
Qed.

Lemma getCredentialsAPIClient_within :
  emits (Job := Job) (FormattedJob := FormattedJob) getCredentialsAPIClient
        (within 0 0 0 0).
Proof.
  apply within_silent. intros s. unfold getCredentialsAPIClient.
  destruct (apiClient s); reflexivity.
Qed.

(** X6. One call of a credential scraper is bounded whatever the backend
    and the browser do: scrapeLinkedIn and scrapeTechFetch start the
    browser at most 3 times, ask for a credential at most 30 times, send
    at most 3 reports and wait at most 27 times, every wait being the
    60000 ms credential delay; scrapeGlassdoor sets up and scrapes once,
    asks once, reports at most once and never waits. *)
Theorem credential_scrapers_bounded jobTitle location sessionId :
  emits (scrapeLinkedIn env jobTitle location sessionId) (within 3 30 3 27) /\
  emits (scrapeTechFetch env jobTitle location sessionId) (within 3 30 3 27) /\
  emits (scrapeGlassdoor env jobTitle location sessionId) (within 2 1 1 0).
Proof.
  split; [|split].
  - unfold scrapeLinkedIn.
    apply (within_bind _ _ 0 0 0 0 3 30 3 27);
      [apply getCredentialsAPIClient_within|intros _].
    apply (linkedin_attempts_within _ _ _ 3).
  - unfold scrapeTechFetch.
    apply (within_bind _ _ 0 0 0 0 3 30 3 27);
      [apply getCredentialsAPIClient_within|intros _].
    apply (techfetch_attempts_within _ _ _ 3).
  - unfold scrapeGlassdoor.
    apply (within_bind _ _ 0 0 0 0 2 1 1 0);
      [apply getCredentialsAPIClient_within|intros _].
    apply (within_bind _ _ 0 1 0 0 2 0 1 0);
      [apply getCredential_within|intros credential].
    assert (Hrun : forall c, emits
      (setup env "glassdoor";;
       r ← collab env (mkCollabCall "glassdoor" jobTitle location (Some c));
       match r with
       | Scraped jobDetails =>
           reportSuccess env "glassdoor"
             (Some ("Scraped " +:+ pretty (length jobDetails) +:+ " jobs successfully"));;
           mret jobDetails
       | ScrapeFailed error loginSuccess =>
           glassdoor_on_error env loginSuccess error;;
           throw error
       end)
      (within 2 0 1 0)).
    { intros c.
      apply (within_bind _ _ 1 0 0 0 1 0 1 0); [apply within_setup|intros _].
      apply (within_bind _ _ 1 0 0 0 0 0 1 0); [apply within_collab|].
      intros [jobDetails|error loginSuccess].
      - apply (within_bind _ _ 0 0 1 0 0 0 0 0);
          [apply reportSuccess_within|intros _; apply ret_within].
      - apply (within_bind _ _ 0 0 1 0 0 0 0 0);
          [apply glassdoor_on_error_within|intros _; apply throw_within]. }
    destruct credential; first [apply throw_within | apply Hrun].
Qed.

End Budgets.

(** ** Credential scrapers at their edges *)

Section ScraperEdges.
Context {Job FormattedJob : Type}.
Variable env : Env Job FormattedJob.
Implicit Types s : State Job FormattedJob.

(** X7. Before initializeCredentialsAPI has run, scrapeLinkedIn,
    scrapeTechFetch and scrapeGlassdoor throw at their first statement:
    no request is sent and no browser is started. *)
Theorem credential_scrapers_need_client jobTitle location sessionId s :
  apiClient s = None ->
  let error := mkError
    "Credentials API client not initialized. Call initializeCredentialsAPI() first." in
  scrapeLinkedIn env jobTitle location sessionId s = (Thrown error, s) /\
  scrapeTechFetch env jobTitle location sessionId s = (Thrown error, s) /\
  scrapeGlassdoor env jobTitle location sessionId s = (Thrown error, s).
Proof.
  intros Hnone error.
  unfold scrapeLinkedIn, scrapeTechFetch, scrapeGlassdoor, mbind, M_bind, bind,
    getCredentialsAPIClient.
  rewrite Hnone. auto.
Qed.

(** X8. scrapeGlassdoor reports a failure only while loginSuccess is
    false.  When the browser cannot be started, or the scrape fails after
    the login, the error is rethrown with no report: no request follows
    the acquisition and the lease stays tracked. *)
Theorem glassdoor_lease_outlives_late_failure
    jobTitle location sessionId s credential s1 error :
  getCredential env "glassdoor" sessionId s = (Returned credential, s1) ->
  credential <> BodyNull ->
  env_setup env (trace s1) "glassdoor" = Thrown error \/
  (env_setup env (trace s1) "glassdoor" = Returned tt /\
   env_collab env (trace s1 ++ [EvSetup "glassdoor" (Returned tt)])
              (mkCollabCall "glassdoor" jobTitle location (Some credential))
   = ScrapeFailed error true) ->
  exists s2 evs lease,
    scrapeGlassdoor env jobTitle location sessionId s = (Thrown error, s2) /\
    trace s2 = (trace s1 ++ evs)%list /\
    fetches evs = [] /\
    held s2 "glassdoor" = Some lease /\
    ac_data lease = credential.
Proof.
  intros Hget Hnonnull Hfail.
  destruct (getCredential_sets_active env _ _ _ _ _ Hget Hnonnull)
    as (this & id & Hs & Hs1).
  unfold scrapeGlassdoor, mbind, M_bind, bind.
  unfold getCredentialsAPIClient at 1. rewrite Hs, Hget.
  rewrite (nonnull_branch credential _ _ Hnonnull).
  unfold setup, collab, emit. cbn.
  destruct Hfail as [Hsetup|[Hsetup Hcollab]].
  - rewrite Hsetup. cbn.
    eexists _, [EvSetup "glassdoor" (Thrown error)], (mkActive id credential).
    split; [reflexivity|]. split; [reflexivity|]. split; [reflexivity|].
    unfold held. cbn. rewrite Hs1. cbn. split; [apply lookup_insert_eq|reflexivity].
  - rewrite Hsetup. cbn. rewrite Hcollab. cbn.
    eexists _, [EvSetup "glassdoor" (Returned tt); EvCollab _ (ScrapeFailed error true)],
      (mkActive id credential).
    split; [reflexivity|].
    split; [cbn; rewrite <- app_assoc; reflexivity|]. split; [reflexivity|].
    unfold held. cbn. rewrite Hs1. cbn. split; [apply lookup_insert_eq|reflexivity].
Qed.

End ScraperEdges.

Lemma credential_scrapers_need_client_witness :
  scrapeLinkedIn (Scenario.backend_env (Scenario.healthy [])) "DevOps Engineer" "New York"
                 (Some "s-1") initial_state
  = (Thrown (mkError
       "Credentials API client not initialized. Call initializeCredentialsAPI() first."),
     initial_state).
Proof.
  apply (credential_scrapers_need_client (Scenario.backend_env (Scenario.healthy []))
           "DevOps Engineer" "New York" (Some "s-1") initial_state).
  reflexivity.
Defined.

Lemma glassdoor_lease_outlives_late_failure_witness :
  exists s2 evs lease,
    scrapeGlassdoor (Scenario.backend_env Cases.failing_after_login)
                    "DevOps Engineer" "New York" (Some "s-1") Scenario.started
    = (Thrown (mkError "Navigation timeout of 60000 ms exceeded"), s2) /\
    trace s2
    = (trace (snd (getCredential (Scenario.backend_env Cases.failing_after_login)
                     "glassdoor" (Some "s-1") Scenario.started)) ++ evs)%list /\
    fetches evs = [] /\
    held s2 "glassdoor" = Some lease /\
    ac_data lease = BodyCredential (mkCredential 7 "Account" "secret").
Proof.
  apply (glassdoor_lease_outlives_late_failure
           (Scenario.backend_env Cases.failing_after_login)
           "DevOps Engineer" "New York" (Some "s-1") Scenario.started
           (BodyCredential (mkCredential 7 "Account" "secret"))
           (snd (getCredential (Scenario.backend_env Cases.failing_after_login)
                   "glassdoor" (Some "s-1") Scenario.started))
           (mkError "Navigation timeout of 60000 ms exceeded")).
  - reflexivity.
  - discriminate.
  - right. split; reflexivity.
Defined.

(** ** The run as a whole *)

Section WholeRun.
Context {Job FormattedJob : Type}.
Variable formatJobForBlacklight : Job -> string -> Outcome FormattedJob.
Variable env : Env Job FormattedJob.
Implicit Types s : State Job FormattedJob.

Lemma format_all_length jobs platformName formattedJobs :
  format_all formatJobForBlacklight jobs platformName = Returned formattedJobs ->
  length formattedJobs = length jobs.
Proof.
  revert formattedJobs. induction jobs as [|job jobs IH]; intros formattedJobs; cbn.
  - intros [= <-]. reflexivity.
  - destruct (formatJobForBlacklight job platformName); [|discriminate].
    destruct (format_all _ jobs platformName); [|discriminate].
    intros [= <-]. cbn. f_equal. apply IH. reflexivity.
Qed.

Lemma record_success_counts done results platformName n :
  summary_counts done results ->
  summary_counts (S done) (record_success results platformName n n).
Proof.
  intros [Hsum Hshape]. split; [cbn; lia|].
  intros name o. cbn. destruct (decide (name = platformName)) as [->|Hne].
  - rewrite lookup_insert_eq. intros [= <-]. cbn. eauto.
  - rewrite lookup_insert_ne by congruence. apply Hshape.
Qed.

Lemma record_failure_counts done results platformName err :
  summary_counts done results ->
  summary_counts (S done) (record_failure results platformName err).
Proof.
  intros [Hsum Hshape]. split; [cbn; lia|].
  intros name o. cbn. destruct (decide (name = platformName)) as [->|Hne].
  - rewrite lookup_insert_eq. intros [= <-]. cbn. auto.
  - rewrite lookup_insert_ne by congruence. apply Hshape.
Qed.

Lemma process_platform_counts apiUrl apiKey q platformInfo done results s results' s' :
  process_platform formatJobForBlacklight env apiUrl apiKey q platformInfo results s
  = (Returned results', s') ->
  summary_counts done results ->
  summary_counts (S done) results' /\
  total_platforms results' = total_platforms results /\
  res_session_id results' = res_session_id results.
Proof.
  unfold process_platform. intros Hrun Hinv.
  set (platformName := toLowerCase (pi_name platformInfo)) in *.
  destruct (SCRAPERS env platformName) as [scraper|].
  - unfold mbind, M_bind, bind, settle in Hrun.
    destruct (scraper _ _ _ s) as [[jobs|e] s1].
    + unfold lift_outcome in Hrun.
      destruct (format_all formatJobForBlacklight jobs platformName)
        as [formattedJobs|e] eqn:Hformat.
      * destruct (submitJobs env apiUrl apiKey _ _ formattedJobs "success" None s1)
          as [[submitResponse|e] s2].
        -- destruct (read_progress submitResponse s2) as [[u|e] s3].
           ++ injection Hrun as <- _.
              rewrite (format_all_length _ _ _ Hformat).
              split; [apply record_success_counts; exact Hinv|]. auto.
           ++ unfold report_failed, mbind, M_bind, bind, settle in Hrun.
              destruct (submitJobs _ _ _ _ _ _ _ _ s3) as [o s4].
              injection Hrun as <- _.
              split; [apply record_failure_counts; exact Hinv|]. auto.
        -- unfold report_failed, mbind, M_bind, bind, settle in Hrun.
           destruct (submitJobs _ _ _ _ _ _ _ _ s2) as [o s4].
           injection Hrun as <- _.
           split; [apply record_failure_counts; exact Hinv|]. auto.
      * unfold report_failed, mbind, M_bind, bind, settle in Hrun.
        destruct (submitJobs _ _ _ _ _ _ _ _ s1) as [o s4].
        injection Hrun as <- _.
        split; [apply record_failure_counts; exact Hinv|]. auto.
    + unfold report_failed, mbind, M_bind, bind, settle in Hrun.
      destruct (submitJobs _ _ _ _ _ _ _ _ s1) as [o s4].
      injection Hrun as <- _.
      split; [apply record_failure_counts; exact Hinv|]. auto.
  - unfold mbind, M_bind, bind in Hrun.
    destruct (submitJobs _ _ _ _ _ _ _ _ s) as [[b|e] s1]; [|discriminate].
    injection Hrun as <- _.
    split; [apply record_failure_counts; exact Hinv|]. auto.
Qed.

Lemma platform_loop_counts apiUrl apiKey q platforms :
  forall done results s results' s',
    platform_loop formatJobForBlacklight env apiUrl apiKey q platforms results s
    = (Returned results', s') ->
    summary_counts done results ->
    summary_counts (done + length platforms) results' /\
    total_platforms results' = total_platforms results /\
    res_session_id results' = res_session_id results.
Proof.
  induction platforms as [|p rest IH]; intros done results s results' s' Hrun Hinv.
  - injection Hrun as <- _. rewrite Nat.add_0_r. auto.
  - cbn [platform_loop] in Hrun. unfold mbind, M_bind, bind in Hrun.
    destruct (process_platform _ _ _ _ _ p results s) as [[results1|e] s1] eqn:Hp;
      [|discriminate].
    destruct (process_platform_counts _ _ _ _ _ _ _ _ _ Hp Hinv) as (Hinv1 & Ht1 & Hid1).
    destruct (IH _ _ _ _ _ Hrun Hinv1) as (Hinv' & Ht' & Hid').
    cbn [length]. replace (done + S (length rest))%nat with (S done + length rest)%nat by lia.
    split; [exact Hinv'|]. split; congruence.
Qed.

(** X11. A session result accounts for every platform of the queue item:
    successful + failed is the length of the platform list, which is also
    total_platforms; a success entry carries equal jobs_found and
    jobs_submitted and no error, a failure entry an error and no counts. *)
Theorem session_summary_accounts_for_platforms apiUrl apiKey q s results s' :
  run_queue_item formatJobForBlacklight env apiUrl apiKey q s
  = (Returned (ResultSession results), s') ->
  (successful results + failed results = length (qi_platforms q))%nat /\
  total_platforms results = length (qi_platforms q) /\
  res_session_id results = qi_session_id q /\
  forall name o, res_platforms results !! name = Some o -> outcome_shape o.
Proof.
  unfold run_queue_item, mbind, M_bind, bind. intros Hrun.
  destruct (platform_loop _ _ _ _ _ (qi_platforms q) (initial_results q) s)
    as [[results1|e] s1] eqn:Hloop; [|discriminate].
  assert (Hinit : summary_counts 0 (initial_results q)).
  { split; [reflexivity|]. intros name o. cbn. rewrite lookup_empty. discriminate. }
  destruct (platform_loop_counts _ _ _ _ _ _ _ _ _ Hloop Hinit)
    as ([Hsum Hshape] & Ht & Hid).
  unfold complete_step, mbind, M_bind, bind, settle in Hrun.
  destruct (completeSession _ _ _ _ s1) as [[completionResponse|error] s2].
  - destruct (read_completion completionResponse s2) as [[u|error] s3];
      injection Hrun as <- _; cbn; rewrite ?Ht, ?Hid; auto.
  - injection Hrun as <- _. cbn. rewrite ?Ht, ?Hid. auto.
Qed.

End WholeRun.

Lemma session_summary_accounts_for_platforms_witness :
  exists results,
    fst (run_queue_item Scenario.format Scenario.second_try_env
           "https://blacklight.test" "key" (Scenario.item Scenario.two_platforms)
           Scenario.started) = Returned (ResultSession results) /\
    (successful results + failed results = 2)%nat /\
    total_platforms results = 2%nat.
Proof.
  destruct (run_queue_item Scenario.format Scenario.second_try_env
              "https://blacklight.test" "key" (Scenario.item Scenario.two_platforms)
              Scenario.started) as [out s'] eqn:Hrun.
  assert (Hout : exists results, out = Returned (ResultSession results)).
  { apply (f_equal fst) in Hrun. vm_compute in Hrun. subst out. eexists. reflexivity. }
  destruct Hout as (results & ->).
  destruct (session_summary_accounts_for_platforms Scenario.format Scenario.second_try_env
              "https://blacklight.test" "key" (Scenario.item Scenario.two_platforms)
              Scenario.started results s' Hrun) as (Hsum & Htotal & _).
  exists results. split; [reflexivity|]. split; [exact Hsum|exact Htotal].
Defined.

(** ** POST /scrape-queue *)

Section Route.
Context {Job FormattedJob : Type}.
Variable formatJobForBlacklight : Job -> string -> Outcome FormattedJob.
Variable env : Env Job FormattedJob.
Implicit Types s : State Job FormattedJob.

Lemma run_queue_item_result apiUrl apiKey q s :
  match fst (run_queue_item formatJobForBlacklight env apiUrl apiKey q s) with
  | Returned (ResultSession _) | Thrown _ => True
  | Returned _ => False
  end.
Proof.
  unfold run_queue_item, mbind, M_bind, bind.
  destruct (platform_loop _ _ _ _ _ _ _ s) as [[results|e] s1]; [|exact I].
  destruct (complete_step_returns env apiUrl apiKey q results s1) as (results' & -> & _).
  exact I.
Qed.

(** The three results of a run. *)
Lemma runBlacklightQueue_result blacklight s :
  match fst (runBlacklightQueue formatJobForBlacklight env blacklight s) with
  | Returned (ResultError error) =>
      error = "Active session already exists. Complete it first."
  | Returned (ResultMessage msg) => msg = "Queue is empty"
  | Returned (ResultSession _) | Thrown _ => True
  end.
Proof.
  unfold runBlacklightQueue.
  destruct (negb (blacklight_configured blacklight)); [exact I|].
  destruct blacklight as [cfg|]; [|exact I].
  unfold mbind, M_bind, bind.
  destruct (checkActiveSession _ _ _ s) as [[sessionCheck|e] s1]; [|exact I].
  assert (Hnext :
    match fst (match getNextRoleLocation env (cfg_apiUrl cfg) (cfg_apiKey cfg) s1 with
               | (Returned queueItem, s2) =>
                   match queueItem with
                   | BodyNull => mret (ResultMessage "Queue is empty")
                   | BodyQueueItem q =>
                       run_queue_item formatJobForBlacklight env
                                      (cfg_apiUrl cfg) (cfg_apiKey cfg) q
                   | _ => throw (mkError
                            "Cannot read properties of undefined (reading 'name')")
                   end s2
               | (Thrown e, s2) => (Thrown e, s2)
               end) with
    | Returned (ResultError error) =>
        error = "Active session already exists. Complete it first."
    | Returned (ResultMessage msg) => msg = "Queue is empty"
    | Returned (ResultSession _) | Thrown _ => True
    end).
  { destruct (getNextRoleLocation _ _ _ s1) as [[queueItem|e] s2]; [|exact I].
    destruct queueItem as [| |? ?|q|?|?|?|?]; try exact I; try reflexivity.
    pose proof (run_queue_item_result (cfg_apiUrl cfg) (cfg_apiKey cfg) q s2) as Hq.
    destruct (fst (run_queue_item _ _ _ _ q s2)) as [[| |]|]; auto; contradiction. }
  destruct sessionCheck as [| |[|] [| |si]|?|?|?|?|?]; try exact Hnext; try exact I.
  reflexivity.
Qed.

(** X10. POST /scrape-queue always answers, with one of three replies:
    500 with the error's message when the run threw; 409 with the
    active-session error when the run returned it; 200 otherwise, with
    the message "Queue is empty" or with the session results. *)
Theorem scrape_queue_replies blacklight s :
  exists reply,
    post_scrape_queue formatJobForBlacklight env blacklight s
    = (Returned reply, snd (runBlacklightQueue formatJobForBlacklight env blacklight s)) /\
    match fst (runBlacklightQueue formatJobForBlacklight env blacklight s) with
    | Thrown error => reply = mkReply 500 false (Some (message error)) None None
    | Returned (ResultError _) =>
        reply = mkReply 409 false
                  (Some "Active session already exists. Complete it first.") None None
    | Returned (ResultMessage _) =>
        reply = mkReply 200 true None (Some "Queue is empty") None
    | Returned (ResultSession results) =>
        reply = mkReply 200 true None (Some "Blacklight queue workflow completed")
                        (Some (ResultSession results))
    end.
Proof.
  pose proof (runBlacklightQueue_result blacklight s) as Hresult.
  unfold post_scrape_queue, mbind, M_bind, bind, settle.
  destruct (runBlacklightQueue formatJobForBlacklight env blacklight s)
    as [[[error|msg|results]|error] s1]; cbn in Hresult |- *.
  - subst error. eexists. split; reflexivity.
  - subst msg. eexists. split; reflexivity.
  - eexists. split; reflexivity.
  - eexists. split; reflexivity.
Qed.

Variable cfg : BlacklightConfig.

(** X9. On a 204 from next-role-location the run returns the message
    "Queue is empty" in the state the request left: nothing is scraped,
    submitted or completed, and POST /scrape-queue answers 200. *)
Theorem empty_queue_ends_run s sessionCheck s1 response s2 :
  blacklight_configured (Some cfg) = true ->
  checkActiveSession env (cfg_apiUrl cfg) (cfg_apiKey cfg) s
    = (Returned sessionCheck, s1) ->
  (forall flag info, sessionCheck = BodySessionCheck flag info -> flag = false) ->
  sessionCheck <> BodyNull ->
  makeApiRequest env
    (mkRequest (cfg_apiUrl cfg +:+ "/api/scraper/queue/next-role-location")
               GET (cfg_apiKey cfg) NoBody) s1 = (Returned response, s2) ->
  status response = 204 ->
  runBlacklightQueue formatJobForBlacklight env (Some cfg) s
    = (Returned (ResultMessage "Queue is empty"), s2) /\
  post_scrape_queue formatJobForBlacklight env (Some cfg) s
    = (Returned (mkReply 200 true None (Some "Queue is empty") None), s2) /\
  exists evs,
    trace s2 = (trace s ++ evs)%list /\
    automation evs = [] /\
    Forall (fun x => req_body (fst x) = NoBody /\ method (fst x) = GET) (fetches evs).
Proof.
  intros Hcfg Hcheck Hflag Hnonnull Hnext H204.
  assert (Hrun : runBlacklightQueue formatJobForBlacklight env (Some cfg) s
                 = (Returned (ResultMessage "Queue is empty"), s2)).
  { unfold runBlacklightQueue. rewrite Hcfg. cbn [negb].
    unfold mbind, M_bind, bind. rewrite Hcheck.
    assert (Hq : getNextRoleLocation env (cfg_apiUrl cfg) (cfg_apiKey cfg) s1
                 = (Returned BodyNull, s2)).
    { unfold getNextRoleLocation, mbind, M_bind, bind. rewrite Hnext, H204. reflexivity. }
    destruct sessionCheck as [| |[|] [| |si]|?|?|?|?|?]; try contradiction;
      try (rewrite Hq; reflexivity);
      specialize (Hflag _ _ eq_refl); discriminate. }
  split; [exact Hrun|]. split.
  - unfold post_scrape_queue, mbind, M_bind, bind, settle. rewrite Hrun. reflexivity.
  - pose proof (checkActiveSession_state env (cfg_apiUrl cfg) (cfg_apiKey cfg) s) as Hst.
    rewrite Hcheck in Hst. cbn in Hst.
    destruct (makeApiRequest_trace env
                (mkRequest (cfg_apiUrl cfg +:+ "/api/scraper/queue/current-session")
                           GET (cfg_apiKey cfg) NoBody) s)
      as (evs1 & Htr1 & Hauto1 & _ & Hall1 & _).
    rewrite <- Hst in Htr1.
    destruct (makeApiRequest_trace env
                (mkRequest (cfg_apiUrl cfg +:+ "/api/scraper/queue/next-role-location")
                           GET (cfg_apiKey cfg) NoBody) s1)
      as (evs2 & Htr2 & Hauto2 & _ & Hall2 & _).
    rewrite Hnext in Htr2. cbn in Htr2.
    exists (evs1 ++ evs2)%list.
    split; [rewrite Htr2, Htr1, app_assoc; reflexivity|].
    split; [rewrite automation_app, Hauto1, Hauto2; reflexivity|].
    rewrite fetches_app. apply Forall_app. split.
    + eapply Forall_impl; [exact Hall1|]. intros x ->. auto.
    + eapply Forall_impl; [exact Hall2|]. intros x ->. auto.
Qed.

End Route.

Lemma empty_queue_ends_run_witness :
  exists s2,
    runBlacklightQueue Scenario.format (Scenario.backend_env Cases.empty_queue)
                       (Some Scenario.config) Scenario.started
    = (Returned (ResultMessage "Queue is empty"), s2) /\
    post_scrape_queue Scenario.format (Scenario.backend_env Cases.empty_queue)
                      (Some Scenario.config) Scenario.started
    = (Returned (mkReply 200 true None (Some "Queue is empty") None), s2) /\
    exists evs,
      trace s2 = (trace Scenario.started ++ evs)%list /\
      automation evs = [] /\
      Forall (fun x => req_body (fst x) = NoBody /\ method (fst x) = GET) (fetches evs).
Proof.
  eexists.
  eapply (empty_queue_ends_run Scenario.format (Scenario.backend_env Cases.empty_queue)
            Scenario.config Scenario.started (BodySessionCheck false SessionNull)).
  - reflexivity.
  - reflexivity.
  - intros flag info [= <- _]. reflexivity.
  - discriminate.
  - reflexivity.
  - reflexivity.
Defined.

(** ** The guard belongs to the timer *)

Section Guard.
Context {Job FormattedJob : Type}.
Variable env : Env Job FormattedJob.
Implicit Types s : State Job FormattedJob.

Lemma ignores_guard_pure {A} (o : Outcome A) :
  ignores_guard (Job := Job) (FormattedJob := FormattedJob) (fun s => (o, s)).
Proof. intros s b. reflexivity. Qed.

Lemma ignores_guard_bind {A B} (m : M Job FormattedJob A) (k : A -> M Job FormattedJob B) :
  ignores_guard m -> (forall a, ignores_guard (k a)) -> ignores_guard (m ≫= k).
Proof.
  intros Hm Hk s b. unfold mbind, M_bind, bind.
  rewrite Hm. destruct (m s) as [[a|e] s1]; cbn; [|reflexivity].
  rewrite Hk. reflexivity.
Qed.

Lemma ignores_guard_settle {A} (m : M Job FormattedJob A) :
  ignores_guard m -> ignores_guard (settle m).
Proof. intros Hm s b. unfold settle. rewrite Hm. destruct (m s). reflexivity. Qed.

Lemma ignores_guard_emit e :
  ignores_guard (Job := Job) (FormattedJob := FormattedJob) (emit e).
Proof. intros s b. reflexivity. Qed.

Lemma ignores_guard_fetch req : ignores_guard (fetch env req).
Proof.
  intros s b. unfold fetch, emit. cbn. destruct (env_fetch env (trace s) req); reflexivity.
Qed.

Lemma ignores_guard_collab call : ignores_guard (collab env call).
Proof. intros s b. reflexivity. Qed.

Lemma ignores_guard_setup platform : ignores_guard (setup env platform).
Proof.
  intros s b. unfold setup, emit. cbn.
  destruct (env_setup env (trace s) platform); reflexivity.
Qed.

Lemma ignores_guard_client :
  ignores_guard (Job := Job) (FormattedJob := FormattedJob) getCredentialsAPIClient.
Proof.
  intros s b. unfold getCredentialsAPIClient. cbn. destruct (apiClient s); reflexivity.
Qed.

Lemma ignores_guard_update f :
  ignores_guard (Job := Job) (FormattedJob := FormattedJob) (update_active f).
Proof. intros s b. reflexivity. Qed.

Lemma ignores_guard_json (r : Response) :
  ignores_guard (Job := Job) (FormattedJob := FormattedJob) (json r).
Proof. intros s b. unfold json. destruct (body r); reflexivity. Qed.

Lemma ignores_guard_request_from req retries fuel :
  forall attempt, ignores_guard (makeApiRequest_from env fuel attempt retries req).
Proof.
  induction fuel as [|fuel IH]; intros attempt.
  - apply ignores_guard_pure.
  - cbn [makeApiRequest_from].
    apply ignores_guard_bind;
      [apply ignores_guard_settle; apply ignores_guard_fetch|intros r].
    destruct r as [response|error].
    + destruct (status response =? 429);
        [apply ignores_guard_bind; [apply ignores_guard_emit|intros _; apply IH]|].
      destruct (500 <=? status response);
        [apply ignores_guard_bind; [apply ignores_guard_emit|intros _; apply IH]|].
      apply ignores_guard_pure.
    + destruct (Nat.eqb attempt (retries - 1)); [apply ignores_guard_pure|].
      apply ignores_guard_bind; [apply ignores_guard_emit|intros _; apply IH].
Qed.

Lemma ignores_guard_request req : ignores_guard (makeApiRequest env req).
Proof. apply ignores_guard_request_from. Qed.

End Guard.

Ltac guard_step :=
  lazymatch goal with
  | |- ignores_guard (mbind _ _) => apply ignores_guard_bind; [|intros ?]
  | |- ignores_guard (mret _) => apply ignores_guard_pure
  | |- ignores_guard (ret _) => apply ignores_guard_pure
  | |- ignores_guard (throw _) => apply ignores_guard_pure
  | |- ignores_guard (lift_outcome _) => apply ignores_guard_pure
  | |- ignores_guard (settle _) => apply ignores_guard_settle
  | |- ignores_guard (json _) => apply ignores_guard_json
  | |- ignores_guard getCredentialsAPIClient => apply ignores_guard_client
  | |- ignores_guard (update_active _) => apply ignores_guard_update
  | |- ignores_guard (sleep _) => apply ignores_guard_emit
  | |- ignores_guard (fetch _ _) => apply ignores_guard_fetch
  | |- ignores_guard (makeApiRequest _ _) => apply ignores_guard_request
  | |- ignores_guard (collab _ _) => apply ignores_guard_collab
  | |- ignores_guard (setup _ _) => apply ignores_guard_setup
  | |- ignores_guard (if ?c then _ else _) => destruct c
  | |- ignores_guard (match ?x with _ => _ end) => destruct x
  end.

Section GuardedRun.
Context {Job FormattedJob : Type}.
Variable formatJobForBlacklight : Job -> string -> Outcome FormattedJob.
Variable env : Env Job FormattedJob.
Implicit Types s : State Job FormattedJob.

Lemma ignores_guard_getCredential platform sessionId :
  ignores_guard (getCredential env platform sessionId).
Proof.
  unfold getCredential, throw_api_error, api_error_text, credential_id.
  repeat guard_step.
Qed.

Lemma ignores_guard_report platform suffix payload :
  ignores_guard (report env platform suffix payload).
Proof.
  unfold report, throw_api_error, api_error_text. repeat guard_step.
Qed.

Lemma ignores_guard_poll platform sessionId fuel :
  forall credRetry, ignores_guard (poll_credential env platform sessionId fuel credRetry).
Proof.
  induction fuel as [|fuel IH]; intros credRetry.
  - apply ignores_guard_pure.
  - unfold poll_credential; fold (poll_credential (Job := Job) (FormattedJob := FormattedJob)).
    apply ignores_guard_bind; [apply ignores_guard_getCredential|].
    intros credential. destruct credential; repeat first [apply IH | guard_step].
Qed.

Lemma ignores_guard_linkedin jobTitle location sessionId fuel :
  forall lastError,
    ignores_guard (linkedin_attempts env fuel lastError jobTitle location sessionId).
Proof.
  induction fuel as [|fuel IH]; intros lastError.
  - apply ignores_guard_pure.
  - cbn [linkedin_attempts]. unfold linkedin_on_error, reportSuccess, reportFailure.
    cbn [negb].
    apply ignores_guard_bind; [apply ignores_guard_poll|].
    intros credential.
    destruct credential;
      repeat first [apply IH | apply ignores_guard_report | guard_step].
Qed.

Lemma ignores_guard_techfetch jobTitle location sessionId fuel :
  forall lastError,
    ignores_guard (techfetch_attempts env fuel lastError jobTitle location sessionId).
Proof.
  induction fuel as [|fuel IH]; intros lastError.
  - apply ignores_guard_pure.
  - cbn [techfetch_attempts]. unfold techfetch_on_error, reportSuccess, reportFailure.
    apply ignores_guard_bind; [apply ignores_guard_poll|].
    intros credential.
    destruct credential;
      repeat first [apply IH | apply ignores_guard_report | guard_step].
Qed.

Lemma ignores_guard_scraper platformName scraper jobTitle location sessionId :
  SCRAPERS env platformName = Some scraper ->
  ignores_guard (scraper jobTitle location sessionId).
Proof.
  unfold SCRAPERS. intros H.
  repeat match type of H with
         | (if String.eqb ?a ?b then _ else _) = _ =>
             destruct (String.eqb a b); [injection H as <-|]
         end; try discriminate.
  - unfold scrapeMonster, scrape_plain. repeat guard_step.
  - unfold scrapeDice, scrape_plain. repeat guard_step.
  - unfold scrapeTechFetch.
    apply ignores_guard_bind; [apply ignores_guard_client|intros _].
    apply ignores_guard_techfetch.
  - unfold scrapeLinkedIn.
    apply ignores_guard_bind; [apply ignores_guard_client|intros _].
    apply ignores_guard_linkedin.
  - unfold scrapeGlassdoor, glassdoor_on_error, reportSuccess, reportFailure.
    apply ignores_guard_bind; [apply ignores_guard_client|intros _].
    apply ignores_guard_bind; [apply ignores_guard_getCredential|intros credential].
    destruct credential; repeat first [apply ignores_guard_report | guard_step].
  - apply ignores_guard_pure.
  - apply ignores_guard_pure.
Qed.

Lemma ignores_guard_submit apiUrl apiKey sessionId platform jobs status_arg errorMessage :
  ignores_guard (submitJobs env apiUrl apiKey sessionId platform jobs status_arg
                            errorMessage).
Proof. unfold submitJobs. cbv zeta. repeat guard_step. Qed.

Lemma ignores_guard_platform apiUrl apiKey q platformInfo results :
  ignores_guard (process_platform formatJobForBlacklight env apiUrl apiKey q
                                  platformInfo results).
Proof.
  unfold process_platform, report_failed, read_progress. cbv zeta.
  destruct (SCRAPERS env (toLowerCase (pi_name platformInfo))) as [scraper|] eqn:Hscraper.
  - apply ignores_guard_bind.
    + apply ignores_guard_settle.
      apply ignores_guard_bind; [eapply ignores_guard_scraper; exact Hscraper|intros jobs].
      repeat first [apply ignores_guard_submit | guard_step].
    + intros r. repeat first [apply ignores_guard_submit | guard_step].
  - repeat first [apply ignores_guard_submit | guard_step].
Qed.

Lemma ignores_guard_loop apiUrl apiKey q platforms :
  forall results,
    ignores_guard (platform_loop formatJobForBlacklight env apiUrl apiKey q
                                 platforms results).
Proof.
  induction platforms as [|p rest IH]; intros results.
  - apply ignores_guard_pure.
  - cbn [platform_loop].
    apply ignores_guard_bind; [apply ignores_guard_platform|intros results'; apply IH].
Qed.

Lemma ignores_guard_run blacklight :
  ignores_guard (runBlacklightQueue formatJobForBlacklight env blacklight).
Proof.
  unfold runBlacklightQueue.
  destruct (negb (blacklight_configured blacklight)); [apply ignores_guard_pure|].
  destruct blacklight as [cfg|]; [|apply ignores_guard_pure].
  cbv zeta.
  assert (Hitem : forall q,
    ignores_guard (run_queue_item formatJobForBlacklight env
                                  (cfg_apiUrl cfg) (cfg_apiKey cfg) q)).
  { intros q. unfold run_queue_item.
    apply ignores_guard_bind; [apply ignores_guard_loop|intros results].
    unfold complete_step, completeSession, read_completion. repeat guard_step. }
  unfold checkActiveSession, getNextRoleLocation.
  repeat first [apply Hitem | guard_step].
Qed.

Lemma ignores_guard_route blacklight :
  ignores_guard (post_scrape_queue formatJobForBlacklight env blacklight).
Proof.
  unfold post_scrape_queue.
  apply ignores_guard_bind.
  - apply ignores_guard_settle. apply ignores_guard_run.
  - intros r. repeat guard_step.
Qed.

(** X12. Neither runBlacklightQueue nor the POST /scrape-queue route reads
    or writes isProcessingQueue: whatever the flag is when they start,
    they do the same and end with the flag unchanged.  A request to the
    route is therefore never turned away by a timer run in progress. *)
Theorem manual_run_ignores_guard blacklight s b :
  runBlacklightQueue formatJobForBlacklight env blacklight (set_isProcessingQueue b s)
  = (fst (runBlacklightQueue formatJobForBlacklight env blacklight s),
     set_isProcessingQueue b
       (snd (runBlacklightQueue formatJobForBlacklight env blacklight s))) /\
  post_scrape_queue formatJobForBlacklight env blacklight (set_isProcessingQueue b s)
  = (fst (post_scrape_queue formatJobForBlacklight env blacklight s),
     set_isProcessingQueue b
       (snd (post_scrape_queue formatJobForBlacklight env blacklight s))) /\
  isProcessingQueue (snd (post_scrape_queue formatJobForBlacklight env blacklight s))
  = isProcessingQueue s.
Proof.
  split; [apply ignores_guard_run|]. split; [apply ignores_guard_route|].
  pose proof (ignores_guard_route blacklight s (isProcessingQueue s)) as H.
  replace (set_isProcessingQueue (isProcessingQueue s) s) with s in H
    by (destruct s; reflexivity).
  apply (f_equal (fun x => isProcessingQueue (snd x))) in H. exact H.
Qed.

End GuardedRun.

(** ** File names and hashes *)

Lemma sanitize_char c :
  let c' := lower_ascii (if is_alnum c then c else "_"%char) in
  is_filename_char c' = true /\
  lower_ascii (if is_alnum c' then c' else "_"%char) = c'.
Proof. destruct c as [[] [] [] [] [] [] [] []]; vm_compute; auto. Qed.

(** X13. sanitizeFilename keeps the length of its argument, yields only
    characters of [a-z0-9_], so neither a path separator nor a dot, and
    changes nothing when applied to its own result. *)
Theorem sanitizeFilename_alphabet text :
  String.length (sanitizeFilename text) = String.length text /\
  all_chars is_filename_char (sanitizeFilename text) = true /\
  sanitizeFilename (sanitizeFilename text) = sanitizeFilename text.
Proof.
  unfold sanitizeFilename.
  induction text as [|c rest (Hlen & Hall & Hidem)]; [repeat split|].
  destruct (sanitize_char c) as [Hc Hc'].
  cbn [replace_non_alnum toLowerCase String.length all_chars].
  split; [rewrite Hlen; reflexivity|].
  split; [rewrite Hc, Hall; reflexivity|].
  rewrite Hc', Hidem. reflexivity.
Qed.

Lemma ToInt32_range x : - 2^31 <= ToInt32 x < 2^31.
Proof.
  unfold ToInt32. cbv zeta.
  pose proof (Z.mod_pos_bound x (2^32) ltac:(lia)) as Hm.
  destruct (x mod 2^32 <? 2^31) eqn:Hlt;
    [apply Z.ltb_lt in Hlt|apply Z.ltb_ge in Hlt]; lia.
Qed.

Lemma ToInt32_mod x : ToInt32 x mod 2^32 = x mod 2^32.
Proof.
  unfold ToInt32. cbv zeta.
  destruct (x mod 2^32 <? 2^31).
  - apply Z.mod_mod. lia.
  - rewrite <- (Z.mod_add _ 1 (2^32)) by lia.
    replace (x mod 2^32 - 2^32 + 1 * 2^32) with (x mod 2^32) by lia.
    apply Z.mod_mod. lia.
Qed.

Lemma shl5_mod x : shl x 5 mod 2^32 = (x * 32) mod 2^32.
Proof.
  unfold shl. rewrite ToInt32_mod, Z.shiftl_mul_pow2 by lia.
  change (2^5) with 32.
  rewrite <- Zmult_mod_idemp_l, ToInt32_mod, Zmult_mod_idemp_l. reflexivity.
Qed.

Lemma ascii_code_range c : 0 <= Z.of_nat (nat_of_ascii c) < 256.
Proof.
  pose proof (nat_ascii_bounded c). lia.
Qed.

(** One round moves the number by less than 2^31 + 256 and multiplies
    its residue by 33. *)
Lemma hash_round hash c :
  let hash' := (shl hash 5 + hash) + Z.of_nat (nat_of_ascii c) in
  hash - 2^31 <= hash' < hash + 2^31 + 256 /\
  hash' mod 2^32 = (hash * 33 + Z.of_nat (nat_of_ascii c)) mod 2^32.
Proof.
  cbv zeta. split.
  - unfold shl. pose proof (ToInt32_range (Z.shiftl (ToInt32 hash) 5)).
    pose proof (ascii_code_range c). lia.
  - rewrite <- Z.add_assoc, <- Zplus_mod_idemp_l, shl5_mod, Zplus_mod_idemp_l.
    f_equal. lia.
Qed.

Lemma hash_loop_spec str :
  forall hash reference,
    hash mod 2^32 = reference mod 2^32 ->
    hash - Z.of_nat (String.length str) * (2^31 + 256)
      <= hash_loop hash str
      <= hash + Z.of_nat (String.length str) * (2^31 + 256) /\
    hash_loop hash str mod 2^32 = djb2_from reference str mod 2^32.
Proof.
  induction str as [|c rest IH]; intros hash reference Hsame.
  - cbn. split; [lia|exact Hsame].
  - cbn [hash_loop djb2_from String.length].
    destruct (hash_round hash c) as [Hstep Hmod]. cbv zeta in Hstep, Hmod.
    destruct (IH ((shl hash 5 + hash) + Z.of_nat (nat_of_ascii c))
                 (reference * 33 + Z.of_nat (nat_of_ascii c))) as [Hbound Heq].
    { rewrite Hmod.
      rewrite <- Zplus_mod_idemp_l, <- Zmult_mod_idemp_l, Hsame,
        Zmult_mod_idemp_l, Zplus_mod_idemp_l. reflexivity. }
    split; [|exact Heq]. lia.
Qed.

Lemma digit36_is_digit d : 0 <= d < 36 -> is_digit36 (digit36 d) = true.
Proof.
  intros Hd. assert (Hcases : exists n, d = Z.of_nat n /\ (n < 36)%nat).
  { exists (Z.to_nat d). lia. }
  destruct Hcases as (n & -> & Hn).
  do 36 (destruct n as [|n]; [reflexivity|]). lia.
Qed.

Lemma toString36_from_digits fuel :
  forall n acc,
    0 <= n ->
    all_chars is_digit36 acc = true ->
    all_chars is_digit36 (toString36_from fuel n acc) = true /\
    (String.length acc <= String.length (toString36_from fuel n acc)
       <= String.length acc + fuel)%nat /\
    (fuel <> 0%nat -> String.length acc < String.length (toString36_from fuel n acc))%nat.
Proof.
  induction fuel as [|fuel IH]; intros n acc Hn Hacc.
  - cbn. split; [exact Hacc|]. split; [lia|congruence].
  - cbn [toString36_from]. cbv zeta.
    assert (Hd : all_chars is_digit36 (String (digit36 (n mod 36)) acc) = true).
    { cbn [all_chars]. rewrite digit36_is_digit, Hacc; [reflexivity|].
      apply Z.mod_pos_bound. lia. }
    destruct (n / 36 =? 0).
    + split; [exact Hd|]. cbn [String.length]. split; [lia|]. intros _. lia.
    + destruct (IH (n / 36) (String (digit36 (n mod 36)) acc)) as (Hall & Hlen & _);
        [apply Z.div_pos; lia|exact Hd|].
      cbn [String.length] in Hlen. split; [exact Hall|]. split; [lia|]. intros _. lia.
Qed.

(** X14. hashString computes djb2 modulo 2^32.  For a string of at most
    2^21 characters the running value stays below 2^53 in magnitude, so
    the additions on JavaScript numbers are exact; the result is the
    letter h followed by one to seven base-36 digits of the 32-bit
    residue of the djb2 hash. *)
Theorem hashString_is_djb2 str :
  (String.length str <= 2^21)%nat ->
  - 2^53 < hash_loop 5381 str < 2^53 /\
  ToUint32 (hash_loop 5381 str) = djb2 str mod 2^32 /\
  exists digits,
    hashString str = String "h"%char digits /\
    digits = toString36 (djb2 str mod 2^32) /\
    all_chars is_digit36 digits = true /\
    (1 <= String.length digits <= 7)%nat.
Proof.
  intros Hlen.
  destruct (hash_loop_spec str 5381 5381 eq_refl) as [Hbound Hmod].
  assert (Hn : Z.of_nat (String.length str) <= 2^21).
  { apply Nat2Z.inj_le in Hlen. rewrite Nat2Z.inj_pow in Hlen. exact Hlen. }
  split; [lia|]. split; [exact Hmod|].
  exists (toString36 (djb2 str mod 2^32)).
  split; [unfold hashString, ToUint32; rewrite Hmod; reflexivity|].
  split; [reflexivity|].
  destruct (toString36_from_digits 7 (djb2 str mod 2^32) EmptyString) as (Hall & Hl & Hpos).
  { apply Z.mod_pos_bound. lia. }
  { reflexivity. }
  split; [exact Hall|]. unfold toString36. cbn [String.length] in Hl, Hpos.
  specialize (Hpos ltac:(lia)). lia.
Qed.

Lemma hashString_is_djb2_witness :
  ToUint32 (hash_loop 5381 "https://example.com/job/1")
  = djb2 "https://example.com/job/1" mod 2^32.
Proof.
  apply (hashString_is_djb2 "https://example.com/job/1").
  apply Nat.leb_le. vm_compute. reflexivity.
Defined.

(** ** The generic retry helper *)

Section WithRetryFacts.
Context {Job FormattedJob A : Type}.
Implicit Types s : State Job FormattedJob.
Implicit Types operation : M Job FormattedJob A.

Lemma withRetry_from_spec operation platform maxRetries :
  one_step operation ->
  forall fuel attempt lastError s,
    (attempt + fuel = S maxRetries)%nat ->
    (1 <= attempt)%nat ->
    (lastError = None -> attempt = 1%nat) ->
    exists evs runs,
      trace (snd (withRetry_from fuel attempt maxRetries lastError operation platform s))
      = (trace s ++ evs)%list /\
      length (automation evs) = runs /\
      (runs <= fuel)%nat /\
      match fst (withRetry_from fuel attempt maxRetries lastError operation platform s) with
      | Returned _ =>
          (1 <= runs)%nat /\
          sleeps evs = map RETRY_CONFIG.calculateDelay (seq attempt (runs - 1))
      | Thrown error =>
          runs = fuel /\
          sleeps evs = map RETRY_CONFIG.calculateDelay (seq attempt (fuel - 1)) /\
          ((maxRetries = 0%nat /\
            error = mkError "Cannot read properties of undefined (reading 'message')") \/
           (exists last,
               error = mkError ("Operation failed after " +:+ pretty maxRetries
                                  +:+ " attempts: " +:+ message last)))
      end.
Proof.
  intros Hop. induction fuel as [|fuel IH]; intros attempt lastError s Hsum Hpos Hfirst.
  - exists [], 0%nat. rewrite app_nil_r. cbn.
    destruct lastError as [last|]; cbn.
    + repeat split; auto. right. eauto.
    + repeat split; auto. left. split; [|reflexivity].
      specialize (Hfirst eq_refl). lia.
  - cbn [withRetry_from]. unfold mbind, M_bind, bind, settle.
    destruct (Hop s) as (evs1 & Htr1 & Hsl1 & Hau1).
    destruct (Nat.ltb attempt maxRetries) eqn:Hlt;
      destruct (operation s) as [[a|error] s1]; cbn in Htr1 |- *.
    + exists evs1, 1%nat. repeat split; auto; lia.
    + apply Nat.ltb_lt in Hlt.
      * unfold sleep, emit. cbn.
        set (s2 := mkState (Job := Job) (FormattedJob := FormattedJob)
                      (trace s1 ++ [EvSleep (RETRY_CONFIG.calculateDelay attempt)])
                      (apiClient s1) (isProcessingQueue s1)).
        destruct (IH (S attempt) (Some error) s2) as (evs & runs & Htr & Hau & Hle & Hout);
          [lia|lia|discriminate|].
        exists (evs1 ++ EvSleep (RETRY_CONFIG.calculateDelay attempt) :: evs)%list, (S runs).
        split; [rewrite Htr; subst s2; cbn; rewrite Htr1, <- !app_assoc; reflexivity|].
        split; [rewrite automation_app, length_app, Hau1; cbn; rewrite Hau; reflexivity|].
        split; [lia|].
        destruct (fst (withRetry_from fuel (S attempt) maxRetries (Some error)
                         operation platform s2)) as [a|e].
        -- destruct Hout as [Hruns Hsl]. split; [lia|].
           rewrite sleeps_app, Hsl1. cbn. rewrite Hsl.
           destruct runs as [|runs]; [lia|]. cbn. rewrite Nat.sub_0_r. reflexivity.
        -- destruct Hout as (-> & Hsl & Hmsg). split; [reflexivity|].
           split; [|exact Hmsg].
           rewrite sleeps_app, Hsl1. cbn. rewrite Hsl.
           destruct fuel as [|fuel']; [lia|]. cbn. rewrite Nat.sub_0_r. reflexivity.
    + exists evs1, 1%nat. repeat split; auto; lia.
    + apply Nat.ltb_ge in Hlt. assert (fuel = 0%nat) as -> by lia.
      * exists evs1, 1%nat. cbn. rewrite Hsl1.
        split; [exact Htr1|]. split; [exact Hau1|]. split; [lia|].
        repeat split; auto. right. eauto.
Qed.

(** A run that throws is followed by its wait and the next attempt. *)
Lemma withRetry_from_thrown operation platform maxRetries fuel attempt lastError s error s1 :
  operation s = (Thrown error, s1) ->
  withRetry_from (S fuel) attempt maxRetries lastError operation platform s
  = withRetry_from fuel (S attempt) maxRetries (Some error) operation platform
      (if Nat.ltb attempt maxRetries
       then mkState (trace s1 ++ [EvSleep (RETRY_CONFIG.calculateDelay attempt)])
                    (apiClient s1) (isProcessingQueue s1)
       else s1).
Proof.
  intros Hrun. cbn [withRetry_from]. unfold mbind, M_bind, bind, settle.
  rewrite Hrun. destruct (Nat.ltb attempt maxRetries); reflexivity.
Qed.

Lemma withRetry_from_returned operation platform maxRetries fuel attempt lastError s a s1 :
  operation s = (Returned a, s1) ->
  withRetry_from (S fuel) attempt maxRetries lastError operation platform s
  = (Returned a, s1).
Proof.
  intros Hrun. cbn [withRetry_from]. unfold mbind, M_bind, bind, settle.
  rewrite Hrun. reflexivity.
Qed.

(** The runs that threw, and what the call makes of them. *)
Lemma withRetry_from_chain operation platform maxRetries :
  forall fuel attempt lastError s,
    exists errors s1,
      failed_runs operation maxRetries attempt s errors s1 /\
      match fst (withRetry_from fuel attempt maxRetries lastError operation platform s) with
      | Returned a =>
          (length errors < fuel)%nat /\
          operation s1
          = (Returned a,
             snd (withRetry_from fuel attempt maxRetries lastError operation platform s))
      | Thrown error =>
          length errors = fuel /\
          snd (withRetry_from fuel attempt maxRetries lastError operation platform s) = s1 /\
          error = retries_exhausted maxRetries
                    (match lastError with Some e => [e] | None => [] end ++ errors)
      end.
Proof.
  induction fuel as [|fuel IH]; intros attempt lastError s.
  - exists [], s. split; [constructor|]. cbn. rewrite app_nil_r.
    destruct lastError; cbn; auto.
  - destruct (operation s) as [[a|error] s1] eqn:Hrun.
    + rewrite (withRetry_from_returned _ _ _ _ _ _ _ _ _ Hrun).
      exists [], s. split; [constructor|]. split; [cbn; lia|exact Hrun].
    + rewrite (withRetry_from_thrown _ _ _ _ _ _ _ _ _ Hrun).
      set (s2 := if Nat.ltb attempt maxRetries
                 then mkState (trace s1 ++ [EvSleep (RETRY_CONFIG.calculateDelay attempt)])
                              (apiClient s1) (isProcessingQueue s1)
                 else s1).
      destruct (IH (S attempt) (Some error) s2) as (errors & s' & Hchain & Hout).
      exists (error :: errors), s'. split; [econstructor; [exact Hrun|exact Hchain]|].
      destruct (fst (withRetry_from fuel (S attempt) maxRetries (Some error)
                       operation platform s2)) as [a|e].
      * destruct Hout as [Hlen Hlast]. split; [cbn; lia|exact Hlast].
      * destruct Hout as (Hlen & Hs & He). split; [cbn; lia|]. split; [exact Hs|].
        rewrite He. unfold retries_exhausted. f_equal.
        destruct lastError as [e0|]; cbn [app]; [|reflexivity].
        destruct errors; reflexivity.
Qed.

(** X15. withRetry runs the operation until it returns, at most
    maxRetries times, and waits calculateDelay(1), calculateDelay(2), ...
    between the runs, never after the last one.  When a run returns, its
    value is returned.  When every run throws it throws "Operation failed
    after N attempts: ..." with the message of the error the last run
    threw; with maxRetries 0 the operation is not run and the throw
    statement fails on the undefined lastError instead. *)
Theorem withRetry_runs_and_waits operation platform maxRetries s :
  one_step operation ->
  exists errors s1 evs,
    failed_runs operation maxRetries 1 s errors s1 /\
    trace (snd (withRetry operation platform maxRetries s)) = (trace s ++ evs)%list /\
    (length (automation evs) <= maxRetries)%nat /\
    sleeps evs = map RETRY_CONFIG.calculateDelay (seq 1 (length (automation evs) - 1)) /\
    match fst (withRetry operation platform maxRetries s) with
    | Returned a =>
        (length errors < maxRetries)%nat /\
        (1 <= length (automation evs))%nat /\
        operation s1 = (Returned a, snd (withRetry operation platform maxRetries s))
    | Thrown error =>
        length errors = maxRetries /\
        length (automation evs) = maxRetries /\
        snd (withRetry operation platform maxRetries s) = s1 /\
        error = retries_exhausted maxRetries errors
    end.
Proof.
  intros Hop. unfold withRetry.
  destruct (withRetry_from_spec operation platform maxRetries Hop maxRetries 1 None s)
    as (evs & runs & Htr & Hau & Hle & Hout); [lia|lia|reflexivity|].
  destruct (withRetry_from_chain operation platform maxRetries maxRetries 1 None s)
    as (errors & s1 & Hchain & Hlast).
  exists errors, s1, evs. split; [exact Hchain|]. split; [exact Htr|].
  rewrite Hau. split; [exact Hle|].
  destruct (fst (withRetry_from maxRetries 1 maxRetries None operation platform s)).
  - destruct Hout as [H1 Hsl]. destruct Hlast as [Hlen Hrun]. auto.
  - destruct Hout as (-> & Hsl & _). destruct Hlast as (Hlen & Hs & He). auto.
Qed.

End WithRetryFacts.

(** The delays double from 2000 ms and stop at 30000 ms. *)
Lemma calculateDelay_schedule :
  map RETRY_CONFIG.calculateDelay (seq 1 6) = [2000; 4000; 8000; 16000; 30000; 30000].
Proof. reflexivity. Qed.

Lemma withRetry_runs_and_waits_witness :
  exists errors s1 evs,
    failed_runs rejected_login RETRY_CONFIG.MAX_RETRIES 1 Scenario.started errors s1 /\
    trace (snd (withRetry rejected_login "dice" RETRY_CONFIG.MAX_RETRIES Scenario.started))
    = (trace Scenario.started ++ evs)%list /\
    (length (automation evs) <= RETRY_CONFIG.MAX_RETRIES)%nat /\
    sleeps evs = map RETRY_CONFIG.calculateDelay (seq 1 (length (automation evs) - 1)) /\
    length errors = RETRY_CONFIG.MAX_RETRIES /\
    length (automation evs) = RETRY_CONFIG.MAX_RETRIES /\
    snd (withRetry rejected_login "dice" RETRY_CONFIG.MAX_RETRIES Scenario.started) = s1 /\
    mkError "Operation failed after 3 attempts: Login failed: invalid password"
    = retries_exhausted RETRY_CONFIG.MAX_RETRIES errors.
Proof.
  apply (withRetry_runs_and_waits rejected_login "dice" RETRY_CONFIG.MAX_RETRIES
           Scenario.started).
  intros s. eexists. split; [reflexivity|]. split; reflexivity.
Defined.

(** ** POST /scrape *)

Section ScrapeFacts.
Context {Job FormattedJob : Type}.
Variable env : Env Job FormattedJob.
Variable writeFileSync : nat -> string -> Outcome unit.
Variable baseTimestamp : string.
Variable scrape_untyped :
  string -> Param -> Param -> option string -> M Job FormattedJob (list Job).
Implicit Types s : State Job FormattedJob.
Implicit Types st : Scraping Job.

Lemma own_scraper_known platform :
  platform ∈ PLATFORMS -> exists scraper, own_scraper env platform = Some scraper.
Proof.
  intros Hin. unfold own_scraper. rewrite bool_decide_eq_true_2 by exact Hin.
  unfold PLATFORMS in Hin.
  repeat (apply elem_of_cons in Hin as [->|Hin]); try (eexists; reflexivity).
  apply elem_of_nil in Hin. contradiction.
Qed.

Lemma save_platform_cases platform jobTitle location st :
  match save_platform writeFileSync baseTimestamp platform jobTitle location st with
  | (Returned _, st') =>
      sc_platforms st' = sc_platforms st /\
      exists title place,
        jobTitle = PString title /\ location = PString place /\
        sc_savedFiles st'
        = (sc_savedFiles st ++ [platform_filename platform title place baseTimestamp])%list
  | (Thrown e, st') =>
      sc_platforms st' = sc_platforms st /\
      sc_savedFiles st' = sc_savedFiles st /\
      save_failed writeFileSync e jobTitle location
  end.
Proof.
  unfold save_platform, save_failed.
  destruct (sanitize_param jobTitle) as [title|e1] eqn:Htitle; [|auto].
  destruct (sanitize_param location) as [place|e2] eqn:Hplace; [|auto].
  cbv zeta.
  destruct (writeFileSync (sc_writes st) _) eqn:Hw; cbn; [|eauto 6].
  split; [reflexivity|].
  destruct jobTitle; try discriminate. destruct location; try discriminate.
  injection Htitle as <-. injection Hplace as <-. eauto.
Qed.

(** One iteration: the platform gets its entry and its file name, or
    savePlatformResults threw in the [catch] block. *)
Lemma scrape_platform_cases scraper platform jobTitle location sessionId st s :
  match fst (scrape_platform writeFileSync baseTimestamp scrape_untyped scraper platform
               jobTitle location sessionId true st s) with
  | Returned st' =>
      (forall name, is_Some (sc_platforms st' !! name) <->
                    name = platform \/ is_Some (sc_platforms st !! name)) /\
      exists title place,
        jobTitle = PString title /\ location = PString place /\
        sc_savedFiles st'
        = (sc_savedFiles st ++ [platform_filename platform title place baseTimestamp])%list
  | Thrown e => save_failed writeFileSync e jobTitle location
  end.
Proof.
  assert (Hset : forall st0 p name,
    sc_platforms st0 = sc_platforms st \/
    (exists p0, sc_platforms st0 = <[platform := p0]> (sc_platforms st)) ->
    is_Some (<[platform := p]> (sc_platforms st0) !! name) <->
    name = platform \/ is_Some (sc_platforms st !! name)).
  { intros st0 p name Hst0. destruct (decide (name = platform)) as [->|Hne].
    - rewrite lookup_insert_eq. split; eauto.
    - rewrite lookup_insert_ne by congruence.
      destruct Hst0 as [->|[p0 ->]]; [|rewrite lookup_insert_ne by congruence];
        split; [auto|intros [?|?]; [contradiction|assumption]
               |auto|intros [?|?]; [contradiction|assumption]]. }
  unfold scrape_platform, mbind, M_bind, bind, settle.
  destruct (call_scraper scrape_untyped scraper platform jobTitle location sessionId s)
    as [[jobs|error] s1]; cbn.
  - set (st1 := set_platform st platform (PlatformSuccess (length jobs) jobs)).
    pose proof (save_platform_cases platform jobTitle location st1) as Hsave.
    destruct (save_platform _ _ platform jobTitle location st1) as [[u|e] st2]; cbn.
    + destruct Hsave as [Hp Hf]. split; [|exact Hf].
      intros name. rewrite Hp. apply (Hset st _ name). left. reflexivity.
    + destruct Hsave as (Hp & Hkeep & _).
      set (st3 := set_platform st2 platform (handleError platform e)).
      pose proof (save_platform_cases platform jobTitle location st3) as Hsave'.
      destruct (save_platform _ _ platform jobTitle location st3) as [[u|e'] st4]; cbn.
      * destruct Hsave' as (Hp' & title & place & Htitle & Hplace & Hf'). split.
        -- intros name. rewrite Hp'. apply (Hset st2 _ name). right. eexists. exact Hp.
        -- exists title, place. split; [exact Htitle|]. split; [exact Hplace|].
           rewrite Hf'. cbn. rewrite Hkeep. reflexivity.
      * destruct Hsave' as (_ & _ & Hw). exact Hw.
  - set (st3 := set_platform st platform (handleError platform error)).
    pose proof (save_platform_cases platform jobTitle location st3) as Hsave'.
    destruct (save_platform _ _ platform jobTitle location st3) as [[u|e'] st4]; cbn.
    + destruct Hsave' as [Hp' Hf']. split; [|exact Hf'].
      intros name. rewrite Hp'. apply (Hset st _ name). left. reflexivity.
    + destruct Hsave' as (_ & _ & Hw). exact Hw.
Qed.

Lemma scrape_loop_cases jobTitle location sessionId names :
  Forall (fun p => p ∈ PLATFORMS) names ->
  forall st s,
    match fst (scrape_loop env writeFileSync baseTimestamp scrape_untyped names jobTitle
                 location sessionId true st s) with
    | Returned st' =>
        (forall name, is_Some (sc_platforms st' !! name) <->
                      name ∈ names \/ is_Some (sc_platforms st !! name)) /\
        ((names = [] /\ sc_savedFiles st' = sc_savedFiles st) \/
         exists title place,
           jobTitle = PString title /\ location = PString place /\
           sc_savedFiles st'
           = (sc_savedFiles st
              ++ map (fun p => platform_filename p title place baseTimestamp) names)%list)
    | Thrown e => names <> [] /\ save_failed writeFileSync e jobTitle location
    end.
Proof.
  induction 1 as [|p rest Hp _ IH]; intros st s.
  - cbn. split; [|auto].
    intros name. split; [auto|]. intros [Hin|H]; [|exact H].
    apply elem_of_nil in Hin. contradiction.
  - cbn [scrape_loop].
    destruct (own_scraper_known p Hp) as [scraper ->].
    unfold mbind, M_bind, bind.
    pose proof (scrape_platform_cases scraper p jobTitle location sessionId st s) as Hone.
    destruct (scrape_platform _ _ _ scraper p jobTitle location sessionId true st s)
      as [[st1|e] s1]; cbn in Hone |- *; [|split; [discriminate|exact Hone]].
    destruct Hone as (Hdom & title & place & -> & -> & Hfiles).
    specialize (IH st1 s1).
    destruct (fst (scrape_loop _ _ _ _ rest _ _ _ _ st1 s1)) as [st'|e];
      [|split; [discriminate|apply IH]].
    destruct IH as [Hdom' Hfiles']. split.
    + intros name. rewrite Hdom', Hdom, elem_of_cons. tauto.
    + right. exists title, place. split; [reflexivity|]. split; [reflexivity|].
      destruct Hfiles' as [[-> ->]|(title' & place' & Ht & Hl & ->)].
      * rewrite Hfiles. reflexivity.
      * injection Ht as <-. injection Hl as <-.
        rewrite Hfiles, <- app_assoc. reflexivity.
Qed.

Lemma validated_names platforms :
  List.filter invalid_platform platforms = [] ->
  Forall (fun p => p = "all" \/ p ∈ PLATFORMS) platforms /\
  Forall (fun p => p ∈ PLATFORMS) (platformsToScrape platforms).
Proof.
  intros Hvalid.
  assert (Hall : Forall (fun p => p = "all" \/ p ∈ PLATFORMS) platforms).
  { induction platforms as [|p rest IH]; [constructor|].
    cbn in Hvalid. destruct (invalid_platform p) eqn:Hp; [discriminate|].
    constructor; [|apply IH; exact Hvalid].
    unfold invalid_platform in Hp.
    destruct (String.eqb p "all") eqn:Heq; [left; apply String.eqb_eq; exact Heq|].
    right. cbn in Hp. apply negb_false_iff, bool_decide_eq_true in Hp. exact Hp. }
  split; [exact Hall|]. unfold platformsToScrape.
  destruct (bool_decide ("all" ∈ platforms)) eqn:Hin.
  - apply Forall_forall. auto.
  - apply bool_decide_eq_false in Hin.
    apply Forall_forall. intros x Hx. rewrite Forall_forall in Hall.
    destruct (Hall x Hx) as [->|H]; [contradiction|exact H].
Qed.


Lemma size_list_to_set_length (l : list string) :
  (size (list_to_set l : gset string) <= length l)%nat /\
  (size (list_to_set l : gset string) = length l <-> NoDup l).
Proof.
  induction l as [|x l [IHle IHiff]].
  - cbn. rewrite size_empty. split; [lia|]. split; [constructor|reflexivity].
  - cbn [list_to_set length]. destruct (decide (x ∈ l)) as [Hin|Hnotin].
    + replace ({[x]} ∪ list_to_set l : gset string) with (list_to_set l : gset string)
        by (symmetry; apply subseteq_union_1_L, singleton_subseteq_l,
              elem_of_list_to_set; exact Hin).
      split; [lia|]. split; [lia|].
      intros Hnd. apply NoDup_cons in Hnd as [Hx _]. contradiction.
    + rewrite size_union
        by (apply disjoint_singleton_l; rewrite elem_of_list_to_set; exact Hnotin).
      rewrite size_singleton.
      split; [lia|]. rewrite NoDup_cons. split.
      * intros Heq. split; [exact Hnotin|]. apply IHiff. lia.
      * intros [_ Hnd]. apply IHiff in Hnd. lia.
Qed.

Lemma success_partition (vs : list (PlatformResult Job)) :
  (length (filter (fun p => success p = true) vs)
   + length (filter (fun p => success p = false) vs) = length vs)%nat.
Proof.
  induction vs as [|p vs IH]; [reflexivity|].
  rewrite !filter_cons. destruct (success p); cbn;
    repeat (destruct (decide _) as [?|?]; try congruence); cbn; lia.
Qed.

(** X17. The summary of a /scrape run adds up: successfulPlatforms +
    failedPlatforms = completedPlatforms <= totalPlatforms, one file name
    is recorded per platform of the list, and completedPlatforms reaches
    totalPlatforms exactly when no platform is listed twice: a repeated
    platform is scraped again and its entry overwritten. *)
Theorem scrape_summary_adds_up platforms jobTitle location sessionId s results s' :
  List.filter invalid_platform platforms = [] ->
  scrapeJobs env writeFileSync baseTimestamp scrape_untyped platforms jobTitle location
    sessionId true s
  = (Returned results, s') ->
  totalPlatforms (sr_summary results) = length (platformsToScrape platforms) /\
  (successfulPlatforms (sr_summary results) + failedPlatforms (sr_summary results)
   = completedPlatforms (sr_summary results))%nat /\
  (completedPlatforms (sr_summary results) <= totalPlatforms (sr_summary results))%nat /\
  (completedPlatforms (sr_summary results) = totalPlatforms (sr_summary results)
   <-> NoDup (platformsToScrape platforms)) /\
  length (savedFiles (sr_summary results)) = totalPlatforms (sr_summary results).
Proof.
  intros Hvalid Hrun.
  destruct (validated_names platforms Hvalid) as [_ Hknown].
  unfold scrapeJobs, mbind, M_bind, bind, lift_outcome in Hrun.
  destruct (template jobTitle); [|discriminate].
  destruct (template location); [|discriminate].
  pose proof (scrape_loop_cases jobTitle location sessionId _ Hknown
                (mkScraping ∅ [] 0) s) as Hloop.
  destruct (scrape_loop _ _ _ _ _ _ _ _ _ _ s) as [[st|e] s1]; [|discriminate].
  injection Hrun as <- _. cbn in Hloop |- *. destruct Hloop as [Hdom Hfiles].
  assert (Hsize : length (platform_values (sc_platforms st))
                  = size (list_to_set (platformsToScrape platforms) : gset string)).
  { unfold platform_values. rewrite length_fmap, length_map_to_list, <- size_dom.
    f_equal. apply set_eq. intros name.
    rewrite elem_of_dom, Hdom, elem_of_list_to_set, lookup_empty.
    split; [intros [H|H]; [exact H|destruct H; discriminate]|auto]. }
  destruct (size_list_to_set_length (platformsToScrape platforms)) as [Hle Hiff].
  split; [reflexivity|]. split; [apply success_partition|].
  rewrite Hsize. split; [exact Hle|]. split; [exact Hiff|].
  destruct Hfiles as [[-> ->]|(title & place & _ & _ & ->)]; [reflexivity|].
  cbn. rewrite length_map. reflexivity.
Qed.

Lemma template_thrown value e :
  template value = Thrown e -> e = mkError "Cannot convert object to primitive value".
Proof.
  destruct value as [| |?|?|?|items|[|]]; cbn; try discriminate; [|congruence].
  destruct (forallb printable_item items); congruence.
Qed.

(** X16. POST /scrape always answers, here for a request whose strings
    are ASCII text.  A 400 leaves the server as it was: nothing is scraped
    or written.  A 200 means every requested name is "all" or an own key
    of SCRAPERS, so a name that only the prototype answers is turned away;
    the results then hold an entry for exactly the platforms scraped,
    "all" standing for the five of the table, and one file name per
    platform in list order, jobTitle and location being strings unless no
    platform was scraped.  A 500 never comes from a scraper: it is the
    TypeError of an array element without toLowerCase, the TypeError of a
    field that does not convert to a string, a failed file write, or,
    with a platform to scrape, the "text.replace is not a function" of
    sanitizeFilename on a jobTitle or location that is not a string. *)
Theorem scrape_route_validates rq s :
  ascii_request rq = true ->
  exists reply,
    fst (post_scrape env writeFileSync baseTimestamp scrape_untyped rq s)
    = Returned reply /\
    match reply with
    | BadRequest _ =>
        snd (post_scrape env writeFileSync baseTimestamp scrape_untyped rq s) = s
    | ScrapeDone results =>
        exists platforms,
          parse_platforms (rq_platform rq) = Returned platforms /\
          falsy (rq_jobTitle rq) = false /\
          rq_location rq <> PUndefined /\ rq_location rq <> PNull /\
          Forall (fun p => p = "all" \/ p ∈ PLATFORMS) platforms /\
          (forall name, is_Some (sr_platforms results !! name) <->
                        name ∈ platformsToScrape platforms) /\
          ((platformsToScrape platforms = [] /\ savedFiles (sr_summary results) = []) \/
           exists jobTitle location,
             rq_jobTitle rq = PString jobTitle /\
             rq_location rq = PString location /\
             savedFiles (sr_summary results)
             = map (fun p => platform_filename p jobTitle location baseTimestamp)
                   (platformsToScrape platforms))
    | ServerError error =>
        exists e, message e = error /\
          (parse_platforms (rq_platform rq) = Thrown e \/
           (e = mkError "Cannot convert object to primitive value" /\
            (template (rq_platform rq) = Thrown e \/
             template (rq_jobTitle rq) = Thrown e \/
             template (rq_location rq) = Thrown e)) \/
           (exists n filename, writeFileSync n filename = Thrown e) \/
           (e = mkError "text.replace is not a function" /\
            (sanitize_param (rq_jobTitle rq) = Thrown e \/
             sanitize_param (rq_location rq) = Thrown e) /\
            exists platforms,
              parse_platforms (rq_platform rq) = Returned platforms /\
              platformsToScrape platforms <> []))
    end.
Proof.
  intros _. unfold post_scrape.
  destruct (falsy (rq_platform rq)); [eexists; split; reflexivity|].
  destruct (falsy (rq_jobTitle rq)) eqn:Htitle; [eexists; split; reflexivity|].
  destruct (nullish (rq_location rq)) eqn:Hplace; [eexists; split; reflexivity|].
  cbn [orb]. unfold mbind, M_bind, bind, settle, lift_outcome.
  destruct (parse_platforms (rq_platform rq)) as [platforms|e] eqn:Hparse; cbn;
    [|eexists; split; [reflexivity|]; exists e; auto].
  destruct (List.filter invalid_platform platforms) as [|bad rest] eqn:Hvalid; cbn;
    [|eexists; split; reflexivity].
  destruct (validated_names platforms Hvalid) as [Hall Hknown].
  destruct (template (rq_platform rq)) as [u|e] eqn:Hlog1;
    [|eexists; split; [reflexivity|]; exists e; split; [reflexivity|];
      right; left; split; [apply (template_thrown _ _ Hlog1)|auto]].
  destruct (template (rq_jobTitle rq)) as [u2|e] eqn:Hlog2;
    [|eexists; split; [reflexivity|]; exists e; split; [reflexivity|];
      right; left; split; [apply (template_thrown _ _ Hlog2)|auto]].
  destruct (template (rq_location rq)) as [u3|e] eqn:Hlog3;
    [|eexists; split; [reflexivity|]; exists e; split; [reflexivity|];
      right; left; split; [apply (template_thrown _ _ Hlog3)|auto]].
  unfold scrapeJobs, mbind, M_bind, bind, lift_outcome. rewrite Hlog2, Hlog3.
  pose proof (scrape_loop_cases (rq_jobTitle rq) (rq_location rq) None _ Hknown
                (mkScraping ∅ [] 0) s) as Hloop.
  destruct (scrape_loop _ _ _ _ _ _ _ _ _ _ s) as [[st|e] s1]; cbn in Hloop |- *.
  - eexists. split; [reflexivity|]. cbn.
    exists platforms. destruct Hloop as [Hdom Hfiles].
    split; [reflexivity|]. split; [reflexivity|].
    split; [intros Hp; rewrite Hp in Hplace; discriminate|].
    split; [intros Hp; rewrite Hp in Hplace; discriminate|].
    split; [exact Hall|]. split.
    + intros name. rewrite Hdom, lookup_empty. split; [|auto].
      intros [H|H]; [exact H|destruct H; discriminate].
    + destruct Hfiles as [[Hnames ->]|Hfiles]; [left; auto|right; exact Hfiles].
  - eexists. split; [reflexivity|]. exists e. split; [reflexivity|].
    destruct Hloop as [Hnames [Hw|Hsan]]; [right; right; left; exact Hw|].
    right. right. right.
    assert (He : e = mkError "text.replace is not a function").
    { destruct Hsan as [Hsan|Hsan].
      - destruct (rq_jobTitle rq) as [| |[|]|?|?|?|?]; cbn in Hsan, Htitle; congruence.
      - destruct (rq_location rq) as [| |[|]|?|?|?|?]; cbn in Hsan, Hplace; congruence. }
    split; [exact He|]. split; [exact Hsan|]. exists platforms. auto.
Qed.

End ScrapeFacts.

Lemma scrape_summary_adds_up_witness :
  exists results,
    fst (scrapeJobs (Scenario.backend_env (Scenario.healthy [])) (fun _ _ => Returned tt)
           "2026-01-01T00-00-00-000Z" (fun _ _ _ _ => mret [])
           ["dice"; "dice"] (PString "DevOps Engineer") (PString "New York")
           None true Scenario.started) = Returned results /\
    completedPlatforms (sr_summary results) = 1%nat /\
    totalPlatforms (sr_summary results) = 2%nat /\
    length (savedFiles (sr_summary results)) = 2%nat.
Proof.
  destruct (scrapeJobs (Scenario.backend_env (Scenario.healthy [])) (fun _ _ => Returned tt)
              "2026-01-01T00-00-00-000Z" (fun _ _ _ _ => mret [])
              ["dice"; "dice"] (PString "DevOps Engineer") (PString "New York")
              None true Scenario.started) as [out s'] eqn:Hrun.
  assert (Hout : exists results, out = Returned results /\
                                 completedPlatforms (sr_summary results) = 1%nat).
  { apply (f_equal fst) in Hrun. vm_compute in Hrun. subst out.
    eexists. split; reflexivity. }
  destruct Hout as (results & -> & Hone).
  destruct (scrape_summary_adds_up (Scenario.backend_env (Scenario.healthy []))
              (fun _ _ => Returned tt) "2026-01-01T00-00-00-000Z" (fun _ _ _ _ => mret [])
              ["dice"; "dice"] (PString "DevOps Engineer") (PString "New York")
              None Scenario.started results s'
              eq_refl Hrun) as (Htotal & _ & _ & _ & Hfiles).
  exists results. split; [reflexivity|]. split; [exact Hone|].
  split; [exact Htotal|]. rewrite Hfiles. exact Htotal.
Defined.

Lemma scrape_route_validates_witness :
  fst (post_scrape (Scenario.backend_env (Scenario.healthy [])) (fun _ _ => Returned tt)
         "2026-01-01T00-00-00-000Z" (fun _ _ _ _ => mret [])
         numeric_location Scenario.started)
  = Returned (ServerError "text.replace is not a function") /\
  exists reply,
    fst (post_scrape (Scenario.backend_env (Scenario.healthy [])) (fun _ _ => Returned tt)
           "2026-01-01T00-00-00-000Z" (fun _ _ _ _ => mret [])
           numeric_location Scenario.started)
    = Returned reply.
Proof.
  split; [reflexivity|].
  destruct (scrape_route_validates (Scenario.backend_env (Scenario.healthy []))
              (fun _ _ => Returned tt) "2026-01-01T00-00-00-000Z" (fun _ _ _ _ => mret [])
              numeric_location Scenario.started eq_refl) as (reply & Hreply & _).
  exists reply. exact Hreply.
Defined.

(** ** The paging loop of scrapeMonster *)

Section MonsterFacts.
Context {Job : Type}.
Variable job_url : Job -> string.
Variable page : nat -> Outcome (list Job).

Lemma add_unique_spec requests n jobs0 :
  (n < requests)%nat -> page n = Returned jobs0 ->
  forall extractedJobs c,
    (forall job, job ∈ extractedJobs -> job ∈ jobs0) ->
    Monster.collected job_url page requests (Monster.allJobs c) (Monster.seenUrls c) ->
    (length (Monster.allJobs c) < Monster.maxJobs)%nat ->
    let c' := Monster.add_unique job_url extractedJobs c in
    Monster.collected job_url page requests (Monster.allJobs c') (Monster.seenUrls c') /\
    (length (Monster.allJobs c') <= Monster.maxJobs)%nat /\
    (Monster.newJobsCount c <= Monster.newJobsCount c')%nat /\
    (length (Monster.allJobs c') + Monster.newJobsCount c
     = length (Monster.allJobs c) + Monster.newJobsCount c')%nat.
Proof.
  intros Hn Hpage. induction extractedJobs as [|job rest IH]; intros c Hsub Hinv Hlen.
  - cbn. split; [exact Hinv|]. lia.
  - cbn [Monster.add_unique]. cbv zeta.
    assert (Hrest : forall j, j ∈ rest -> j ∈ jobs0).
    { intros j Hj. apply Hsub. apply elem_of_cons. auto. }
    destruct (negb (bool_decide (job_url job ∈ Monster.seenUrls c))
              && negb (String.eqb (job_url job) "N/A")
              && negb (String.eqb (job_url job) "")) eqn:Hnew.
    + apply andb_true_iff in Hnew as [Hnew Hempty].
      apply andb_true_iff in Hnew as [Hseen Hna].
      apply negb_true_iff, bool_decide_eq_false in Hseen.
      apply negb_true_iff, String.eqb_neq in Hna.
      apply negb_true_iff, String.eqb_neq in Hempty.
      set (c1 := Monster.mkCollected (Monster.allJobs c ++ [job])
                   ({[job_url job]} ∪ Monster.seenUrls c) (S (Monster.newJobsCount c))).
      assert (Hinv1 : Monster.collected job_url page requests (Monster.allJobs c1)
                                        (Monster.seenUrls c1)).
      { destruct Hinv as [Hnd Hall]. split.
        - cbn. rewrite map_app. apply NoDup_app. split; [exact Hnd|].
          split; [|apply NoDup_singleton].
          intros u Hu Hu'. apply list_elem_of_singleton in Hu'. subst u.
          apply list_elem_of_fmap in Hu as (j & Hj & Hin).
          rewrite Forall_forall in Hall. destruct (Hall j Hin) as [Hs _].
          rewrite <- Hj in Hs. contradiction.
        - cbn. apply Forall_app. split.
          + eapply Forall_impl; [exact Hall|]. cbn.
            intros j (Hs & H1 & H2 & H3). split; [|auto].
            apply elem_of_union. auto.
          + constructor; [|constructor]. split.
            * apply elem_of_union. left. apply elem_of_singleton. reflexivity.
            * split; [exact Hna|]. split; [exact Hempty|].
              exists n, jobs0. split; [exact Hn|]. split; [exact Hpage|].
              apply Hsub. apply elem_of_cons. auto. }
      assert (Hlen1 : length (Monster.allJobs c1) = S (length (Monster.allJobs c))).
      { cbn. rewrite length_app. cbn. lia. }
      destruct (Nat.leb Monster.maxJobs (length (Monster.allJobs c1))) eqn:Hfull.
      * split; [exact Hinv1|]. rewrite Hlen1. cbn [Monster.newJobsCount c1]. lia.
      * apply Nat.leb_gt in Hfull.
        destruct (IH c1 Hrest Hinv1 Hfull) as (Hinv' & Hle & Hcount & Hsum).
        split; [exact Hinv'|]. split; [exact Hle|].
        cbn [Monster.newJobsCount c1] in Hcount, Hsum. rewrite Hlen1 in Hsum. lia.
    + destruct (IH c Hrest Hinv Hlen) as (Hinv' & Hle & Hcount & Hsum). auto.
Qed.

Lemma collected_later requests requests' all seen :
  (requests <= requests')%nat ->
  Monster.collected job_url page requests all seen ->
  Monster.collected job_url page requests' all seen.
Proof.
  intros Hle [Hnd Hall]. split; [exact Hnd|].
  eapply Forall_impl; [exact Hall|]. cbn.
  intros j (H1 & H2 & H3 & n & jobs & Hn & Hrest). repeat split; auto.
  exists n, jobs. split; [lia|exact Hrest].
Qed.

Lemma collected_unique requests all seen :
  Monster.collected job_url page requests all seen ->
  (length all <= Monster.maxJobs)%nat ->
  Monster.unique_jobs job_url page requests (take Monster.maxJobs all).
Proof.
  intros [Hnd Hall] Hlen. rewrite take_ge by exact Hlen.
  split; [exact Hlen|]. split; [exact Hnd|].
  eapply Forall_impl; [exact Hall|]. cbn. intros j (_ & H). exact H.
Qed.

Lemma paging_spec fuel :
  forall request all seen k,
    Monster.collected job_url page request all seen ->
    (length all <= Monster.maxJobs)%nat ->
    (k < 3)%nat ->
    (3 * (Monster.maxJobs - length all) <= fuel + k)%nat ->
    exists out requests,
      Monster.paging job_url page fuel request all seen k = Some (out, requests) /\
      (request <= requests)%nat /\
      (requests <= request + (3 * (Monster.maxJobs - length all) - k))%nat /\
      match out with
      | Returned jobs => Monster.unique_jobs job_url page requests jobs
      | Thrown error => (1 <= requests)%nat /\ page (requests - 1) = Thrown error
      end.
Proof.
  induction fuel as [|fuel IH]; intros request all seen k Hinv Hle Hk Hfuel.
  - assert (Hfull : length all = Monster.maxJobs).
    { unfold Monster.maxJobs in *. lia. }
    cbn [Monster.paging]. rewrite Hfull, Nat.ltb_irrefl. cbn [negb].
    eexists _, request. split; [reflexivity|]. split; [lia|]. split; [lia|].
    apply (collected_unique request all seen Hinv). lia.
  - cbn [Monster.paging].
    destruct (Nat.ltb (length all) Monster.maxJobs) eqn:Hroom; cbn [negb].
    2:{ apply Nat.ltb_ge in Hroom.
        eexists _, request. split; [reflexivity|]. split; [lia|].
        split; [unfold Monster.maxJobs in *; lia|].
        apply (collected_unique request all seen Hinv). lia. }
    apply Nat.ltb_lt in Hroom.
    destruct (page request) as [jobs|error] eqn:Hpage.
    2:{ eexists _, (S request). split; [reflexivity|]. split; [lia|].
        split; [unfold Monster.maxJobs in *; lia|].
        split; [lia|]. cbn. rewrite Nat.sub_0_r. exact Hpage. }
    assert (Hinv1 : Monster.collected job_url page (S request) all seen)
      by (eapply collected_later; [|exact Hinv]; lia).
    destruct jobs as [|job jobs].
    { eexists _, (S request). split; [reflexivity|]. split; [lia|].
      split; [unfold Monster.maxJobs in *; lia|].
      apply (collected_unique (S request) all seen Hinv1). lia. }
    destruct (add_unique_spec (S request) request (job :: jobs) ltac:(lia) Hpage
                (job :: jobs) (Monster.mkCollected all seen 0)
                ltac:(auto) Hinv1 Hroom) as (Hinv' & Hle' & Hcount & Hsum).
    cbv zeta in Hinv', Hle', Hcount, Hsum.
    set (c := Monster.add_unique job_url (job :: jobs) (Monster.mkCollected all seen 0))
      in *.
    cbn [Monster.allJobs Monster.seenUrls Monster.newJobsCount] in Hsum, Hcount.
    assert (Hdone : forall requests',
      requests' = S request ->
      exists out requests,
        Some (Returned (take Monster.maxJobs (Monster.allJobs c)), requests')
        = Some (out, requests) /\
        (request <= requests)%nat /\
        (requests <= request + (3 * (Monster.maxJobs - length all) - k))%nat /\
        match out with
        | Returned jobs => Monster.unique_jobs job_url page requests jobs
        | Thrown error => (1 <= requests)%nat /\ page (requests - 1) = Thrown error
        end).
    { intros ? ->. eexists _, (S request). split; [reflexivity|]. split; [lia|].
      split; [unfold Monster.maxJobs in *; lia|].
      apply (collected_unique (S request) _ _ Hinv'). exact Hle'. }
    destruct (Nat.eqb (Monster.newJobsCount c) 0) eqn:Hnone.
    + apply Nat.eqb_eq in Hnone.
      destruct (Nat.leb 3 (S k)) eqn:Hthree; [apply Hdone; reflexivity|].
      apply Nat.leb_gt in Hthree.
      destruct (Nat.leb Monster.maxJobs (length (Monster.allJobs c))) eqn:Hfull;
        [apply Hdone; reflexivity|].
      destruct (IH (S request) (Monster.allJobs c) (Monster.seenUrls c) (S k)
                   Hinv' Hle' ltac:(lia) ltac:(lia))
        as (out & requests & Hrun & Hreq & Hbound & Hout).
      exists out, requests. split; [exact Hrun|]. split; [lia|]. split; [lia|exact Hout].
    + apply Nat.eqb_neq in Hnone.
      destruct (Nat.leb Monster.maxJobs (length (Monster.allJobs c))) eqn:Hfull;
        [apply Hdone; reflexivity|].
      apply Nat.leb_gt in Hfull.
      destruct (IH (S request) (Monster.allJobs c) (Monster.seenUrls c) 0%nat
                   Hinv' Hle' ltac:(lia) ltac:(unfold Monster.maxJobs in *; lia))
        as (out & requests & Hrun & Hreq & Hbound & Hout).
      exists out, requests. split; [exact Hrun|]. split; [lia|].
      split; [unfold Monster.maxJobs in *; lia|exact Hout].
Qed.

(** X18. The paging loop of scrapeMonster ends after at most 300 search
    requests, whatever the pages hold.  What it returns is at most 100
    jobs, no two with the same URL and none with the URL "N/A" or the
    empty one, each taken from a fetched page; what it throws is the
    error of its last request. *)
Theorem monster_paging_terminates :
  exists out requests,
    Monster.collect job_url page = Some (out, requests) /\
    (requests <= 300)%nat /\
    match out with
    | Returned jobs => Monster.unique_jobs job_url page requests jobs
    | Thrown error => (1 <= requests)%nat /\ page (requests - 1) = Thrown error
    end.
Proof.
  destruct (paging_spec 300 0 [] ∅ 0) as (out & requests & Hrun & _ & Hbound & Hout).
  - split; [constructor|constructor].
  - cbn. lia.
  - lia.
  - cbn. lia.
  - exists out, requests. split; [exact Hrun|]. cbn in Hbound. split; [lia|exact Hout].
Qed.

End MonsterFacts.

(** ** The search request of scrapeMonster *)

Lemma includes_comma s :
  includes s "," = negb (all_chars (fun c => negb (Monster.is_comma c)) s).
Proof.
  induction s as [|c s IH]; [reflexivity|].
  cbn [includes all_chars String.prefix]. rewrite IH. unfold Monster.is_comma.
  destruct (Ascii.eqb_spec c ","%char) as [->|Hne].
  - destruct (ascii_dec ","%char ","%char) as [_|Hne]; [|congruence].
    destruct s; reflexivity.
  - destruct (ascii_dec ","%char c) as [Heq|_]; [congruence|]. reflexivity.
Qed.

Lemma all_chars_trimStart p s : all_chars p s = true -> all_chars p (trimStart s) = true.
Proof.
  induction s as [|c s IH]; [auto|]. cbn [trimStart].
  destruct (is_space c); [|auto].
  cbn [all_chars]. intros H. apply andb_true_iff in H as [_ H]. auto.
Qed.

Lemma all_chars_trimEnd p s : all_chars p s = true -> all_chars p (trimEnd s) = true.
Proof.
  induction s as [|c s IH]; [auto|]. cbn [trimEnd all_chars].
  intros H. apply andb_true_iff in H as [Hc Hs]. specialize (IH Hs).
  destruct (trimEnd s) as [|c' t].
  - destruct (is_space c); [reflexivity|]. cbn. rewrite Hc. reflexivity.
  - cbn [all_chars] in IH |- *. rewrite Hc. exact IH.
Qed.

Lemma split_comma_pieces s :
  Forall (fun piece => all_chars (fun c => negb (Monster.is_comma c)) piece = true)
         (split_comma s).
Proof.
  induction s as [|c s IH]; [repeat constructor|].
  cbn [split_comma]. destruct (Ascii.eqb c ","%char) eqn:Hc.
  - constructor; [reflexivity|exact IH].
  - destruct (split_comma s) as [|piece pieces].
    + constructor; [|constructor]. cbn [all_chars]. unfold Monster.is_comma.
      rewrite Hc. reflexivity.
    + apply Forall_cons in IH as [Hpiece Hrest].
      constructor; [|exact Hrest]. cbn [all_chars]. rewrite Hpiece.
      unfold Monster.is_comma. rewrite Hc. reflexivity.
Qed.

Lemma toLowerCase_length s : String.length (toLowerCase s) = String.length s.
Proof. induction s as [|c s IH]; [reflexivity|]. cbn. rewrite IH. reflexivity. Qed.

(** X19. For a location of ASCII characters, the search request of
    scrapeMonster never carries a comma in its address, and its country is
    "us" or a code of two characters: with a comma in the location, the
    address is the trimmed text before the first comma and a two-character
    second part, a state abbreviation included, is sent in lower case as
    the country. *)
Theorem monster_search_location location :
  is_ascii_text location = true ->
  includes (snd (Monster.search_location location)) "," = false /\
  (fst (Monster.search_location location) = "us" \/
   String.length (fst (Monster.search_location location)) = 2%nat).
Proof.
  intros _. unfold Monster.search_location.
  destruct (includes location ",") eqn:Hcomma; cbv zeta.
  - assert (Haddress :
      includes (default EmptyString (map trim (split_comma location) !! 0%nat)) ","
      = false).
    { rewrite includes_comma. apply negb_false_iff.
      pose proof (split_comma_pieces location) as Hpieces.
      destruct (split_comma location) as [|piece pieces]; [reflexivity|].
      apply Forall_cons in Hpieces as [Hpiece _]. cbn.
      apply all_chars_trimEnd, all_chars_trimStart. exact Hpiece. }
    destruct (map trim (split_comma location) !! 1%nat) as [part|]; cbn.
    + destruct (truthy part && Nat.eqb (String.length part) 2) eqn:Htwo; cbn.
      * split; [exact Haddress|]. right.
        apply andb_true_iff in Htwo as [_ Hlen]. apply Nat.eqb_eq in Hlen.
        rewrite toLowerCase_length. exact Hlen.
      * split; [exact Haddress|]. auto.
    + split; [exact Haddress|]. auto.
  - cbn. split; [exact Hcomma|]. auto.
Qed.

Lemma monster_search_location_witness :
  includes (snd (Monster.search_location "New York, NY")) "," = false /\
  (fst (Monster.search_location "New York, NY") = "us" \/
   String.length (fst (Monster.search_location "New York, NY")) = 2%nat).
Proof. apply (monster_search_location "New York, NY"). reflexivity. Defined.

(** ** The singleton client *)

Section Singleton.
Context {Job FormattedJob : Type}.
Variable env : Env Job FormattedJob.
Implicit Types s : State Job FormattedJob.

(** X20. getActiveCredential reads the lease table without a request: it
    yields the credential getCredential has just handed out.
    initializeCredentialsAPI with a non-empty URL and key installs a new
    client that tracks nothing, so leases of an earlier client are
    dropped without a release request; with an empty argument it throws
    and the earlier client stays. *)
Theorem singleton_client_lifecycle :
  (forall platform sessionId s credential s1,
      getCredential env platform sessionId s = (Returned credential, s1) ->
      credential <> BodyNull ->
      getActiveCredential platform s1 = (Returned (Some credential), s1)) /\
  (forall apiBaseUrl apiKey s,
      truthy apiBaseUrl = true -> truthy apiKey = true ->
      exists s1,
        initializeCredentialsAPI apiBaseUrl apiKey s
        = (Returned (mkClient apiBaseUrl apiKey ∅), s1) /\
        trace s1 = trace s /\
        forall platform,
          getActiveCredential (Job := Job) (FormattedJob := FormattedJob) platform s1
          = (Returned None, s1)) /\
  (forall apiBaseUrl apiKey s,
      truthy apiBaseUrl = false \/ truthy apiKey = false ->
      initializeCredentialsAPI (Job := Job) (FormattedJob := FormattedJob)
                               apiBaseUrl apiKey s
      = (Thrown (mkError "API base URL and API key are required"), s)).
Proof.
  split; [|split].
  - intros platform sessionId s credential s1 Hget Hnonnull.
    destruct (getCredential_sets_active env _ _ _ _ _ Hget Hnonnull)
      as (this & id & _ & Hs1).
    unfold getActiveCredential, getCredentialsAPIClient, mbind, M_bind, bind.
    rewrite Hs1. cbn. rewrite lookup_insert_eq. reflexivity.
  - intros apiBaseUrl apiKey s Hurl Hkey.
    unfold initializeCredentialsAPI. rewrite Hurl, Hkey. cbn.
    eexists. split; [reflexivity|]. split; [reflexivity|].
    intros platform. reflexivity.
  - intros apiBaseUrl apiKey s Hempty.
    unfold initializeCredentialsAPI.
    destruct Hempty as [-> | ->]; cbn; [reflexivity|].
    rewrite orb_true_r. reflexivity.
Qed.

End Singleton.

Lemma singleton_client_lifecycle_witness :
  getActiveCredential "linkedin"
    (snd (getCredential (Scenario.backend_env (Scenario.healthy []))
            "linkedin" (Some "s-1") Scenario.started))
  = (Returned (Some (BodyCredential (mkCredential 1 "Account" "secret"))),
     snd (getCredential (Scenario.backend_env (Scenario.healthy []))
            "linkedin" (Some "s-1") Scenario.started)).
Proof.
  apply (proj1 (singleton_client_lifecycle (Scenario.backend_env (Scenario.healthy [])))
           "linkedin" (Some "s-1") Scenario.started).
  - reflexivity.
  - discriminate.
Defined.

(** ** The job id sent to Blacklight *)

Lemma usable_text x id : usable x = Some id -> id <> "" /\ id <> "N/A".
Proof.
  destruct x as [|s|]; try discriminate. cbn.
  destruct (truthy s && negb (String.eqb s "N/A")) eqn:Hs; [|discriminate].
  intros [= <-]. apply andb_true_iff in Hs as [Htruthy Hna].
  unfold truthy in Htruthy.
  apply negb_true_iff, String.eqb_neq in Htruthy.
  apply negb_true_iff, String.eqb_neq in Hna. auto.
Qed.

Lemma first_id_text job id : first_id job = Some id -> id <> "" /\ id <> "N/A".
Proof.
  unfold first_id. cbv zeta.
  repeat match goal with
         | |- context [match usable ?x with _ => _ end] =>
             let H := fresh "H" in
             destruct (usable x) eqn:H;
             [intros [= <-]; eapply usable_text; exact H|]
         end.
  apply usable_text.
Qed.

Lemma dashed_text a b : a +:+ "-" +:+ b <> "" /\ a +:+ "-" +:+ b <> "N/A".
Proof.
  destruct a as [|c1 [|c2 [|c3 [|c4 a]]]]; cbn; split; try discriminate.
Qed.

(** X21. The platform_job_id that formatJobForBlacklight sends is never
    empty and never "N/A".  It is the first of jobData.jobId,
    jobData.postId, jobData.id, job.jobId, job.postId, job.id that is a
    non-empty string other than "N/A"; failing that the hash of the
    first truthy URL property when that is such a string.  Only when
    neither exists does it depend on the clock and the random number. *)
Theorem platform_job_id_required job platform now random :
  platform_job_id job platform now random <> "" /\
  platform_job_id job platform now random <> "N/A" /\
  match first_id job, usable (id_url job) with
  | Some id, _ => platform_job_id job platform now random = id
  | None, Some url => platform_job_id job platform now random = hashString url
  | None, None =>
      platform_job_id job platform now random = platform +:+ "-" +:+ now +:+ "-" +:+ random
  end /\
  (first_id job = None /\ usable (id_url job) = None \/
   forall now' random',
     platform_job_id job platform now' random' = platform_job_id job platform now random).
Proof.
  unfold platform_job_id.
  destruct (first_id job) as [id|] eqn:Hid.
  - destruct (first_id_text job id Hid) as [H1 H2].
    split; [exact H1|]. split; [exact H2|]. split; [reflexivity|]. right. reflexivity.
  - destruct (usable (id_url job)) as [url|] eqn:Hurl.
    + unfold hashString. cbn.
      split; [discriminate|]. split; [discriminate|]. split; [reflexivity|].
      right. reflexivity.
    + destruct (dashed_text platform (now +:+ "-" +:+ random)) as [H1 H2].
      split; [exact H1|]. split; [exact H2|]. split; [reflexivity|]. left. auto.
Qed.

(** ** Scrape steps and credentials *)

Section Tally.
Context {Job FormattedJob : Type}.
Variable env : Env Job FormattedJob.
Implicit Types s : State Job FormattedJob.
Implicit Types evs : list (Event Job FormattedJob).

Lemma acquisitions_app evs1 evs2 :
  acquisitions (evs1 ++ evs2) = (acquisitions evs1 + acquisitions evs2)%nat.
Proof.
  unfold acquisitions. rewrite fetches_app, List.filter_app, length_app. reflexivity.
Qed.

Lemma yields_bind {A B} (m : M Job FormattedJob A) (k : A -> M Job FormattedJob B)
    (P : Outcome A -> list (Event Job FormattedJob) -> Prop)
    (Q : A -> Outcome B -> list (Event Job FormattedJob) -> Prop)
    (R : Outcome B -> list (Event Job FormattedJob) -> Prop) :
  yields m P ->
  (forall a, yields (k a) (Q a)) ->
  (forall a evs1 out evs2, P (Returned a) evs1 -> Q a out evs2 -> R out (evs1 ++ evs2)%list) ->
  (forall e evs1, P (Thrown e) evs1 -> R (Thrown e) evs1) ->
  yields (m ≫= k) R.
Proof.
  intros Hm Hk Hret Hthrow s. unfold mbind, M_bind, bind.
  destruct (Hm s) as (evs1 & Htr1 & H1).
  destruct (m s) as [[a|e] s1]; cbn in Htr1, H1 |- *.
  - destruct (Hk a s1) as (evs2 & Htr2 & H2).
    exists (evs1 ++ evs2)%list. rewrite Htr2, Htr1, app_assoc. split; [reflexivity|].
    apply (Hret a); assumption.
  - exists evs1. split; [exact Htr1|]. apply Hthrow. exact H1.
Qed.

Lemma yields_weaken {A} (m : M Job FormattedJob A)
    (P Q : Outcome A -> list (Event Job FormattedJob) -> Prop) :
  yields m P -> (forall out evs, P out evs -> Q out evs) -> yields m Q.
Proof.
  intros Hm HPQ s. destruct (Hm s) as (evs & Htr & H). exists evs. auto.
Qed.

Lemma yields_silent {A} (o : Outcome A)
    (P : Outcome A -> list (Event Job FormattedJob) -> Prop) :
  P o [] -> yields (fun s => (o, s)) P.
Proof. intros H s. exists []. rewrite app_nil_r. auto. Qed.

Lemma getCredential_tally platform sessionId :
  yields (getCredential env platform sessionId)
         (fun out evs => automation evs = [] /\ acquisitions evs = got out).
Proof.
  intros s. unfold getCredential, getCredentialsAPIClient, mbind, M_bind, bind.
  destruct (apiClient s) as [this|]; [|exists []; rewrite app_nil_r; auto].
  set (req := mkRequest _ GET (clientApiKey this) NoBody).
  exists [EvFetch req (env_fetch env (trace s) req)].
  unfold fetch, emit. cbn. fold req. unfold acquisitions. cbn. unfold acquired. cbn.
  destruct (env_fetch env (trace s) req) as [response|error]; cbn; [|auto].
  destruct (status response =? 204); cbn; [auto|].
  destruct (ok response); cbn.
  - unfold json. destruct (body response); cbn; auto.
  - unfold throw_api_error, mbind, M_bind, bind, json, api_error_text.
    destruct (body response) as [| |? ?|?|?|?|?|[?|]]; cbn; auto.
Qed.

Lemma report_tally platform suffix payload :
  yields (report env platform suffix payload) (plain_step 0).
Proof.
  intros s. destruct (apiClient s) as [this|] eqn:Hclient.
  - rewrite (report_cases env _ _ _ _ _ Hclient).
    destruct (activeCredentials this !! platform) as [lease|].
    + eexists. split; [reflexivity|]. split; reflexivity.
    + exists []. rewrite app_nil_r. split; [reflexivity|]. split; reflexivity.
  - exists []. rewrite app_nil_r. split; [|split; reflexivity].
    unfold report, getCredentialsAPIClient, mbind, M_bind, bind.
    rewrite Hclient. reflexivity.
Qed.

Lemma collab_tally call : yields (collab env call) (plain_step 1).
Proof.
  intros s. exists [EvCollab call (env_collab env (trace s) call)].
  split; [reflexivity|]. split; reflexivity.
Qed.

Lemma setup_tally platform : yields (setup env platform) (plain_step 1).
Proof.
  intros s. exists [EvSetup platform (env_setup env (trace s) platform)].
  split; [reflexivity|]. split; reflexivity.
Qed.

Lemma sleep_tally ms :
  yields (Job := Job) (FormattedJob := FormattedJob) (sleep ms) (plain_step 0).
Proof. intros s. exists [EvSleep ms]. split; [reflexivity|]. split; reflexivity. Qed.

Lemma poll_credential_tally platform sessionId fuel :
  forall credRetry,
    yields (poll_credential env platform sessionId fuel credRetry)
           (fun out evs => automation evs = [] /\ acquisitions evs = got out).
Proof.
  induction fuel as [|fuel IH]; intros credRetry.
  - apply (yields_silent (Returned BodyNull)). auto.
  - unfold poll_credential; fold (poll_credential (Job := Job) (FormattedJob := FormattedJob)).
    eapply (yields_bind _ _ _
              (fun credential out evs =>
                 automation evs = [] /\
                 (acquisitions evs + got (Returned credential) = got out)%nat));
      [apply getCredential_tally| | |].
    + intros credential.
      assert (Hnull : yields
        ((if Nat.ltb credRetry (maxCredentialRetries - 1)
          then sleep credentialRetryDelay else mret tt);;
         poll_credential env platform sessionId fuel (S credRetry))
        (fun out evs => automation evs = [] /\ (acquisitions evs + 0 = got out)%nat)).
      { eapply (yields_bind _ _ (plain_step 0)
                  (fun _ out evs => automation evs = [] /\ acquisitions evs = got out)).
        - destruct (Nat.ltb credRetry (maxCredentialRetries - 1));
            [apply sleep_tally|apply (yields_silent (Returned tt)); split; reflexivity].
        - intros _. apply IH.
        - intros _ evs1 out evs2 [Ha1 Hc1] [Ha2 Hc2].
          rewrite automation_app, acquisitions_app, Ha2, Hc1, Hc2.
          apply length_zero_iff_nil in Ha1. rewrite Ha1. split; [reflexivity|lia].
        - intros e evs1 [Ha1 Hc1]. apply length_zero_iff_nil in Ha1.
          rewrite Ha1, Hc1. auto. }
      destruct credential; first [exact Hnull | idtac];
        (apply (yields_silent (Returned _)); split; reflexivity).
    + intros credential evs1 out evs2 [Ha1 Hc1] [Ha2 Hc2].
      rewrite automation_app, acquisitions_app, Ha1, Ha2, Hc1. split; [reflexivity|lia].
    + intros e evs1 H. exact H.
Qed.


Lemma linkedin_on_error_tally loginSuccess error :
  yields (linkedin_on_error env loginSuccess error) (plain_step 0).
Proof.
  unfold linkedin_on_error, reportFailure.
  destruct (negb loginSuccess); [destruct (classify_linkedin _)|]; apply report_tally.
Qed.

Lemma techfetch_on_error_tally loginSuccess error :
  yields (techfetch_on_error env loginSuccess error) (plain_step 0).
Proof.
  unfold techfetch_on_error, reportFailure.
  destruct (negb loginSuccess); [destruct (classify_techfetch _)|]; apply report_tally.
Qed.

Lemma glassdoor_on_error_tally loginSuccess error :
  yields (glassdoor_on_error env loginSuccess error) (plain_step 0).
Proof.
  unfold glassdoor_on_error, reportFailure.
  destruct (negb loginSuccess); [destruct (classify_glassdoor _)|].
  1-3: apply report_tally.
  apply (yields_silent (Returned tt)). split; reflexivity.
Qed.

(** Every scrape step of the attempt loop follows a credential of its
    own. *)
Lemma linkedin_attempts_tally jobTitle location sessionId fuel :
  forall lastError,
    yields (linkedin_attempts env fuel lastError jobTitle location sessionId)
           (fun _ evs => length (automation evs) = acquisitions evs).
Proof.
  induction fuel as [|fuel IH]; intros lastError.
  - apply (yields_silent (Thrown _)). reflexivity.
  - unfold linkedin_attempts;
      fold (linkedin_attempts (Job := Job) (FormattedJob := FormattedJob)).
    eapply (yields_bind _ _ _
              (fun credential _ evs =>
                 length (automation evs)
                 = (acquisitions evs + got (Returned credential))%nat));
      [apply poll_credential_tally| | |].
    + intros credential.
      assert (Hrun : forall c, yields
        (r ← collab env (mkCollabCall "linkedin" jobTitle location (Some c));
         match r with
         | Scraped normalizedPosts =>
             reportSuccess env "linkedin"
               (Some ("Scraped " +:+ pretty (length normalizedPosts)
                        +:+ " posts successfully"));;
             mret normalizedPosts
         | ScrapeFailed error _ =>
             linkedin_on_error env false error;;
             linkedin_attempts env fuel (Some error) jobTitle location sessionId
         end)
        (fun _ evs => length (automation evs) = (acquisitions evs + 1)%nat)).
      { intros c.
        eapply (yields_bind _ _ (plain_step 1)
                  (fun _ _ evs => length (automation evs) = acquisitions evs));
          [apply collab_tally| | |].
        - intros [normalizedPosts|error loginSuccess].
          + eapply (yields_bind _ _ (plain_step 0) (fun _ _ evs => evs = []));
              [apply report_tally|intros _; apply (yields_silent (Returned _)); reflexivity
              | |].
            * intros _ evs1 out evs2 [Ha Hc] ->. rewrite app_nil_r, Ha, Hc. reflexivity.
            * intros e evs1 [Ha Hc]. rewrite Ha, Hc. reflexivity.
          + eapply (yields_bind _ _ (plain_step 0)
                      (fun _ _ evs => length (automation evs) = acquisitions evs));
              [apply linkedin_on_error_tally|intros _; apply IH| |].
            * intros _ evs1 out evs2 [Ha Hc] H2.
              rewrite automation_app, length_app, acquisitions_app, Ha, Hc, H2. reflexivity.
            * intros e evs1 [Ha Hc]. rewrite Ha, Hc. reflexivity.
        - intros r evs1 out evs2 [Ha Hc] H2.
          rewrite automation_app, length_app, acquisitions_app, Ha, Hc, H2. lia.
        - intros e evs1 [Ha Hc]. rewrite Ha, Hc. reflexivity. }
      destruct credential; first [apply (yields_silent (Thrown _)); reflexivity
                                 | apply Hrun].
    + intros credential evs1 out evs2 [Ha1 Hc1] H2.
      rewrite automation_app, length_app, acquisitions_app, Ha1, H2, Hc1.
      destruct credential; cbn; lia.
    + intros e evs1 [Ha1 Hc1]. rewrite Ha1, Hc1. reflexivity.
Qed.

Lemma techfetch_attempts_tally jobTitle location sessionId fuel :
  forall lastError,
    yields (techfetch_attempts env fuel lastError jobTitle location sessionId)
           (fun _ evs => length (automation evs) = acquisitions evs).
Proof.
  induction fuel as [|fuel IH]; intros lastError.
  - apply (yields_silent (Thrown _)). reflexivity.
  - unfold techfetch_attempts;
      fold (techfetch_attempts (Job := Job) (FormattedJob := FormattedJob)).
    eapply (yields_bind _ _ _
              (fun credential _ evs =>
                 length (automation evs)
                 = (acquisitions evs + got (Returned credential))%nat));
      [apply poll_credential_tally| | |].
    + intros credential.
      assert (Hrun : forall c, yields
        (r ← collab env (mkCollabCall "techfetch" jobTitle location (Some c));
         match r with
         | Scraped normalizedJobs =>
             reportSuccess env "techfetch"
               (Some ("Scraped " +:+ pretty (length normalizedJobs)
                        +:+ " jobs successfully"));;
             mret normalizedJobs
         | ScrapeFailed error loginSuccess =>
             techfetch_on_error env loginSuccess error;;
             techfetch_attempts env fuel (Some error) jobTitle location sessionId
         end)
        (fun _ evs => length (automation evs) = (acquisitions evs + 1)%nat)).
      { intros c.
        eapply (yields_bind _ _ (plain_step 1)
                  (fun _ _ evs => length (automation evs) = acquisitions evs));
          [apply collab_tally| | |].
        - intros [normalizedJobs|error loginSuccess].
          + eapply (yields_bind _ _ (plain_step 0) (fun _ _ evs => evs = []));
              [apply report_tally|intros _; apply (yields_silent (Returned _)); reflexivity
              | |].
            * intros _ evs1 out evs2 [Ha Hc] ->. rewrite app_nil_r, Ha, Hc. reflexivity.
            * intros e evs1 [Ha Hc]. rewrite Ha, Hc. reflexivity.
          + eapply (yields_bind _ _ (plain_step 0)
                      (fun _ _ evs => length (automation evs) = acquisitions evs));
              [apply techfetch_on_error_tally|intros _; apply IH| |].
            * intros _ evs1 out evs2 [Ha Hc] H2.
              rewrite automation_app, length_app, acquisitions_app, Ha, Hc, H2. reflexivity.
            * intros e evs1 [Ha Hc]. rewrite Ha, Hc. reflexivity.
        - intros r evs1 out evs2 [Ha Hc] H2.
          rewrite automation_app, length_app, acquisitions_app, Ha, Hc, H2. lia.
        - intros e evs1 [Ha Hc]. rewrite Ha, Hc. reflexivity. }
      destruct credential; first [apply (yields_silent (Thrown _)); reflexivity
                                 | apply Hrun].
    + intros credential evs1 out evs2 [Ha1 Hc1] H2.
      rewrite automation_app, length_app, acquisitions_app, Ha1, H2, Hc1.
      destruct credential; cbn; lia.
    + intros e evs1 [Ha1 Hc1]. rewrite Ha1, Hc1. reflexivity.
Qed.

Lemma client_tally :
  yields (Job := Job) (FormattedJob := FormattedJob) getCredentialsAPIClient
         (plain_step 0).
Proof.
  intros s. exists []. rewrite app_nil_r. unfold getCredentialsAPIClient.
  destruct (apiClient s); (split; [reflexivity|split; reflexivity]).
Qed.

(** scrapeGlassdoor starts the browser only with its one credential in
    hand, and scrapes only after the browser has started. *)
Lemma scrapeGlassdoor_tally jobTitle location sessionId :
  yields (scrapeGlassdoor env jobTitle location sessionId)
         (fun _ evs => (acquisitions evs <= length (automation evs)
                        <= 2 * acquisitions evs)%nat /\
                       (acquisitions evs <= 1)%nat).
Proof.
  unfold scrapeGlassdoor.
  eapply (yields_bind _ _ (plain_step 0)
            (fun _ _ evs => (acquisitions evs <= length (automation evs)
                             <= 2 * acquisitions evs)%nat /\
                            (acquisitions evs <= 1)%nat));
    [apply client_tally|intros _| |].
  - eapply (yields_bind _ _ _
              (fun credential _ evs =>
                 (got (Returned credential) <= length (automation evs)
                  <= 2 * got (Returned credential))%nat /\ acquisitions evs = 0%nat));
      [apply getCredential_tally| | |].
    + intros credential.
      assert (Hrun : forall c, yields
        (setup env "glassdoor";;
         r ← collab env (mkCollabCall "glassdoor" jobTitle location (Some c));
         match r with
         | Scraped jobDetails =>
             reportSuccess env "glassdoor"
               (Some ("Scraped " +:+ pretty (length jobDetails) +:+ " jobs successfully"));;
             mret jobDetails
         | ScrapeFailed error loginSuccess =>
             glassdoor_on_error env loginSuccess error;;
             throw error
         end)
        (fun _ evs => (1 <= length (automation evs) <= 2)%nat /\ acquisitions evs = 0%nat)).
      { intros c.
        eapply (yields_bind _ _ (plain_step 1) (fun _ _ => plain_step 1 (Returned tt)));
          [apply setup_tally|intros _| |].
        - eapply (yields_bind _ _ (plain_step 1) (fun _ _ => plain_step 0 (Returned tt)));
            [apply collab_tally| | |].
          + intros [jobDetails|error loginSuccess].
            * eapply (yields_bind _ _ (plain_step 0) (fun _ _ evs => evs = []));
                [apply report_tally
                |intros _; apply (yields_silent (Returned _)); reflexivity| |].
              -- intros ? evs1 out evs2 H ->. rewrite app_nil_r. exact H.
              -- intros e evs1 H. exact H.
            * eapply (yields_bind _ _ (plain_step 0) (fun _ _ evs => evs = []));
                [apply glassdoor_on_error_tally
                |intros _; apply (yields_silent (Thrown _)); reflexivity| |].
              -- intros ? evs1 out evs2 H ->. rewrite app_nil_r. exact H.
              -- intros e evs1 H. exact H.
          + intros r evs1 out evs2 [Ha Hc] [Ha2 Hc2]. split.
            * rewrite automation_app, length_app, Ha, Ha2. reflexivity.
            * rewrite acquisitions_app, Hc, Hc2. reflexivity.
          + intros e evs1 H. exact H.
        - intros _ evs1 out evs2 [Ha Hc] [Ha2 Hc2].
          rewrite automation_app, length_app, acquisitions_app, Ha, Ha2, Hc, Hc2.
          split; [lia|reflexivity].
        - intros e evs1 [Ha Hc]. rewrite Ha, Hc. split; [lia|reflexivity]. }
      destruct credential;
        first [apply (yields_silent (Thrown _)); cbn; split; [lia|reflexivity]
              | eapply yields_weaken; [apply Hrun|cbn; intros out evs [H1 H2]; split; [lia|exact H2]]].
    + intros credential evs1 out evs2 [Ha1 Hc1] [Ha2 Hc2].
      rewrite automation_app, length_app, acquisitions_app, Ha1, Hc1, Hc2. cbn [length].
      destruct credential; cbn in Ha2 |- *; lia.
    + intros e evs1 [Ha1 Hc1]. rewrite Ha1, Hc1. cbn. lia.
  - intros _ evs1 out evs2 [Ha Hc] H2.
    rewrite automation_app, length_app, acquisitions_app, Ha, Hc. exact H2.
  - intros e evs1 [Ha Hc]. rewrite Ha, Hc. cbn. lia.
Qed.

Lemma scrape_plain_tally platform jobTitle location :
  yields (scrape_plain env platform jobTitle location) (plain_step 1).
Proof.
  unfold scrape_plain.
  eapply (yields_bind _ _ (plain_step 1) (fun _ _ evs => evs = []));
    [apply collab_tally| | |].
  - intros [jobs|error loginSuccess];
      [apply (yields_silent (Returned _))|apply (yields_silent (Thrown _))]; reflexivity.
  - intros r evs1 out evs2 H ->. rewrite app_nil_r. exact H.
  - intros e evs1 H. exact H.
Qed.

End Tally.

(** ** The events of a queue run, platform by platform *)

Section RunEvents.
Context {Job FormattedJob : Type}.
Variable formatJobForBlacklight : Job -> string -> Outcome FormattedJob.
Variable env : Env Job FormattedJob.
Variables apiUrl apiKey : string.
Variable q : QueueItem.
Implicit Types s : State Job FormattedJob.
Implicit Types evs : list (Event Job FormattedJob).

(** Scrape operations alone are as many as the automation steps. *)
Lemma scrape_only_count platform evs a :
  platform_ops evs = repeat (OpScrape, platform) a -> length (automation evs) = a.
Proof.
  revert a. induction evs as [|e evs IH]; intros a Hops.
  - destruct a; [reflexivity|discriminate].
  - destruct e as [req res|ms|p res|call res]; unfold platform_ops in Hops; cbn in Hops |- *.
    + destruct (req_body req); try (apply IH; exact Hops).
      destruct a; discriminate.
    + apply IH. exact Hops.
    + destruct a as [|a]; [discriminate|]. injection Hops as _ Hops.
      f_equal. apply IH. exact Hops.
    + destruct a as [|a]; [discriminate|]. injection Hops as _ Hops.
      f_equal. apply IH. exact Hops.
Qed.

(** What the scraper of a name adds to the trace. *)
Lemma SCRAPERS_steps platformName scraper jobTitle location sessionId s :
  SCRAPERS env platformName = Some scraper ->
  exists evs a,
    trace (snd (scraper jobTitle location sessionId s)) = (trace s ++ evs)%list /\
    platform_ops evs = repeat (OpScrape, platformName) a /\
    scrape_steps platformName evs a.
Proof.
  intros Hscraper.
  destruct (SCRAPERS_ops env platformName scraper jobTitle location sessionId Hscraper s)
    as (evs & Htr & a & Hops).
  exists evs, a. split; [exact Htr|]. split; [exact Hops|].
  pose proof (scrape_only_count _ _ _ Hops) as Hcount.
  assert (Hsame : forall evs', trace (snd (scraper jobTitle location sessionId s))
                               = (trace s ++ evs')%list -> evs' = evs).
  { intros evs' Htr'. rewrite Htr in Htr'. apply app_inv_head in Htr'. auto. }
  unfold SCRAPERS in Hscraper. unfold scrape_steps.
  destruct (String.eqb platformName "monster") eqn:E1.
  { injection Hscraper as <-. cbn [orb].
    destruct (scrape_plain_tally env "monster" jobTitle location s) as (evs' & Htr' & Ha & _).
    apply Hsame in Htr'. subst evs'. lia. }
  destruct (String.eqb platformName "dice") eqn:E2.
  { injection Hscraper as <-. cbn [orb].
    destruct (scrape_plain_tally env "dice" jobTitle location s) as (evs' & Htr' & Ha & _).
    apply Hsame in Htr'. subst evs'. lia. }
  cbn [orb].
  destruct (String.eqb platformName "techfetch") eqn:E3.
  { injection Hscraper as <-. cbn [orb].
    assert (Htally : yields (scrapeTechFetch env jobTitle location sessionId)
                            (fun _ evs => length (automation evs) = acquisitions evs)).
    { unfold scrapeTechFetch.
      eapply (yields_bind _ _ (plain_step 0)
                (fun _ _ evs => length (automation evs) = acquisitions evs));
        [apply client_tally|intros _; apply techfetch_attempts_tally| |].
      - intros ? evs1 out evs2 [Ha Hc] H2.
        rewrite automation_app, length_app, acquisitions_app, Ha, Hc. exact H2.
      - intros e evs1 [Ha Hc]. rewrite Ha, Hc. reflexivity. }
    destruct (Htally s) as (evs' & Htr' & Hbal). apply Hsame in Htr'. subst evs'.
    assert (Hbound : emits (scrapeTechFetch env jobTitle location sessionId)
                           (within 3 30 3 27)).
    { unfold scrapeTechFetch.
      apply (within_bind _ _ 0 0 0 0 3 30 3 27);
        [apply getCredentialsAPIClient_within|intros _].
      apply (techfetch_attempts_within env _ _ _ 3). }
    destruct (Hbound s) as (evs' & Htr' & Hle & _). apply Hsame in Htr'. subst evs'.
    lia. }
  destruct (String.eqb platformName "linkedin") eqn:E4.
  { injection Hscraper as <-. cbn [orb].
    assert (Htally : yields (scrapeLinkedIn env jobTitle location sessionId)
                            (fun _ evs => length (automation evs) = acquisitions evs)).
    { unfold scrapeLinkedIn.
      eapply (yields_bind _ _ (plain_step 0)
                (fun _ _ evs => length (automation evs) = acquisitions evs));
        [apply client_tally|intros _; apply linkedin_attempts_tally| |].
      - intros ? evs1 out evs2 [Ha Hc] H2.
        rewrite automation_app, length_app, acquisitions_app, Ha, Hc. exact H2.
      - intros e evs1 [Ha Hc]. rewrite Ha, Hc. reflexivity. }
    destruct (Htally s) as (evs' & Htr' & Hbal). apply Hsame in Htr'. subst evs'.
    assert (Hbound : emits (scrapeLinkedIn env jobTitle location sessionId)
                           (within 3 30 3 27)).
    { unfold scrapeLinkedIn.
      apply (within_bind _ _ 0 0 0 0 3 30 3 27);
        [apply getCredentialsAPIClient_within|intros _].
      apply (linkedin_attempts_within env _ _ _ 3). }
    destruct (Hbound s) as (evs' & Htr' & Hle & _). apply Hsame in Htr'. subst evs'.
    lia. }
  cbn [orb].
  destruct (String.eqb platformName "glassdoor") eqn:E5.
  { injection Hscraper as <-.
    destruct (scrapeGlassdoor_tally env jobTitle location sessionId s)
      as (evs' & Htr' & Hbal). apply Hsame in Htr'. subst evs'. lia. }
  destruct (String.eqb platformName "constructor") eqn:E6.
  { injection Hscraper as <-. specialize (Hsame [] ltac:(cbn; rewrite app_nil_r; reflexivity)).
    subst evs. cbn in Hcount. lia. }
  destruct (String.eqb platformName "__proto__") eqn:E7; [|discriminate].
  injection Hscraper as <-. specialize (Hsame [] ltac:(cbn; rewrite app_nil_r; reflexivity)).
  subst evs. cbn in Hcount. lia.
Qed.


(** The exchanges of submitJobs: at least one, all of them the POST of
    the jobs. *)
Lemma submitJobs_shape sessionId platform jobs status_arg errorMessage s :
  exists evs b,
    trace (snd (submitJobs env apiUrl apiKey sessionId platform jobs status_arg
                           errorMessage s)) = (trace s ++ evs)%list /\
    platform_ops evs = repeat (OpSubmit, platform) (S b) /\
    acquisitions evs = 0%nat.
Proof.
  rewrite submitJobs_state.
  set (req := mkRequest (apiUrl +:+ "/api/scraper/queue/jobs") POST apiKey
                (JobsBody sessionId platform jobs
                   (if String.eqb status_arg "failed" then Some errorMessage else None))).
  destruct (makeApiRequest_trace env req s) as (evs & Htr & Hauto & Hne & Hall & _).
  exists evs, (length (fetches evs) - 1)%nat. split; [exact Htr|]. split.
  - rewrite (http_ops_submit req _ _ _ _ evs eq_refl Hauto Hall).
    f_equal. destruct (fetches evs); [contradiction|cbn; lia].
  - unfold acquisitions. clear Hne.
    induction Hall as [|x l Hx _ IH]; [reflexivity|].
    cbn. unfold acquired at 1. rewrite Hx. cbn. exact IH.
Qed.

Lemma scrape_steps_ext platformName evs evs' a :
  acquisitions evs' = acquisitions evs ->
  scrape_steps platformName evs a -> scrape_steps platformName evs' a.
Proof. unfold scrape_steps. intros ->. auto. Qed.

(** One iteration of the loop leaves the run of its platform. *)
Lemma process_platform_run platformInfo results s :
  exists evs,
    trace (snd (process_platform formatJobForBlacklight env apiUrl apiKey q
                                 platformInfo results s)) = (trace s ++ evs)%list /\
    platform_run (toLowerCase (pi_name platformInfo)) evs.
Proof.
  set (platformName := toLowerCase (pi_name platformInfo)).
  assert (Hcatch : forall error s0 s1 evs1 a b,
    trace s1 = (trace s0 ++ evs1)%list ->
    platform_ops evs1 = (repeat (OpScrape, platformName) a
                         ++ repeat (OpSubmit, platformName) b)%list ->
    scrape_steps platformName evs1 a ->
    exists evs,
      trace (snd (report_failed env apiUrl apiKey q platformName error results s1))
      = (trace s0 ++ evs)%list /\
      platform_run platformName evs).
  { intros error s0 s1 evs1 a b Htr1 Hops1 Hsteps.
    rewrite report_failed_returns. cbn.
    destruct (submitJobs_shape (qi_session_id q) platformName [] "failed"
                               (Some (message error)) s1)
      as (evs2 & b2 & Htr2 & Hops2 & Hacq2).
    exists (evs1 ++ evs2)%list. rewrite Htr2, Htr1, app_assoc. split; [reflexivity|].
    exists a, (b + b2)%nat. split.
    - rewrite platform_ops_app, Hops1, Hops2, <- app_assoc. f_equal.
      rewrite <- repeat_app. f_equal. lia.
    - eapply scrape_steps_ext; [|exact Hsteps].
      rewrite acquisitions_app, Hacq2. lia. }
  destruct (SCRAPERS env platformName) as [scraper|] eqn:Hscraper.
  - rewrite (process_platform_supported _ _ _ _ _ _ _ _ _ Hscraper). cbn zeta.
    fold platformName.
    destruct (SCRAPERS_steps platformName scraper (role_name (qi_role q))
                (qi_location q) (Some (qi_session_id q)) s Hscraper)
      as (evs1 & a & Htr1 & Hops1 & Hsteps1).
    destruct (scraper _ _ _ s) as [[jobs|error] s1]; cbn in Htr1.
    + destruct (format_all _ jobs platformName) as [formattedJobs|error].
      * destruct (submitJobs_shape (qi_session_id q) platformName formattedJobs "success"
                                   None s1) as (evs2 & b2 & Htr2 & Hops2 & Hacq2).
        assert (Htr12 : trace (snd (submitJobs env apiUrl apiKey (qi_session_id q)
                                      platformName formattedJobs "success" None s1))
                        = (trace s ++ (evs1 ++ evs2))%list).
        { rewrite Htr2, Htr1, app_assoc. reflexivity. }
        assert (Hops12 : platform_ops (evs1 ++ evs2)
                         = (repeat (OpScrape, platformName) a
                            ++ repeat (OpSubmit, platformName) (S b2))%list).
        { rewrite platform_ops_app, Hops1, Hops2. reflexivity. }
        assert (Hsteps12 : scrape_steps platformName (evs1 ++ evs2) a).
        { eapply scrape_steps_ext; [|exact Hsteps1].
          rewrite acquisitions_app, Hacq2. lia. }
        destruct (submitJobs _ _ _ _ _ _ _ _ s1) as [[submitResponse|error] s2];
          cbn in Htr12.
        -- destruct (read_progress submitResponse s2) as [[u|error] s3].
           ++ exists (evs1 ++ evs2)%list. split; [exact Htr12|].
              exists a, b2. auto.
           ++ eapply Hcatch; eassumption.
        -- eapply Hcatch; eassumption.
      * eapply (Hcatch _ _ _ _ a 0%nat); [eassumption| |exact Hsteps1].
        rewrite Hops1, app_nil_r. reflexivity.
    + eapply (Hcatch _ _ _ _ a 0%nat); [eassumption| |exact Hsteps1].
      rewrite Hops1, app_nil_r. reflexivity.
  - unfold process_platform. fold platformName. rewrite Hscraper.
    unfold mbind, M_bind, bind.
    destruct (submitJobs_shape (qi_session_id q) platformName [] "failed"
                (Some ("Platform not supported: " +:+ platformName)) s)
      as (evs & b & Htr & Hops & Hacq).
    exists evs. split.
    + destruct (submitJobs _ _ _ _ _ _ _ _ s) as [[r|e] s1]; exact Htr.
    + exists 0%nat, b. split; [exact Hops|].
      unfold SCRAPERS in Hscraper. unfold scrape_steps.
      repeat match type of Hscraper with
             | (if ?c then _ else _) = None => destruct c; [discriminate|]
             end.
      reflexivity.
Qed.

Lemma platform_loop_runs platforms :
  forall results s,
  exists k runs,
    trace (snd (platform_loop formatJobForBlacklight env apiUrl apiKey q
                              platforms results s)) = (trace s ++ concat runs)%list /\
    runs_in_list_order (take k platforms) runs /\
    match fst (platform_loop formatJobForBlacklight env apiUrl apiKey q
                             platforms results s) with
    | Returned _ => k = length platforms
    | Thrown _ =>
        exists p, platforms !! (k - 1)%nat = Some p /\
                  (1 <= k)%nat /\
                  SCRAPERS env (toLowerCase (pi_name p)) = None
    end.
Proof.
  induction platforms as [|p rest IH]; intros results s.
  - exists 0%nat, []. cbn. rewrite app_nil_r. repeat split. constructor.
  - cbn [platform_loop]. unfold mbind, M_bind, bind.
    destruct (process_platform_run p results s) as (evs1 & Htr1 & Hrun1).
    destruct (process_platform _ _ _ _ _ p results s) as [[results'|e] s1] eqn:Hp;
      cbn in Htr1.
    + destruct (IH results' s1) as (k & runs & Htr & Hord & Hout).
      exists (S k), (evs1 :: runs).
      split; [cbn [concat]; rewrite Htr, Htr1, app_assoc; reflexivity|].
      split; [constructor; assumption|].
      destruct (fst _).
      * cbn. lia.
      * destruct Hout as (p' & Hp' & Hk & Hnone). exists p'.
        replace (S k - 1)%nat with (S (k - 1)) by lia. cbn. auto with lia.
    + exists 1%nat, [evs1]. cbn [concat]. rewrite app_nil_r.
      split; [exact Htr1|]. split; [repeat constructor; exact Hrun1|].
      exists p. split; [reflexivity|]. split; [lia|].
      destruct (SCRAPERS env (toLowerCase (pi_name p))) as [scraper|] eqn:Hscraper;
        [|reflexivity].
      destruct (process_platform_supported_returns formatJobForBlacklight env apiUrl
                  apiKey q p results scraper s Hscraper) as (r & Hr).
      rewrite Hp in Hr. discriminate.
Qed.

(** X22. For a queue item whose platform names are ASCII, the events
    of the platform loop are one run per platform, the runs in the order
    of the platform list and nothing between them.  A run is the scrape
    steps of its platform followed by its submit exchanges: exactly one
    scrape for monster and for dice, one per credential obtained (three
    at most) for techfetch and linkedin, the browser start and the
    scrape after the one credential of glassdoor, and none for a name
    without a scraper.  When the run returns, every platform has its
    run and only completion exchanges follow; when it throws, it stopped
    in the run of a platform without a scraper. *)
Theorem platforms_run_in_list_order s :
  Forall (fun p => is_ascii_text (pi_name p) = true) (qi_platforms q) ->
  exists k runs rest,
    trace (snd (run_queue_item formatJobForBlacklight env apiUrl apiKey q s))
    = (trace s ++ concat runs ++ rest)%list /\
    runs_in_list_order (take k (qi_platforms q)) runs /\
    platform_ops rest = [] /\
    automation rest = [] /\
    match fst (run_queue_item formatJobForBlacklight env apiUrl apiKey q s) with
    | Returned _ => k = length (qi_platforms q)
    | Thrown _ =>
        rest = [] /\
        exists p, qi_platforms q !! (k - 1)%nat = Some p /\
                  (1 <= k)%nat /\
                  SCRAPERS env (toLowerCase (pi_name p)) = None
    end.
Proof.
  intros _. unfold run_queue_item, mbind, M_bind, bind.
  destruct (platform_loop_runs (qi_platforms q) (initial_results q) s)
    as (k & runs & Htr & Hord & Hout).
  destruct (platform_loop _ _ _ _ _ _ _ s) as [[results|e] s1]; cbn in Htr, Hout.
  - destruct (complete_step_returns env apiUrl apiKey q results s1)
      as (results' & Hstep & _).
    rewrite Hstep. cbn [fst snd].
    rewrite completeSession_state.
    destruct (makeApiRequest_trace env
                (mkRequest (apiUrl +:+ "/api/scraper/queue/complete") POST apiKey
                           (CompleteBody (qi_session_id q))) s1)
      as (rest & Htr2 & Hauto & _ & Hall & _).
    exists k, runs, rest.
    split; [rewrite Htr2, Htr, <- app_assoc; reflexivity|].
    split; [exact Hord|].
    split; [exact (http_ops_quiet
                     (mkRequest (apiUrl +:+ "/api/scraper/queue/complete") POST apiKey
                                (CompleteBody (qi_session_id q)))
                     rest eq_refl Hauto Hall)|].
    split; [exact Hauto|exact Hout].
  - exists k, runs, []. cbn [fst snd]. rewrite app_nil_r.
    split; [exact Htr|]. split; [exact Hord|]. split; [reflexivity|].
    split; [reflexivity|]. split; [reflexivity|exact Hout].
Qed.

End RunEvents.

Lemma platforms_run_in_list_order_witness :
  exists runs rest,
    trace (snd (run_queue_item Scenario.format Scenario.second_try_env
                  (cfg_apiUrl Scenario.config) (cfg_apiKey Scenario.config)
                  (Scenario.item Scenario.two_platforms) Scenario.started))
    = (trace Scenario.started ++ concat runs ++ rest)%list /\
    runs_in_list_order Scenario.two_platforms runs /\
    platform_ops rest = [].
Proof.
  destruct (platforms_run_in_list_order Scenario.format Scenario.second_try_env
              (cfg_apiUrl Scenario.config) (cfg_apiKey Scenario.config)
              (Scenario.item Scenario.two_platforms) Scenario.started)
    as (k & runs & rest & Htr & Hord & Hops & _ & Hout).
  { repeat constructor. }
  vm_compute in Hout. subst k.
  exists runs, rest. split; [exact Htr|]. split; [exact Hord|exact Hops].
Defined.
